(** * Pi Shield worker: media processing pipeline

    A shallow embedding of [backend/worker/worker.py] and the properties of
    its analysis job pipeline: the scoring engine of [MediaProcessor], the
    video sub-pipeline (metadata probe, duration cap, frame sampling) and
    the queue consumer of [Worker] with its status updates and report
    upsert.

    Conventions of the embedding.
    - Python [float]s are exact rationals ([Q]); Python [int]s are [Z].
    - Python [str]s are [string]s whose characters are code points below
      256; [str.lower], [str.isspace] and [str.split] follow Python on
      that range.
    - A raised exception is a value [Raise e]; [e] ranges over instances of
      Python's [Exception], with its class and its [str(e)] text.
    - Calls that leave the process (storage, ffprobe/ffmpeg, the vision and
      speech services, the clock, [uuid4]) take their outcome from an
      environment record and are recorded in a trace. *)

From Stdlib Require Import QArith Ascii Lqa.
From stdpp Require Import gmap strings list.

Local Set Warnings "-register-all".

(** ** Python values and built-ins *)

Module Py.

(** Values as [json.loads] (and [eval]) produce them. The pairs of a
    dict are in insertion order, with distinct keys. *)
Inductive value :=
| VNone
| VBool (b : bool)
| VInt (z : Z)
| VFloat (q : Q)
| VStr (s : string)
| VList (l : list value)
| VDict (kv : list (string * value)).

(** Classes of the exceptions that the modelled code can meet. *)
Inductive exn_class :=
| CalledProcessError | JSONDecodeError | KeyError
| ValueError | TypeError | AttributeError | ZeroDivisionError
| OSError | OtherError (name : string).

(** [str(e)]. A message that the source formats keeps the formatted
    values; [InterpreterText] is the text that the interpreter gives to
    an error of its own. *)
Inductive message :=
| Msg (s : string)
| InterpreterText
| VideoTooLong (duration : Q) (max : Z)
    (* f"Video too long: {duration}s (max: {max}s)" *)
| UnsupportedInputType (input_type : value).
    (* f"Unsupported input type: {input_type}" *)

Record exn := Exn { exn_cls : exn_class; exn_str : message }.

Inductive result (A : Type) :=
| Ok (a : A)
| Raise (e : exn).
Arguments Ok {A} a.
Arguments Raise {A} e.

Definition result_bind {A B} (m : result A) (k : A -> result B) : result B :=
  match m with
  | Ok a => k a
  | Raise e => Raise e
  end.

(** [except (C1, C2, ...)]: class membership. None of the classes above
    is a subclass of another one that the code names in a handler. *)
Definition exn_class_eqb (c d : exn_class) : bool :=
  match c, d with
  | CalledProcessError, CalledProcessError
  | JSONDecodeError, JSONDecodeError
  | KeyError, KeyError
  | ValueError, ValueError
  | TypeError, TypeError
  | AttributeError, AttributeError
  | ZeroDivisionError, ZeroDivisionError
  | OSError, OSError => true
  | OtherError a, OtherError b => bool_decide (a = b)
  | _, _ => false
  end.

Definition isinstance (e : exn) (classes : list exn_class) : bool :=
  existsb (exn_class_eqb (exn_cls e)) classes.

Fixpoint dict_lookup (k : string) (kv : list (string * value)) : option value :=
  match kv with
  | [] => None
  | (k', v) :: rest => if bool_decide (k' = k) then Some v else dict_lookup k rest
  end.

(** [v[k]] for a string key [k]. *)
Definition getitem (v : value) (k : string) : result value :=
  match v with
  | VDict kv =>
      match dict_lookup k kv with
      | Some x => Ok x
      | None => Raise (Exn KeyError (Msg ("'" +:+ k +:+ "'")))
      end
  | _ => Raise (Exn TypeError InterpreterText)
  end.

(** [v.get(k, default)] *)
Definition get (v : value) (k : string) (dflt : value) : result value :=
  match v with
  | VDict kv => Ok (default dflt (dict_lookup k kv))
  | _ => Raise (Exn AttributeError InterpreterText)
  end.

(** The items that [for s in v] visits. *)
Definition iter (v : value) : result (list value) :=
  match v with
  | VList l => Ok l
  | VDict kv => Ok (map (fun p => VStr (fst p)) kv)
  | VStr s => Ok (map (fun c => VStr (String c "")) (String.list_ascii_of_string s))
  | _ => Raise (Exn TypeError InterpreterText)
  end.

(** [v == s] for a string literal [s]. *)
Definition eq_str (v : value) (s : string) : bool :=
  match v with
  | VStr s' => bool_decide (s' = s)
  | _ => false
  end.

(** [float(v)] and [int(v)]; the text of a string is read by
    [of_string], which fails with [ValueError]. *)
Definition float (of_string : string -> option Q) (v : value) : result Q :=
  match v with
  | VInt z => Ok (inject_Z z)
  | VFloat q => Ok q
  | VBool b => Ok (if b then 1%Q else 0%Q)
  | VStr s =>
      match of_string s with
      | Some q => Ok q
      | None => Raise (Exn ValueError InterpreterText)
      end
  | _ => Raise (Exn TypeError InterpreterText)
  end.

Definition int (of_string : string -> option Z) (v : value) : result Z :=
  match v with
  | VInt z => Ok z
  | VFloat q => Ok (Z.quot (Qnum q) (Zpos (Qden q)))
  | VBool b => Ok (if b then 1%Z else 0%Z)
  | VStr s =>
      match of_string s with
      | Some z => Ok z
      | None => Raise (Exn ValueError InterpreterText)
      end
  | _ => Raise (Exn TypeError InterpreterText)
  end.

(** Decimal integer literals: [0], or digits that do not start with 0. *)
Definition digit_of (c : ascii) : option N :=
  let n := N_of_ascii c in
  if ((48 <=? n) && (n <=? 57))%N then Some (n - 48)%N else None.

Fixpoint digits_value (acc : N) (s : string) : option N :=
  match s with
  | EmptyString => Some acc
  | String c t =>
      match digit_of c with
      | Some d => digits_value (acc * 10 + d)%N t
      | None => None
      end
  end.

Definition int_literal (s : string) : option N :=
  match s with
  | EmptyString => None
  | String c t =>
      if bool_decide (c = "0"%char)
      then (if bool_decide (t = "") then Some 0%N else None)
      else digits_value 0 s
  end.

(** The text before and the text after the first slash. *)
Fixpoint split_slash (cur : string) (s : string) : option (string * string) :=
  match s with
  | EmptyString => None
  | String c t =>
      if bool_decide (c = "/"%char) then Some (cur, t)
      else split_slash (cur +:+ String c "") t
  end.

Definition fraction_literal (s : string) : option (N * N) :=
  match split_slash "" s with
  | Some (a, b) =>
      match int_literal a, int_literal b with
      | Some n, Some d => Some (n, d)
      | _, _ => None
      end
  | None => None
  end.

(** [eval(v)]. The quotient of two integer literals, the form in which
    ffprobe prints a frame rate, is evaluated here; any other source text
    is left to [other]. *)
Definition eval (other : string -> result value) (v : value) : result value :=
  match v with
  | VStr s =>
      match fraction_literal s with
      | Some (n, d) =>
          if (d =? 0)%N
          then Raise (Exn ZeroDivisionError (Msg "division by zero"))
          else Ok (VFloat (inject_Z (Z.of_N n) / inject_Z (Z.of_N d))%Q)
      | None => other s
      end
  | _ => Raise (Exn TypeError InterpreterText)
  end.

(** Comparisons of floats. *)
Definition Qltb (x y : Q) : bool := negb (Qle_bool y x).

(** [min(a, b)] returns [a] unless [b < a]; [max(a, b)] returns [a] unless
    [b > a]. *)
Definition py_min (a b : Q) : Q := if Qltb b a then b else a.
Definition py_max (a b : Q) : Q := if Qltb a b then b else a.

(** [sum(xs)] of floats, from the int [0], left to right. *)
Definition py_sum (xs : list Q) : Q := fold_left Qplus xs 0%Q.

Definition float_of_nat (n : nat) : Q := inject_Z (Z.of_nat n).

(** [str.lower] for code points below 256: A-Z and the Latin-1 capitals
    (0xC0-0xDE except the multiplication sign 0xD7) move up by 32. *)
Definition lower_char (c : ascii) : ascii :=
  let n := nat_of_ascii c in
  if (((65 <=? n) && (n <=? 90))
      || ((192 <=? n) && (n <=? 222) && negb (n =? 215)))%nat
  then ascii_of_nat (n + 32) else c.

Fixpoint lower (s : string) : string :=
  match s with
  | EmptyString => EmptyString
  | String c t => String (lower_char c) (lower t)
  end.

(** [str.isspace] for one code point below 256. *)
Definition isspace (c : ascii) : bool :=
  let n := nat_of_ascii c in
  (((9 <=? n) && (n <=? 13)) || ((28 <=? n) && (n <=? 32))
   || (n =? 133) || (n =? 160))%nat.

(** [s.split()]: maximal runs of non-space characters, in order. *)
Fixpoint split_from (cur : string) (s : string) : list string :=
  match s with
  | EmptyString => if bool_decide (cur = "") then [] else [cur]
  | String c t =>
      if isspace c
      then (if bool_decide (cur = "") then split_from "" t
            else cur :: split_from "" t)
      else split_from (cur +:+ String c "") t
  end.

Definition split (s : string) : list string := split_from "" s.

(** [needle in hay] for strings. *)
Fixpoint contains (needle hay : string) : bool :=
  String.prefix needle hay
  || match hay with
     | EmptyString => false
     | String _ t => contains needle t
     end.

(** Truth value of a string and of a list. *)
Definition str_truthy (s : string) : bool := negb (bool_decide (s = "")).
Definition list_truthy {A} (l : list A) : bool :=
  match l with [] => false | _ :: _ => true end.

(** [max(xs)] and [min(xs)] of a non-empty list of ints. *)
Definition max_of (x : Z) (xs : list Z) : Z := fold_left Z.max xs x.
Definition min_of (x : Z) (xs : list Z) : Z := fold_left Z.min xs x.

(** [s.split(sep)] for a non-empty separator; [skip] characters of a
    separator just found remain to be passed over. *)
Fixpoint split_on_from (sep : string) (skip : nat) (cur : string) (s : string)
    : list string :=
  match s with
  | EmptyString => [cur]
  | String c t =>
      match skip with
      | S k => split_on_from sep k cur t
      | O =>
          if String.prefix sep s
          then cur :: split_on_from sep (String.length sep - 1) "" t
          else split_on_from sep 0 (cur +:+ String c "") t
      end
  end.

Definition split_on (sep : string) (s : string) : list string :=
  split_on_from sep 0 "" s.

(** Truth value of [s.strip()]: some character is not a space. *)
Definition strip_truthy (s : string) : bool :=
  existsb (fun c => negb (isspace c)) (String.list_ascii_of_string s).

(** [re.findall(pattern, s)] for a pattern without special characters:
    the occurrences from left to right, none overlapping another. *)
Fixpoint findall_from (pattern : string) (skip : nat) (s : string) : list string :=
  match s with
  | EmptyString => []
  | String c t =>
      match skip with
      | S k => findall_from pattern k t
      | O =>
          if String.prefix pattern s
          then pattern :: findall_from pattern (String.length pattern - 1) t
          else findall_from pattern 0 t
      end
  end.

Definition findall (pattern : string) (s : string) : list string :=
  findall_from pattern 0 s.

(** [Path(p).name] for a path that does not end in a slash: the text
    after the last slash. *)
Fixpoint path_name_from (cur : string) (p : string) : string :=
  match p with
  | EmptyString => cur
  | String c t =>
      if bool_decide (c = "/"%char) then path_name_from "" t
      else path_name_from (cur +:+ String c "") t
  end.

Definition path_name (p : string) : string := path_name_from "" p.

(** [xs[::step]] for [step >= 1]; [skip] items remain to be passed over
    before the next one is taken. *)
Fixpoint slice_from {A} (step skip : nat) (xs : list A) : list A :=
  match xs with
  | [] => []
  | x :: rest =>
      match skip with
      | O => x :: slice_from step (step - 1) rest
      | S k => slice_from step k rest
      end
  end.

Definition slice_step {A} (step : nat) (xs : list A) : list A :=
  slice_from step 0 xs.

End Py.

Import Py.

(** ** Configuration *)

(** [class Config], the processing limits read from the process
    environment when the module is loaded. *)
Record Config := {
  MAX_VIDEO_DURATION : Z;
  FRAME_SAMPLE_RATE : Z;
  MAX_IMAGE_SIZE : Z * Z
}.

(** The values of a process started with no override. *)
Definition default_config : Config :=
  {| MAX_VIDEO_DURATION := 300; FRAME_SAMPLE_RATE := 1;
     MAX_IMAGE_SIZE := (1920, 1080)%Z |}.

(** ** Signals *)

(** The likelihood enum of the vision service. *)
Inductive Likelihood :=
| UNKNOWN | VERY_UNLIKELY | UNLIKELY | POSSIBLE | LIKELY | VERY_LIKELY.

Definition likelihood_name (l : Likelihood) : string :=
  match l with
  | UNKNOWN => "UNKNOWN"
  | VERY_UNLIKELY => "VERY_UNLIKELY"
  | UNLIKELY => "UNLIKELY"
  | POSSIBLE => "POSSIBLE"
  | LIKELY => "LIKELY"
  | VERY_LIKELY => "VERY_LIKELY"
  end.

(** A face annotation as the vision client returns it. *)
Record FaceAnnotation := {
  fa_detection_confidence : Q;
  fa_joy : Likelihood;
  fa_anger : Likelihood;
  fa_surprise : Likelihood;
  fa_under_exposed : Likelihood;
  fa_blurred : Likelihood;
  fa_headwear : Likelihood
}.

(** The dict built by [_process_face_annotation]: the likelihoods are kept
    by name. *)
Record Face := {
  detection_confidence : Q;
  joy_likelihood : string;
  anger_likelihood : string;
  surprise_likelihood : string;
  under_exposed_likelihood : string;
  blurred_likelihood : string;
  headwear_likelihood : string
}.

Record SafeSearchAnnotation := {
  sa_adult : Likelihood; sa_spoof : Likelihood; sa_medical : Likelihood;
  sa_violence : Likelihood; sa_racy : Likelihood
}.

Record SafeSearch := {
  adult : string; spoof : string; medical : string;
  violence : string; racy : string
}.

Record Label := { description : string; label_score : Q }.
Record LocalizedObject := { object_name : string; object_score : Q }.

Record VisionResults := {
  labels : list Label;
  faces : list Face;
  ocr_text : string;
  safe_search : SafeSearch;
  objects : list LocalizedObject
}.

Record ImageInfo := {
  image_width : Z; image_height : Z; image_format : string; image_mode : string
}.

(** One entry of [frame_results] in [process_video]. *)
Record FrameResult := {
  frame : string;
  frame_faces : list Face;
  frame_labels : list Label
}.

(** The dict returned by [_get_video_info]. [fps] is whatever [eval]
    returned and [codec] whatever ffprobe printed. *)
Record VideoInfo := {
  duration : Q;
  size : Z;
  width : Z;
  height : Z;
  fps : value;
  codec : value
}.

Record TextStats := {
  char_count : Z;
  word_count : Z;
  sentence_count : Z;
  paragraph_count : Z
}.

(** ** Explanations *)

(** The entries of [primary_factors]. Each constructor stands for one
    message of the source; the arguments are the values that the message
    formats. *)
Inductive Factor :=
| LowFaceDetectionConfidence      (* "Low face detection confidence" *)
| BlurredFacesDetected (n : nat)  (* f"{n} blurred faces detected" *)
| PotentialSpoofing               (* "Potential spoofing detected" *)
| ArtificialContent (ds : list string)
                                  (* f"Artificial content indicators: {ds}" *)
| InconsistentFaceDetection       (* "Inconsistent face detection across frames" *)
| LowAverageFaceConfidence        (* "Low average face detection confidence" *)
| AISpeechPatterns                (* "AI-generated speech patterns detected" *)
| LowResolutionVideo              (* "Low resolution video" *)
| AIPatternsFound (ms : list string)
                                  (* f"AI-generated patterns found: {ms}" *)
| LongSentences                   (* "Unusually long sentences" *)
| ShortSentences                  (* "Unusually short sentences" *)
| HighWordRepetition.             (* "High word repetition detected" *)

Record ImageExplanation := {
  image_primary_factors : list Factor;
  face_count : Z;
  artificial_labels : Z;
  image_quality : string
}.

Record VideoExplanation := {
  video_primary_factors : list Factor;
  frame_count_analyzed : Z;
  transcript_length : Z;
  video_duration : Q
}.

Record TextExplanation := {
  text_primary_factors : list Factor;
  text_length : Z;
  ai_patterns_count : Z;
  structure_analysis : string
}.

(** ** Results *)

(** The response of the vision service to one annotate request. *)
Record AnnotateResponse := {
  label_annotations : list Label;
  face_annotations : list FaceAnnotation;
  full_text_annotation : option string;
  safe_search_annotation : SafeSearchAnnotation;
  localized_object_annotations : list LocalizedObject
}.

(** The dict that a pipeline returns, and the dict that the failure
    handler of [process_job] builds. *)
Inductive Results :=
| ImageResults (credibility_score : Q) (explanation : ImageExplanation)
    (vision_results : VisionResults) (image_info : ImageInfo)
| VideoResults (credibility_score : Q) (explanation : VideoExplanation)
    (video_info : VideoInfo) (frame_analysis : list FrameResult)
    (transcript : string)
| TextResults (credibility_score : Q) (explanation : TextExplanation)
    (text_stats : TextStats) (ai_patterns_found : list string)
    (content_preview : string)
| ErrorResults (error : message).

(** The value of the [explanation] key. *)
Inductive Explanation :=
| ExplainImage (e : ImageExplanation)
| ExplainVideo (e : VideoExplanation)
| ExplainText (e : TextExplanation)
| ExplainError (error : message) (status : string).

(** [results.get("credibility_score")]: [None] for the error dict. *)
Definition results_credibility_score (r : Results) : option Q :=
  match r with
  | ImageResults s _ _ _ | VideoResults s _ _ _ _ | TextResults s _ _ _ _ => Some s
  | ErrorResults _ => None
  end.

(** [results.get("explanation", {})] *)
Definition results_explanation (r : Results) : Explanation :=
  match r with
  | ImageResults _ e _ _ => ExplainImage e
  | VideoResults _ e _ _ _ => ExplainVideo e
  | TextResults _ e _ _ _ => ExplainText e
  | ErrorResults error => ExplainError error "failed"
  end.

(** [results.get("artifacts", {})]: no dict above has the key. *)
Definition results_artifacts (r : Results) : list (string * value) := [].

(** ** Environment and effects *)

(** What the world outside the process answers. A [result] is the value
    returned by the call or the exception it raises. *)
Record Env := {
  (* pure library functions whose text format is not modelled *)
  json_loads : string -> option value;        (* None: JSONDecodeError *)
  float_of_string : string -> option Q;       (* None: ValueError *)
  int_of_string : string -> option Z;         (* None: ValueError *)
  eval_other : string -> result value;
  uuid_of_string : string -> option N;        (* None: ValueError *)
  (* the temporary directory made for a job, and the download into it *)
  temp_dir_of : value -> string;
  download : value -> string -> result string;
  (* the creation of the directory for the frames *)
  mkdir : string -> result ();
  (* subprocesses: ffprobe's stdout; the sorted frame files; the audio file *)
  ffprobe : string -> result string;
  ffmpeg_frames : string -> string -> result (list string);
  ffmpeg_audio : string -> string -> result ();
  audio_size : string -> option Z;            (* None: no such file *)
  (* files and services *)
  open_image : string -> result ImageInfo;
  annotate_image : string -> result AnnotateResponse;
  annotate_frame : string -> result AnnotateResponse;
  recognize : string -> result (list string);
  read_text : string -> result string;
  (* the n-th reading of the clock and the n-th random UUID *)
  utcnow : nat -> nat;
  uuid4 : nat -> N
}.

(** The calls of [MediaProcessor] that leave the process. *)
Inductive IOEvent :=
| Download (uri : value)
| Ffprobe (path : string)
| Mkdir (path : string)
| FfmpegFrames (path : string)
| FfmpegAudio (path : string)
| OpenImage (path : string)
| AnnotateImage (path : string)
| AnnotateFrame (path : string)
| Recognize (path : string)
| ReadText (path : string).

(** State and exceptions. *)
Definition ST (S A : Type) : Type := S -> result A * S.

Definition ret {S A} (a : A) : ST S A := fun s => (Ok a, s).

Definition raise {S A} (e : exn) : ST S A := fun s => (Raise e, s).

Definition bind {S A B} (m : ST S A) (k : A -> ST S B) : ST S B :=
  fun s =>
    match m s with
    | (Ok a, s') => k a s'
    | (Raise e, s') => (Raise e, s')
    end.

Definition lift {S A} (r : result A) : ST S A := fun s => (r, s).

(** [try: body / except classes: handler]; [catches] selects the
    exceptions that the clause names. *)
Definition try_except {S A} (body : ST S A) (catches : exn -> bool)
    (handler : exn -> ST S A) : ST S A :=
  fun s =>
    match body s with
    | (Ok a, s') => (Ok a, s')
    | (Raise e, s') => if catches e then handler e s' else (Raise e, s')
    end.

(** [for x in xs: ys.append(f(x))] *)
Fixpoint for_each {S A B} (f : A -> ST S B) (xs : list A) : ST S (list B) :=
  match xs with
  | [] => ret []
  | x :: rest => bind (f x) (fun y => bind (for_each f rest) (fun ys => ret (y :: ys)))
  end.

Notation "x <- m ;; k" := (bind m (fun x => k))
  (at level 100, m at next level, right associativity).
Notation "x <-? m ;; k" := (result_bind m (fun x => k))
  (at level 100, m at next level, right associativity).

(** The processor's state is the trace of its outside calls. *)
Definition P (A : Type) : Type := ST (list IOEvent) A.

Definition call {A} (ev : IOEvent) (outcome : result A) : P A :=
  fun tr => (outcome, tr ++ [ev]).

(** ** The media processor *)

Module MediaProcessor.

Definition _process_face_annotation (face : FaceAnnotation) : Face :=
  {| detection_confidence := fa_detection_confidence face;
     joy_likelihood := likelihood_name (fa_joy face);
     anger_likelihood := likelihood_name (fa_anger face);
     surprise_likelihood := likelihood_name (fa_surprise face);
     under_exposed_likelihood := likelihood_name (fa_under_exposed face);
     blurred_likelihood := likelihood_name (fa_blurred face);
     headwear_likelihood := likelihood_name (fa_headwear face) |}.

Definition _process_safe_search (s : SafeSearchAnnotation) : SafeSearch :=
  {| adult := likelihood_name (sa_adult s);
     spoof := likelihood_name (sa_spoof s);
     medical := likelihood_name (sa_medical s);
     violence := likelihood_name (sa_violence s);
     racy := likelihood_name (sa_racy s) |}.

(** *** Scoring

    Every scoring function keeps a running pair [(score, factors)]. A
    triggered rule executes [score -= p; factors.append(f)]. *)

Definition acc : Type := Q * list Factor.

Definition penalise (p : Q) (f : Factor) (a : acc) : acc :=
  ((fst a - p)%Q, snd a ++ [f]).

Definition clamp (score : Q) : Q := py_max 0.0 (py_min 1.0 score).

(** [sum(f["detection_confidence"] for f in faces) / len(faces)] *)
Definition avg_confidence (fs : list Face) : Q :=
  (py_sum (map detection_confidence fs) / float_of_nat (length fs))%Q.

(** [sum(1 for f in faces if "LIKELY" in f.get("blurred_likelihood", ""))] *)
Definition blurred_faces (fs : list Face) : nat :=
  length (filter (fun f => Is_true (contains "LIKELY" (blurred_likelihood f))) fs).

Definition artificial_terms : list string :=
  ["artificial"; "synthetic"; "generated"; "fake"; "computer"].

Definition is_artificial (l : Label) : bool :=
  existsb (fun term => contains term (lower (description l))) artificial_terms.

Definition artificial_labels_of (ls : list Label) : list Label :=
  filter (fun l => Is_true (is_artificial l)) ls.

(** The face block of image scoring. *)
Definition image_faces (fs : list Face) (a : acc) : acc :=
  if list_truthy fs then
    let a :=
      if Qltb (avg_confidence fs) 0.7
      then penalise 0.3 LowFaceDetectionConfidence a else a in
    let blurred := blurred_faces fs in
    if (0 <? blurred)%nat
    then penalise 0.2 (BlurredFacesDetected blurred) a else a
  else a.

(** [safe_search.get("spoof") in ["LIKELY", "VERY_LIKELY"]] *)
Definition spoof_flagged (s : SafeSearch) : bool :=
  bool_decide (spoof s ∈ ["LIKELY"; "VERY_LIKELY"]).

Definition image_spoof (s : SafeSearch) (a : acc) : acc :=
  if spoof_flagged s then penalise 0.4 PotentialSpoofing a else a.

Definition image_labels (ls : list Label) (a : acc) : acc :=
  let arts := artificial_labels_of ls in
  if list_truthy arts
  then penalise 0.3 (ArtificialContent (map description arts)) a else a.

(** [score] and [factors] of image scoring just before the clamp. *)
Definition image_penalties (vision_results : VisionResults) : acc :=
  image_labels (labels vision_results)
    (image_spoof (safe_search vision_results)
       (image_faces (faces vision_results) (0.8%Q, []))).

Definition _calculate_image_credibility
    (vision_results : VisionResults) (image_info : ImageInfo)
    : Q * ImageExplanation :=
  let '(score, factors) := image_penalties vision_results in
  let score := clamp score in
  let explanation :=
    {| image_primary_factors := factors;
       face_count := Z.of_nat (length (faces vision_results));
       artificial_labels :=
         Z.of_nat (length (artificial_labels_of (labels vision_results)));
       image_quality :=
         if (1000 <? image_width image_info)%Z then "high" else "medium" |} in
  (score, explanation).

(** The face block of video scoring. *)
Definition video_faces (frame_results : list FrameResult) (a : acc) : acc :=
  let face_counts :=
    map (fun fr => Z.of_nat (length (frame_faces fr))) frame_results in
  match face_counts with
  | [] => a
  | c :: cs =>
      let face_variance := (max_of c cs - min_of c cs)%Z in
      let a :=
        if (2 <? face_variance)%Z
        then penalise 0.2 InconsistentFaceDetection a else a in
      let all_faces := concat (map frame_faces frame_results) in
      if list_truthy all_faces then
        if Qltb (avg_confidence all_faces) 0.6
        then penalise 0.3 LowAverageFaceConfidence a else a
      else a
  end.

Definition ai_phrases : list string :=
  ["as an ai"; "i cannot"; "i don't have personal"].

Definition video_transcript (transcript : string) (a : acc) : acc :=
  if str_truthy transcript then
    if existsb (fun phrase => contains phrase (lower transcript)) ai_phrases
    then penalise 0.4 AISpeechPatterns a else a
  else a.

Definition video_quality (video_info : VideoInfo) (a : acc) : acc :=
  if (width video_info <? 720)%Z
  then penalise 0.1 LowResolutionVideo a else a.

Definition video_penalties
    (frame_results : list FrameResult) (transcript : string)
    (video_info : VideoInfo) : acc :=
  video_quality video_info
    (video_transcript transcript
       (video_faces frame_results (0.75%Q, []))).

Definition _calculate_video_credibility
    (frame_results : list FrameResult) (transcript : string)
    (video_info : VideoInfo) : Q * VideoExplanation :=
  let '(score, factors) := video_penalties frame_results transcript video_info in
  let score := clamp score in
  let explanation :=
    {| video_primary_factors := factors;
       frame_count_analyzed := Z.of_nat (length frame_results);
       transcript_length :=
         if str_truthy transcript
         then Z.of_nat (length (split transcript)) else 0%Z;
       video_duration := duration video_info |} in
  (score, explanation).

(** [min(0.6, len(ai_patterns) * 0.2)] *)
Definition ai_pattern_penalty (ai_patterns : list string) : Q :=
  py_min 0.6 (float_of_nat (length ai_patterns) * 0.2)%Q.

Definition text_patterns (ai_patterns : list string) (a : acc) : acc :=
  if list_truthy ai_patterns
  then penalise (ai_pattern_penalty ai_patterns) (AIPatternsFound ai_patterns) a
  else a.

(** [stats["word_count"] / max(1, stats["sentence_count"])] *)
Definition avg_sentence_length (stats : TextStats) : Q :=
  (inject_Z (word_count stats) / inject_Z (Z.max 1 (sentence_count stats)))%Q.

Definition text_structure (stats : TextStats) (a : acc) : acc :=
  if (0 <? word_count stats)%Z then
    let avg := avg_sentence_length stats in
    if Qltb 30 avg then penalise 0.1 LongSentences a
    else if Qltb avg 5 then penalise 0.1 ShortSentences a
    else a
  else a.

(** [len(set(words)) / len(words)] *)
Definition repetition_ratio (words : list string) : Q :=
  (float_of_nat (length (remove_dups words)) / float_of_nat (length words))%Q.

Definition text_repetition (text : string) (a : acc) : acc :=
  let words := split (lower text) in
  if (10 <? length words)%nat then
    if Qltb (repetition_ratio words) 0.3
    then penalise 0.2 HighWordRepetition a else a
  else a.

Definition text_penalties
    (text : string) (stats : TextStats) (ai_patterns : list string) : acc :=
  text_repetition text
    (text_structure stats
       (text_patterns ai_patterns (0.9%Q, []))).

Definition _calculate_text_credibility
    (text : string) (stats : TextStats) (ai_patterns : list string)
    : Q * TextExplanation :=
  let '(score, factors) := text_penalties text stats ai_patterns in
  let score := clamp score in
  let explanation :=
    {| text_primary_factors := factors;
       text_length := word_count stats;
       ai_patterns_count := Z.of_nat (length ai_patterns);
       structure_analysis :=
         if list_truthy factors then "suspicious" else "normal" |} in
  (score, explanation).

(** *** Pipelines *)

Section Pipelines.

Context (config : Config) (E : Env).

Definition _download_file (gcs_uri : value) (temp_dir : string) : P string :=
  call (Download gcs_uri) (download E gcs_uri temp_dir).

(** The first stream whose [codec_type] is ["video"], or [{}]. *)
Fixpoint first_video_stream (streams : list value) : result value :=
  match streams with
  | [] => Ok (VDict [])
  | s :: rest =>
      ct <-? getitem s "codec_type";;
      if eq_str ct "video" then Ok s else first_video_stream rest
  end.

(** What [_get_video_info] makes of the text that ffprobe printed. *)
Definition read_video_info (stdout : string) : result VideoInfo :=
  info <-? match json_loads E stdout with
           | Some v => Ok v
           | None => Raise (Exn JSONDecodeError InterpreterText)
           end;;
  streams <-? getitem info "streams";;
  items <-? iter streams;;
  video_stream <-? first_video_stream items;;
  fmt <-? getitem info "format";;
  d <-? get fmt "duration" (VInt 0);;
  duration <-? float (float_of_string E) d;;
  fmt <-? getitem info "format";;
  sz <-? get fmt "size" (VInt 0);;
  size <-? int (int_of_string E) sz;;
  w <-? get video_stream "width" (VInt 0);;
  width <-? int (int_of_string E) w;;
  h <-? get video_stream "height" (VInt 0);;
  height <-? int (int_of_string E) h;;
  r <-? get video_stream "r_frame_rate" (VStr "0/1");;
  fps <-? eval (eval_other E) r;;
  codec <-? get video_stream "codec_name" (VStr "unknown");;
  Ok {| duration := duration; size := size; width := width;
        height := height; fps := fps; codec := codec |}.

Definition zeroed_video_info : VideoInfo :=
  {| duration := 0; size := 0; width := 0; height := 0;
     fps := VInt 0; codec := VStr "unknown" |}.

(** The [try] body of [_get_video_info]. *)
Definition probe_video (video_path : string) : P VideoInfo :=
  stdout <- call (Ffprobe video_path) (ffprobe E video_path);;
  lift (read_video_info stdout).

Definition probe_errors : list exn_class :=
  [CalledProcessError; JSONDecodeError; KeyError].

Definition _get_video_info (video_path : string) : P VideoInfo :=
  try_except
    (probe_video video_path)
    (fun e => isinstance e probe_errors)
    (fun e => ret zeroed_video_info).

Definition _extract_frames (video_path output_dir : string) : P (list string) :=
  try_except
    (call (FfmpegFrames video_path) (ffmpeg_frames E video_path output_dir))
    (fun e => isinstance e [CalledProcessError])
    (fun e => ret []).

Definition _extract_audio (video_path audio_path : string) : P () :=
  try_except
    (call (FfmpegAudio video_path) (ffmpeg_audio E video_path audio_path))
    (fun e => isinstance e [CalledProcessError])
    (fun e => ret ()).

Definition _transcribe_audio (audio_path : string) : P string :=
  try_except
    (results <- call (Recognize audio_path) (recognize E audio_path);;
     ret (String.concat " " results))
    (fun e => true)
    (fun e => ret "").

Definition vision_results_of (response : AnnotateResponse) : VisionResults :=
  {| labels := label_annotations response;
     faces := map _process_face_annotation (face_annotations response);
     ocr_text := default "" (full_text_annotation response);
     safe_search := _process_safe_search (safe_search_annotation response);
     objects := localized_object_annotations response |}.

Definition process_image (job : value) : P Results :=
  _ <- lift (getitem job "analysis_id");;
  uri <- lift (getitem job "input_uri");;
  local_path <- _download_file uri (temp_dir_of E job);;
  image_info <- call (OpenImage local_path) (open_image E local_path);;
  response <- call (AnnotateImage local_path) (annotate_image E local_path);;
  let vision_results := vision_results_of response in
  let '(credibility_score, explanation) :=
    _calculate_image_credibility vision_results image_info in
  ret (ImageResults credibility_score explanation vision_results image_info).

(** [frame_paths[::max(1, len(frame_paths) // 10)]] *)
Definition sample_frames {A} (frame_paths : list A) : list A :=
  slice_step (Nat.max 1 (length frame_paths / 10)) frame_paths.

(** The body of the loop over the sampled frames. *)
Definition analyse_frame (frame_path : string) : P FrameResult :=
  response <- call (AnnotateFrame frame_path) (annotate_frame E frame_path);;
  ret {| frame := path_name frame_path;
         frame_faces := map _process_face_annotation (face_annotations response);
         frame_labels := label_annotations response |}.

Definition process_video (job : value) : P Results :=
  _ <- lift (getitem job "analysis_id");;
  uri <- lift (getitem job "input_uri");;
  let temp_dir := temp_dir_of E job in
  local_path <- _download_file uri temp_dir;;
  video_info <- _get_video_info local_path;;
  if Qltb (inject_Z (MAX_VIDEO_DURATION config)) (duration video_info)
  then raise (Exn ValueError
                (VideoTooLong (duration video_info) (MAX_VIDEO_DURATION config)))
  else
    let frames_dir := temp_dir +:+ "/frames" in
    _ <- call (Mkdir frames_dir) (mkdir E frames_dir);;
    frame_paths <- _extract_frames local_path frames_dir;;
    let audio_path := temp_dir +:+ "/audio.wav" in
    _ <- _extract_audio local_path audio_path;;
    frame_results <- for_each analyse_frame (sample_frames frame_paths);;
    transcript <-
      match audio_size E audio_path with
      | Some n => if (0 <? n)%Z then _transcribe_audio audio_path else ret ""
      | None => ret ""
      end;;
    let '(credibility_score, explanation) :=
      _calculate_video_credibility frame_results transcript video_info in
    ret (VideoResults credibility_score explanation video_info
           frame_results transcript).

Definition text_stats_of (text_content : string) : TextStats :=
  {| char_count := Z.of_nat (String.length text_content);
     word_count := Z.of_nat (length (split text_content));
     sentence_count :=
       Z.of_nat (length (filter (fun s => Is_true (strip_truthy s))
                           (split_on "." text_content)));
     paragraph_count :=
       Z.of_nat (length (filter (fun p => Is_true (strip_truthy p))
                           (split_on (String "010" (String "010" ""))
                              text_content))) |}.

Definition ai_patterns : list string :=
  ["as an ai"; "i don't have personal"; "i cannot provide";
   "as a language model"; "i'm not able to"; "i don't have the ability";
   "as an artificial intelligence"].

(** The loop that extends [pattern_matches] with the matches of every
    pattern. *)
Definition pattern_matches_of (text_content : string) : list string :=
  concat (map (fun pattern => findall pattern (lower text_content)) ai_patterns).

Definition content_preview_of (text_content : string) : string :=
  if (500 <? String.length text_content)%nat
  then String.substring 0 500 text_content +:+ "..."
  else text_content.

Definition process_text (job : value) : P Results :=
  _ <- lift (getitem job "analysis_id");;
  uri <- lift (getitem job "input_uri");;
  local_path <- _download_file uri (temp_dir_of E job);;
  text_content <- call (ReadText local_path) (read_text E local_path);;
  let text_stats := text_stats_of text_content in
  let pattern_matches := pattern_matches_of text_content in
  let '(credibility_score, explanation) :=
    _calculate_text_credibility text_content text_stats pattern_matches in
  ret (TextResults credibility_score explanation text_stats pattern_matches
         (content_preview_of text_content)).

End Pipelines.

End MediaProcessor.

(** ** The worker *)

Module Worker.

(** A row of [analyses]; the API inserts it with status ["queued"]. *)
Record AnalysisRow := {
  user_id : N;
  input_type : string;
  input_uri : string;
  status : string;
  created_at : nat;
  finished_at : option nat
}.

(** A row of [analysis_reports]. The two JSON columns keep the dumped
    value. *)
Record ReportRow := {
  id : N;
  analysis_id : N;
  credibility_score : option Q;
  explanation : Explanation;
  artifacts : list (string * value);
  version : string;
  report_created_at : nat
}.

(** What the worker does that can be observed from outside. *)
Inductive Event :=
| IO (ev : IOEvent)
| StatusUpdate (id : N) (status : string)   (* the UPDATE was executed *)
| ReportUpsert (analysis_id : N)            (* the INSERT was executed *)
| Sleep (seconds : nat).

Record World := {
  analyses : gmap N AnalysisRow;
  analysis_reports : list ReportRow;
  trace : list Event;
  clock_reads : nat;
  uuid_draws : nat
}.

Definition M (A : Type) : Type := ST World A.

Definition emit (ev : Event) (w : World) : World :=
  {| analyses := analyses w; analysis_reports := analysis_reports w;
     trace := trace w ++ [ev];
     clock_reads := clock_reads w; uuid_draws := uuid_draws w |}.

(** [UPDATE analyses SET status = $1, finished_at = $2 WHERE id = $3] *)
Definition update_analyses (st : string) (fin : option nat) (key : N)
    (w : World) : World :=
  {| analyses :=
       alter (fun r =>
                {| user_id := user_id r; input_type := input_type r;
                   input_uri := input_uri r; status := st;
                   created_at := created_at r; finished_at := fin |})
             key (analyses w);
     analysis_reports := analysis_reports w;
     trace := trace w;
     clock_reads := clock_reads w; uuid_draws := uuid_draws w |}.

(** [INSERT ... ON CONFLICT (analysis_id) DO UPDATE SET] the score, the
    explanation, the artifacts and the version. *)
Definition on_conflict (r new : ReportRow) : ReportRow :=
  {| id := id r; analysis_id := analysis_id r;
     credibility_score := credibility_score new;
     explanation := explanation new;
     artifacts := artifacts new;
     version := version new;
     report_created_at := report_created_at r |}.

Fixpoint upsert (new : ReportRow) (rows : list ReportRow) : list ReportRow :=
  match rows with
  | [] => [new]
  | r :: rest =>
      if (analysis_id r =? analysis_id new)%N
      then on_conflict r new :: rest
      else r :: upsert new rest
  end.

Definition upsert_report (new : ReportRow) (w : World) : World :=
  {| analyses := analyses w;
     analysis_reports := upsert new (analysis_reports w);
     trace := trace w;
     clock_reads := clock_reads w; uuid_draws := uuid_draws w |}.

Section Consumer.

Context (config : Config) (E : Env).

(** [datetime.utcnow()] and [uuid.uuid4()] *)
Definition now : M nat :=
  fun w =>
    (Ok (utcnow E (clock_reads w)),
     {| analyses := analyses w; analysis_reports := analysis_reports w;
        trace := trace w;
        clock_reads := S (clock_reads w); uuid_draws := uuid_draws w |}).

Definition fresh_uuid : M N :=
  fun w =>
    (Ok (uuid4 E (uuid_draws w)),
     {| analyses := analyses w; analysis_reports := analysis_reports w;
        trace := trace w;
        clock_reads := clock_reads w; uuid_draws := S (uuid_draws w) |}).

(** [uuid.UUID(v)] *)
Definition UUID (v : value) : result N :=
  match v with
  | VStr s =>
      match uuid_of_string E s with
      | Some n => Ok n
      | None => Raise (Exn ValueError (Msg "badly formed hexadecimal UUID string"))
      end
  | VNone => Raise (Exn TypeError InterpreterText)
  | _ => Raise (Exn AttributeError InterpreterText)
  end.

(** A pipeline runs on its own trace, which joins the worker's. *)
Definition run {A} (p : P A) : M A :=
  fun w =>
    let '(r, tr) := p [] in
    (r, {| analyses := analyses w; analysis_reports := analysis_reports w;
           trace := trace w ++ map IO tr;
           clock_reads := clock_reads w; uuid_draws := uuid_draws w |}).

Definition _update_analysis_status (analysis_id : value) (status : string)
    : M () :=
  finished_at <-
    (if bool_decide (status ∈ ["done"; "failed"])
     then (t <- now;; ret (Some t)) else ret None);;
  key <- lift (UUID analysis_id);;
  fun w => (Ok (), emit (StatusUpdate key status)
                     (update_analyses status finished_at key w)).

Definition _store_results (analysis_id : value) (results : Results) : M () :=
  new_id <- fresh_uuid;;
  key <- lift (UUID analysis_id);;
  t <- now;;
  let row :=
    {| id := new_id; analysis_id := key;
       credibility_score := results_credibility_score results;
       explanation := results_explanation results;
       artifacts := results_artifacts results;
       version := "v1.0";
       report_created_at := t |} in
  fun w => (Ok (), emit (ReportUpsert key) (upsert_report row w)).

(** The [if/elif/else] on the input type. *)
Definition dispatch (input_type : value) (job : value) : M Results :=
  if eq_str input_type "image"
  then run (MediaProcessor.process_image E job)
  else if eq_str input_type "video"
  then run (MediaProcessor.process_video config E job)
  else if eq_str input_type "text"
  then run (MediaProcessor.process_text E job)
  else raise (Exn ValueError (UnsupportedInputType input_type)).

Definition process_job (job : value) : M () :=
  analysis_id <- lift (getitem job "analysis_id");;
  input_type <- lift (getitem job "input_type");;
  try_except
    (_ <- _update_analysis_status analysis_id "processing";;
     results <- dispatch input_type job;;
     _ <- _store_results analysis_id results;;
     _update_analysis_status analysis_id "done")
    (fun e => true)
    (fun e =>
       _ <- _update_analysis_status analysis_id "failed";;
       _store_results analysis_id (ErrorResults (exn_str e))).

(** What one [blpop] gives: nothing within the timeout, an item, an
    exception of the queue client, or the interrupt of the operator. *)
Inductive Dequeue :=
| Timeout
| Item (payload : string)
| DequeueError (e : exn)
| KeyboardInterrupt.

Inductive Loop := Running | Stopped.

(** One turn of the [while True] loop of [start]. *)
Definition iteration (d : Dequeue) (w : World) : Loop * World :=
  match d with
  | Timeout => (Running, emit (Sleep 1) w)
  | Item payload =>
      match json_loads E payload with
      | None => (Running, emit (Sleep 5) w)
      | Some job =>
          match process_job job w with
          | (Ok _, w') => (Running, w')
          | (Raise e, w') => (Running, emit (Sleep 5) w')
          end
      end
  | DequeueError e => (Running, emit (Sleep 5) w)
  | KeyboardInterrupt => (Stopped, w)
  end.

(** The loop of [start] over the answers of the queue, in order. *)
Fixpoint start (queue : list Dequeue) (w : World) : Loop * World :=
  match queue with
  | [] => (Running, w)
  | d :: rest =>
      match iteration d w with
      | (Running, w') => start rest w'
      | (Stopped, w') => (Stopped, w')
      end
  end.

End Consumer.

End Worker.

(** ** Specification vocabulary *)

(** The rule tables of the scoring engine: the weight that belongs to each
    factor description. *)
Definition spec_penalty (f : Factor) : Q :=
  match f with
  | LowFaceDetectionConfidence => 0.3
  | BlurredFacesDetected _ => 0.2
  | PotentialSpoofing => 0.4
  | ArtificialContent _ => 0.3
  | InconsistentFaceDetection => 0.2
  | LowAverageFaceConfidence => 0.3
  | AISpeechPatterns => 0.4
  | LowResolutionVideo => 0.1
  | AIPatternsFound ms => py_min 0.6 (float_of_nat (length ms) * 0.2)
  | LongSentences => 0.1
  | ShortSentences => 0.1
  | HighWordRepetition => 0.2
  end%Q.

Definition total_penalty (factors : list Factor) : Q :=
  py_sum (map spec_penalty factors).

(** A running pair accounts for its factors when the score is the base
    minus the weights of exactly the listed factors, each of which took
    something away. *)
Definition accounted (base : Q) (a : MediaProcessor.acc) : Prop :=
  (fst a == base - total_penalty (snd a))%Q
  /\ Forall (fun f => (0 < spec_penalty f)%Q) (snd a).

(** A returned score with its factor list: the score lies in [0, 1] and is
    the clamp of a raw score that accounts for the factors. *)
Definition scored (base : Q) (score : Q) (factors : list Factor) : Prop :=
  (0 <= score <= 1)%Q
  /\ exists raw, score = MediaProcessor.clamp raw /\ accounted base (raw, factors).

(** The condition of the sentence-length rule as the code tests it. *)
Definition sentence_rule (stats : TextStats) : Prop :=
  (0 < word_count stats)%Z
  /\ ((30 < MediaProcessor.avg_sentence_length stats)%Q
      \/ (MediaProcessor.avg_sentence_length stats < 5)%Q).

(** The world after [_update_analysis_status] has executed its UPDATE for
    the row [key], and after [_store_results] has executed its INSERT. *)
Definition status_set (E : Env) (key : N) (st : string) (w : Worker.World)
    : Worker.World :=
  if bool_decide (st ∈ ["done"; "failed"])
  then Worker.emit (Worker.StatusUpdate key st)
         (Worker.update_analyses st (Some (utcnow E (Worker.clock_reads w))) key
            (snd (Worker.now E w)))
  else Worker.emit (Worker.StatusUpdate key st)
         (Worker.update_analyses st None key w).

Definition report_row (E : Env) (key : N) (results : Results) (w : Worker.World)
    : Worker.ReportRow :=
  {| Worker.id := uuid4 E (Worker.uuid_draws w);
     Worker.analysis_id := key;
     Worker.credibility_score := results_credibility_score results;
     Worker.explanation := results_explanation results;
     Worker.artifacts := results_artifacts results;
     Worker.version := "v1.0";
     Worker.report_created_at := utcnow E (Worker.clock_reads w) |}.

Definition report_stored (E : Env) (key : N) (results : Results) (w : Worker.World)
    : Worker.World :=
  Worker.emit (Worker.ReportUpsert key)
    (Worker.upsert_report (report_row E key results w)
       (snd (Worker.now E (snd (Worker.fresh_uuid E w))))).

(** The likelihoods that mean "likely or more". *)
Definition at_least_likely (l : Likelihood) : bool :=
  match l with
  | LIKELY | VERY_LIKELY => true
  | _ => false
  end.

(** The statuses that the executed UPDATEs of a trace set, in order. *)
Definition transitions (evs : list Worker.Event) : list (N * string) :=
  omap (fun ev =>
          match ev with
          | Worker.StatusUpdate key st => Some (key, st)
          | _ => None
          end) evs.

(** The row that a job's [analysis_id] names, when it names one, and the
    row that an answer of the queue is about. *)
Definition job_key (E : Env) (job : value) : option N :=
  match getitem job "analysis_id" with
  | Ok aid =>
      match Worker.UUID E aid with
      | Ok key => Some key
      | Raise _ => None
      end
  | Raise _ => None
  end.

Definition delivered_key (E : Env) (d : Worker.Dequeue) : option N :=
  match d with
  | Worker.Item payload =>
      match json_loads E payload with
      | Some job => job_key E job
      | None => None
      end
  | _ => None
  end.

(** The statuses set for one row. *)
Definition transitions_of (key : N) (evs : list Worker.Event) : list string :=
  map snd (filter (fun p => fst p = key) (transitions evs)).

(** The events of one [process_job] for the row [key]: the processing
    update, the outside calls [tr] of the pipeline, and then either the
    report and the done update or the failed update and the report. *)
Definition job_events (key : N) (tr : list IOEvent) (r : result Results)
    : list Worker.Event :=
  [Worker.StatusUpdate key "processing"] ++ map Worker.IO tr
  ++ match r with
     | Ok _ => [Worker.ReportUpsert key; Worker.StatusUpdate key "done"]
     | Raise _ => [Worker.StatusUpdate key "failed"; Worker.ReportUpsert key]
     end.

(** The life cycle of a job that the API has queued. *)
Definition lifecycle (statuses : list string) : Prop :=
  ("queued" :: statuses) `prefix_of` ["queued"; "processing"; "done"]
  \/ ("queued" :: statuses) `prefix_of` ["queued"; "processing"; "failed"].

(** Frame and audio extraction among the outside calls. *)
Definition is_extraction (ev : Worker.Event) : bool :=
  match ev with
  | Worker.IO (FfmpegFrames _) | Worker.IO (FfmpegAudio _) => true
  | _ => false
  end.

(** The rows of the report table that belong to one analysis. *)
Definition reports_of (key : N) (rows : list Worker.ReportRow) : list Worker.ReportRow :=
  filter (fun r => Worker.analysis_id r = key) rows.

(** Where an exception that leaves a pipeline comes from: a key that the
    job lacks, the download, the opening of the image, the vision service,
    the reading of the text, the probe with an exception that its handler
    does not name, the duration cap, the making of the frames directory,
    ffmpeg with an exception other than its exit with an error, or the
    rejection of the input type. The speech service is no such source,
    and neither is a failure that a sub-step handles itself. *)
Definition uncaught_source (config : Config) (E : Env) (job : value) (e : exn)
    : Prop :=
  (exists key, getitem job key = Raise e)
  \/ (exists uri, download E uri (temp_dir_of E job) = Raise e)
  \/ (exists path, open_image E path = Raise e)
  \/ (exists path, annotate_image E path = Raise e)
  \/ (exists path, read_text E path = Raise e)
  \/ (exists path tr,
        fst (MediaProcessor.probe_video E path tr) = Raise e
        /\ isinstance e MediaProcessor.probe_errors = false)
  \/ (exists d, e = Exn ValueError (VideoTooLong d (MAX_VIDEO_DURATION config)))
  \/ (exists dir, mkdir E dir = Raise e)
  \/ (exists path dir,
        ffmpeg_frames E path dir = Raise e
        /\ isinstance e [CalledProcessError] = false)
  \/ (exists path audio,
        ffmpeg_audio E path audio = Raise e
        /\ isinstance e [CalledProcessError] = false)
  \/ (exists path, annotate_frame E path = Raise e)
  \/ (exists input_type, e = Exn ValueError (UnsupportedInputType input_type)).

(** The statuses that deliveries of one job set: processing and then a
    terminal status, once for each delivery. *)
Definition rounds (terminals : list string) : list string :=
  concat (map (fun terminal => ["processing"; terminal]) terminals).

(** How often the answers of the queue deliver a job for the row [key]. *)
Definition deliveries (E : Env) (key : N) (queue : list Worker.Dequeue) : nat :=
  length (filter (fun k => k = key) (omap (delivered_key E) queue)).

(** ** Sample inputs *)

Module Sample.

Definition face_with (confidence : Q) (blurred : Likelihood) : FaceAnnotation :=
  {| fa_detection_confidence := confidence;
     fa_joy := UNLIKELY; fa_anger := VERY_UNLIKELY; fa_surprise := VERY_UNLIKELY;
     fa_under_exposed := VERY_UNLIKELY; fa_blurred := blurred;
     fa_headwear := VERY_UNLIKELY |}.

Definition calm_search : SafeSearchAnnotation :=
  {| sa_adult := VERY_UNLIKELY; sa_spoof := VERY_UNLIKELY;
     sa_medical := VERY_UNLIKELY; sa_violence := VERY_UNLIKELY;
     sa_racy := VERY_UNLIKELY |}.

Definition response_with (fs : list FaceAnnotation) (ls : list Label)
    : AnnotateResponse :=
  {| label_annotations := ls; face_annotations := fs;
     full_text_annotation := None;
     safe_search_annotation := calm_search;
     localized_object_annotations := [] |}.

Definition photo_info : ImageInfo :=
  {| image_width := 1280; image_height := 720;
     image_format := "JPEG"; image_mode := "RGB" |}.

(** A sharp portrait: one face found with confidence 0.9 whose blur
    likelihood is UNLIKELY. *)
Definition sharp_portrait : VisionResults :=
  MediaProcessor.vision_results_of (response_with [face_with 0.9 UNLIKELY] []).

(** A landscape: no face, one harmless label. *)
Definition landscape : VisionResults :=
  MediaProcessor.vision_results_of
    (response_with [] [{| description := "Mountain"; label_score := 0.97 |}]).

(** The statistics of the empty text. *)
Definition empty_stats : TextStats :=
  {| char_count := 0; word_count := 0; sentence_count := 0;
     paragraph_count := 0 |}.

(** A video job as the API enqueues it. *)
Definition job_id : string := "3f2b8c1e-5d47-4e0a-9b6c-7a1d2e3f4a5b".

Definition video_job : value :=
  VDict [("analysis_id", VStr job_id);
         ("user_id", VStr "0b9d6c2a-1e4f-4c3b-8a7d-5f6e7d8c9b0a");
         ("input_uri", VStr "gs://pi-shield-uploads/u/a/clip.mp4");
         ("input_type", VStr "video");
         ("filename", VStr "clip.mp4");
         ("created_at", VStr "2024-05-01T10:00:00")].

(** What ffprobe reports for a clip with one audio and one video stream. *)
Definition ffprobe_report (duration_text rate : string) : value :=
  VDict [("streams",
          VList [VDict [("codec_type", VStr "audio"); ("codec_name", VStr "aac")];
                 VDict [("codec_type", VStr "video"); ("codec_name", VStr "h264");
                        ("width", VInt 1280); ("height", VInt 720);
                        ("r_frame_rate", VStr rate)]]);
         ("format", VDict [("duration", VStr duration_text);
                           ("size", VStr "1048576")])].

(** A deployment in which storage and the services answer; [probe] is the
    outcome of running ffprobe and [report] what its output parses to. *)
Definition env (probe : result string) (report : option value) : Env :=
  {| json_loads := fun text =>
       if bool_decide (text = "<ffprobe output>") then report
       else if bool_decide (text = "<job>") then Some video_job
       else None;
     float_of_string := fun text =>
       if bool_decide (text = "12.5") then Some 12.5%Q
       else if bool_decide (text = "400.0") then Some 400%Q
       else None;
     int_of_string := fun text =>
       if bool_decide (text = "1048576") then Some 1048576%Z else None;
     eval_other := fun text => Raise (Exn (OtherError "SyntaxError") InterpreterText);
     uuid_of_string := fun text =>
       if bool_decide (text = job_id) then Some 42%N else None;
     temp_dir_of := fun job => "/tmp/job";
     download := fun uri temp_dir => Ok (temp_dir +:+ "/clip.mp4");
     mkdir := fun dir => Ok ();
     ffprobe := fun path => probe;
     ffmpeg_frames := fun path output_dir =>
       Ok [output_dir +:+ "/frame_0001.jpg"; output_dir +:+ "/frame_0002.jpg"];
     ffmpeg_audio := fun path audio_path => Ok ();
     audio_size := fun path => Some 32000%Z;
     open_image := fun path => Ok photo_info;
     annotate_image := fun path => Ok (response_with [] []);
     annotate_frame := fun path => Ok (response_with [face_with 0.9 UNLIKELY] []);
     recognize := fun path => Ok ["hello there"];
     read_text := fun path => Ok "A short note.";
     utcnow := fun n => (500 + n)%nat;
     uuid4 := fun n => N.of_nat (1000 + n) |}.

(** A twelve-second clip, a clip of 400 seconds, a clip whose frame rate
    ffprobe gives as 0/0, and a file that ffprobe rejects. *)
Definition short_clip : Env :=
  env (Ok "<ffprobe output>") (Some (ffprobe_report "12.5" "30/1")).
Definition long_clip : Env :=
  env (Ok "<ffprobe output>") (Some (ffprobe_report "400.0" "30/1")).
Definition zero_rate_clip : Env :=
  env (Ok "<ffprobe output>") (Some (ffprobe_report "12.5" "0/0")).
Definition rejected_clip : Env :=
  env (Raise (Exn CalledProcessError InterpreterText)) None.

(** The results of the image pipeline for the landscape. *)
Definition landscape_results : Results :=
  let '(score, explanation) :=
    MediaProcessor._calculate_image_credibility landscape photo_info in
  ImageResults score explanation landscape photo_info.

(** The database when the job has just been queued. *)
Definition queued_world : Worker.World :=
  {| Worker.analyses :=
       {[ 42%N := {| Worker.user_id := 7; Worker.input_type := "video";
                     Worker.input_uri := "gs://pi-shield-uploads/u/a/clip.mp4";
                     Worker.status := "queued"; Worker.created_at := 490;
                     Worker.finished_at := None |} ]};
     Worker.analysis_reports := [];
     Worker.trace := [];
     Worker.clock_reads := 0;
     Worker.uuid_draws := 0 |}.

End Sample.

(** ** The upload API

    The part of [backend/api/main.py] that decides what the worker is
    given: the validation of an uploaded file and the job that
    [upload_file] pushes on the queue. *)

Module Api.

(** [class Config] of the API: the size limit is read from the process
    environment when the module is loaded, the table of extensions is
    fixed. *)
Record Config := {
  MAX_FILE_SIZE : Z
}.

Definition default_config : Config :=
  {| MAX_FILE_SIZE := 50 * 1024 * 1024 |}.

Definition ALLOWED_EXTENSIONS : list (string * list string) :=
  [("image", ["jpg"; "jpeg"; "png"; "gif"; "webp"]);
   ("video", ["mp4"; "mov"; "avi"; "mkv"; "webm"]);
   ("text", ["txt"; "md"; "json"])].

(** What [validate_file] reads of the uploaded file. *)
Record UploadFile := {
  size : option Z;
  filename : option string
}.

Inductive HTTPException :=
| HTTPError (status_code : Z) (detail : string).

Inductive outcome (A : Type) :=
| Returned (a : A)
| Rejected (e : HTTPException).
Arguments Returned {A} a.
Arguments Rejected {A} e.

(** The loop over [ALLOWED_EXTENSIONS.items()], in the order of the
    table. *)
Fixpoint media_type_of (extension : string)
    (items : list (string * list string)) : option string :=
  match items with
  | [] => None
  | (media_type, extensions) :: rest =>
      if bool_decide (extension ∈ extensions) then Some media_type
      else media_type_of extension rest
  end.

(** [file.filename.lower().split('.')[-1]] *)
Definition extension_of (name : string) : string :=
  List.last (split_on "." (lower name)) "".

Definition validate_file (config : Config) (file : UploadFile) : outcome string :=
  if match size file with
     | Some n => negb (n =? 0)%Z && (MAX_FILE_SIZE config <? n)%Z
     | None => false
     end
  then Rejected (HTTPError 413 "File too large")
  else
    match filename file with
    | None => Rejected (HTTPError 400 "No filename provided")
    | Some name =>
        if negb (str_truthy name)
        then Rejected (HTTPError 400 "No filename provided")
        else
          match media_type_of (extension_of name) ALLOWED_EXTENSIONS with
          | Some media_type => Returned media_type
          | None => Rejected (HTTPError 400 "Unsupported file type")
          end
    end.

(** The job that [upload_file] pushes on the queue. *)
Definition upload_job
    (analysis_id user_id gcs_uri media_type filename created_at : string)
    : value :=
  VDict [("analysis_id", VStr analysis_id);
         ("user_id", VStr user_id);
         ("input_uri", VStr gcs_uri);
         ("input_type", VStr media_type);
         ("filename", VStr filename);
         ("created_at", VStr created_at)].

End Api.

(** ** Further vocabulary *)

(** The spread of the face counts over the analysed frames: the largest
    count minus the smallest, as video scoring computes it. *)
Definition face_spread (frame_results : list FrameResult) : Z :=
  match map (fun fr => Z.of_nat (length (frame_faces fr))) frame_results with
  | [] => 0
  | c :: cs => max_of c cs - min_of c cs
  end.

(** All the faces of the analysed frames. *)
Definition all_faces (frame_results : list FrameResult) : list Face :=
  concat (map frame_faces frame_results).

(** The number of frame annotation requests in a trace. *)
Definition is_annotate (ev : IOEvent) : bool :=
  match ev with
  | AnnotateFrame _ => true
  | _ => false
  end.

Definition annotate_calls (tr : list IOEvent) : nat :=
  length (List.filter is_annotate tr).

(** A computation of the processor adds at most [n] annotation requests
    to any trace. *)
Definition adds_annotations {A} (n : nat) (m : P A) : Prop :=
  forall tr, (annotate_calls (snd (m tr)) <= annotate_calls tr + n)%nat.

(** The frame files that [_extract_frames] hands on: none when ffmpeg
    exits with an error. *)
Definition extracted_frames (E : Env) (path dir : string) : list string :=
  match ffmpeg_frames E path dir with
  | Ok frame_paths => frame_paths
  | Raise _ => []
  end.

(** A subprocess outcome that the extraction helpers absorb. *)
Definition absorbed {A} (r : result A) : Prop :=
  match r with
  | Ok _ => True
  | Raise e => isinstance e [CalledProcessError] = true
  end.

(** A text without any character that is not a space. *)
Definition blank (s : string) : Prop := strip_truthy s = false.

(** The score column of a report holds no value or a score in [0, 1]. *)
Definition score_in_range (r : Worker.ReportRow) : Prop :=
  match Worker.credibility_score r with
  | Some s => (0 <= s <= 1)%Q
  | None => True
  end.

(** Two states of one row of [analyses] that differ at most in the status
    and the finishing time. *)
Definition same_submission (before after : option Worker.AnalysisRow) : Prop :=
  match before, after with
  | Some r, Some r' =>
      Worker.user_id r' = Worker.user_id r
      /\ Worker.input_type r' = Worker.input_type r
      /\ Worker.input_uri r' = Worker.input_uri r
      /\ Worker.created_at r' = Worker.created_at r
  | None, None => True
  | _, _ => False
  end.

(** The input types that the worker has a pipeline for. *)
Definition supported (input_type : value) : bool :=
  eq_str input_type "image" || eq_str input_type "video" || eq_str input_type "text".

(** An answer of the queue other than the interrupt of the operator. *)
Definition is_interrupt (d : Worker.Dequeue) : bool :=
  match d with
  | Worker.KeyboardInterrupt => true
  | _ => false
  end.

(** ** Further sample inputs *)

Module Cases.

(** A text job and an image job as the API enqueues them. *)
Definition text_job : value :=
  VDict [("analysis_id", VStr Sample.job_id);
         ("user_id", VStr "0b9d6c2a-1e4f-4c3b-8a7d-5f6e7d8c9b0a");
         ("input_uri", VStr "gs://pi-shield-uploads/u/a/note.txt");
         ("input_type", VStr "text");
         ("filename", VStr "note.txt");
         ("created_at", VStr "2024-05-01T10:00:00")].

(** The deployment of the short clip in which the downloaded text file
    holds [text]. *)
Definition text_env (text : string) : Env :=
  let E := Sample.short_clip in
  {| json_loads := json_loads E; float_of_string := float_of_string E;
     int_of_string := int_of_string E; eval_other := eval_other E;
     uuid_of_string := uuid_of_string E; temp_dir_of := temp_dir_of E;
     download := fun uri temp_dir => Ok (temp_dir +:+ "/note.txt");
     mkdir := mkdir E;
     ffprobe := ffprobe E; ffmpeg_frames := ffmpeg_frames E;
     ffmpeg_audio := ffmpeg_audio E; audio_size := audio_size E;
     open_image := open_image E; annotate_image := annotate_image E;
     annotate_frame := annotate_frame E; recognize := recognize E;
     read_text := fun path => Ok text;
     utcnow := utcnow E; uuid4 := uuid4 E |}.

Definition chatbot_note : string :=
  "As an AI, I cannot provide medical advice. Please see a doctor.".

(** The deployment of the short clip in which ffmpeg fails on both the
    frames and the audio, and the speech service is down. *)
Definition flaky_env : Env :=
  let E := Sample.short_clip in
  {| json_loads := json_loads E; float_of_string := float_of_string E;
     int_of_string := int_of_string E; eval_other := eval_other E;
     uuid_of_string := uuid_of_string E; temp_dir_of := temp_dir_of E;
     download := download E;
     mkdir := mkdir E;
     ffprobe := ffprobe E;
     ffmpeg_frames := fun path dir => Raise (Exn CalledProcessError InterpreterText);
     ffmpeg_audio := fun path audio => Raise (Exn CalledProcessError InterpreterText);
     audio_size := fun path => Some 512%Z;
     open_image := open_image E; annotate_image := annotate_image E;
     annotate_frame := annotate_frame E;
     recognize := fun path => Raise (Exn (OtherError "ServiceUnavailable") InterpreterText);
     read_text := read_text E;
     utcnow := utcnow E; uuid4 := uuid4 E |}.

(** The deployment of the short clip in which the bucket is unreachable. *)
Definition offline_env : Env :=
  let E := Sample.short_clip in
  {| json_loads := json_loads E; float_of_string := float_of_string E;
     int_of_string := int_of_string E; eval_other := eval_other E;
     uuid_of_string := uuid_of_string E; temp_dir_of := temp_dir_of E;
     download := fun uri temp_dir => Raise (Exn (OtherError "NotFound") (Msg "404 blob"));
     mkdir := mkdir E;
     ffprobe := ffprobe E; ffmpeg_frames := ffmpeg_frames E;
     ffmpeg_audio := ffmpeg_audio E; audio_size := audio_size E;
     open_image := open_image E; annotate_image := annotate_image E;
     annotate_frame := annotate_frame E; recognize := recognize E;
     read_text := read_text E;
     utcnow := utcnow E; uuid4 := uuid4 E |}.

(** An image job, a job for an input type that no pipeline handles, and
    a job without an analysis id. *)
Definition image_job_id : string := "7c9e6679-7425-40de-944b-e07fc1f90ae7".

Definition image_job : value :=
  VDict [("analysis_id", VStr image_job_id);
         ("user_id", VStr "0b9d6c2a-1e4f-4c3b-8a7d-5f6e7d8c9b0a");
         ("input_uri", VStr "gs://pi-shield-uploads/u/b/photo.jpg");
         ("input_type", VStr "image");
         ("filename", VStr "photo.jpg");
         ("created_at", VStr "2024-05-01T10:05:00")].

Definition audio_job : value :=
  VDict [("analysis_id", VStr Sample.job_id);
         ("user_id", VStr "0b9d6c2a-1e4f-4c3b-8a7d-5f6e7d8c9b0a");
         ("input_uri", VStr "gs://pi-shield-uploads/u/a/voice.wav");
         ("input_type", VStr "audio");
         ("filename", VStr "voice.wav");
         ("created_at", VStr "2024-05-01T10:00:00")].

Definition anonymous_job : value :=
  VDict [("input_uri", VStr "gs://pi-shield-uploads/u/a/clip.mp4");
         ("input_type", VStr "video")].

(** The deployment [E] with a queue whose payloads parse to the jobs of
    [inbox], the image job's id being that of row 43. *)
Fixpoint inbox_lookup (inbox : list (string * value)) (text : string)
    : option value :=
  match inbox with
  | [] => None
  | (payload, job) :: rest =>
      if bool_decide (payload = text) then Some job else inbox_lookup rest text
  end.

Definition with_inbox (E : Env) (inbox : list (string * value)) : Env :=
  {| json_loads := fun text =>
       match inbox_lookup inbox text with
       | Some job => Some job
       | None => json_loads E text
       end;
     float_of_string := float_of_string E;
     int_of_string := int_of_string E; eval_other := eval_other E;
     uuid_of_string := fun text =>
       if bool_decide (text = image_job_id) then Some 43%N
       else uuid_of_string E text;
     temp_dir_of := temp_dir_of E;
     download := download E;
     mkdir := mkdir E;
     ffprobe := ffprobe E; ffmpeg_frames := ffmpeg_frames E;
     ffmpeg_audio := ffmpeg_audio E; audio_size := audio_size E;
     open_image := open_image E; annotate_image := annotate_image E;
     annotate_frame := annotate_frame E; recognize := recognize E;
     read_text := read_text E;
     utcnow := utcnow E; uuid4 := uuid4 E |}.

(** What ffprobe reports for a recording that has an audio stream only,
    and the deployment that probes such a file. *)
Definition audio_only_report : value :=
  VDict [("streams",
          VList [VDict [("codec_type", VStr "audio"); ("codec_name", VStr "aac")]]);
         ("format", VDict [("duration", VStr "12.5");
                           ("size", VStr "1048576")])].

Definition voice_memo : Env :=
  Sample.env (Ok "<ffprobe output>") (Some audio_only_report).

Definition inbox : list (string * value) :=
  [("<image job>", image_job); ("<audio job>", audio_job);
   ("<anonymous job>", anonymous_job); ("<video job>", Sample.video_job)].

Definition office : Env := with_inbox Sample.short_clip inbox.

(** The database with the two queued rows 42 and 43 and an older report
    of row 7. *)
Definition busy_world : Worker.World :=
  {| Worker.analyses :=
       <[ 43%N := {| Worker.user_id := 7; Worker.input_type := "image";
                     Worker.input_uri := "gs://pi-shield-uploads/u/b/photo.jpg";
                     Worker.status := "queued"; Worker.created_at := 495;
                     Worker.finished_at := None |} ]>
         (Worker.analyses Sample.queued_world);
     Worker.analysis_reports :=
       [{| Worker.id := 900; Worker.analysis_id := 7;
           Worker.credibility_score := None;
           Worker.explanation := ExplainError (Msg "earlier") "failed";
           Worker.artifacts := []; Worker.version := "v1.0";
           Worker.report_created_at := 400 |}];
     Worker.trace := [];
     Worker.clock_reads := 0;
     Worker.uuid_draws := 0 |}.

End Cases.

(** * Properties *)

Import MediaProcessor.

(** ** Floats and the clamp *)

Lemma Qltb_lt (x y : Q) : Qltb x y = true <-> (x < y)%Q.
Proof.
  unfold Qltb. rewrite negb_true_iff. split.
  - intros H. apply Qnot_le_lt. intros Hle.
    apply Qle_bool_iff in Hle. congruence.
  - intros H. destruct (Qle_bool y x) eqn:Hb; [|reflexivity].
    apply Qle_bool_iff in Hb. exfalso. eapply Qlt_not_le; eassumption.
Qed.

Lemma Qltb_ge (x y : Q) : Qltb x y = false <-> (y <= x)%Q.
Proof.
  unfold Qltb. rewrite negb_false_iff. apply Qle_bool_iff.
Qed.

Lemma clamp_bounds (score : Q) : (0 <= clamp score <= 1)%Q.
Proof.
  unfold clamp, py_max, py_min.
  destruct (Qltb score 1.0) eqn:H1.
  - destruct (Qltb 0.0 score) eqn:H0.
    + apply Qltb_lt in H1, H0. lra.
    + lra.
  - destruct (Qltb 0.0 1.0) eqn:H0; lra.
Qed.

(** ** Accounting of penalties *)

Lemma py_sum_snoc (xs : list Q) (x : Q) : py_sum (xs ++ [x]) = (py_sum xs + x)%Q.
Proof. unfold py_sum. rewrite fold_left_app. reflexivity. Qed.

Lemma total_penalty_snoc (fs : list Factor) (f : Factor) :
  total_penalty (fs ++ [f]) = (total_penalty fs + spec_penalty f)%Q.
Proof. unfold total_penalty. rewrite map_app. apply py_sum_snoc. Qed.

Lemma accounted_base (base : Q) : accounted base (base, []).
Proof.
  split; [|constructor]. cbn. unfold total_penalty, py_sum. cbn. lra.
Qed.

Lemma accounted_penalise (base p : Q) (f : Factor) (a : acc) :
  accounted base a -> p = spec_penalty f -> (0 < p)%Q ->
  accounted base (penalise p f a).
Proof.
  intros [Hs Hf] -> Hp. split; unfold penalise; cbn [fst snd].
  - rewrite total_penalty_snoc. rewrite Hs. lra.
  - apply Forall_app. split; [assumption|]. constructor; [assumption|constructor].
Qed.

Lemma ai_pattern_penalty_pos (ms : list string) :
  ms <> [] -> (0 < ai_pattern_penalty ms)%Q.
Proof.
  intros Hne. unfold ai_pattern_penalty, py_min.
  assert (Hn : (1 <= float_of_nat (length ms))%Q).
  { unfold float_of_nat. destruct ms as [|m ms']; [congruence|].
    change 1%Q with (inject_Z 1). rewrite <- Zle_Qle. cbn [length]. lia. }
  destruct (Qltb _ _); lra.
Qed.

Ltac account :=
  repeat match goal with
    | |- accounted _ (if ?b then _ else _) => destruct b eqn:?
    | |- accounted _ (penalise _ _ _) =>
        apply accounted_penalise; [ | reflexivity | cbn; lra ]
    | |- accounted _ (let _ := _ in _) => cbv zeta
    | H : accounted ?b ?a |- accounted ?b ?a => exact H
    end.

Lemma image_faces_accounted base fs a :
  accounted base a -> accounted base (image_faces fs a).
Proof. intros H. unfold image_faces. account. Qed.

Lemma image_spoof_accounted base s a :
  accounted base a -> accounted base (image_spoof s a).
Proof. intros H. unfold image_spoof. account. Qed.

Lemma image_labels_accounted base ls a :
  accounted base a -> accounted base (image_labels ls a).
Proof. intros H. unfold image_labels. account. Qed.

Lemma video_faces_accounted base frs a :
  accounted base a -> accounted base (video_faces frs a).
Proof.
  intros H. unfold video_faces.
  destruct (map _ frs) as [|c cs]; [assumption|]. account.
Qed.

Lemma video_transcript_accounted base t a :
  accounted base a -> accounted base (video_transcript t a).
Proof. intros H. unfold video_transcript. account. Qed.

Lemma video_quality_accounted base vi a :
  accounted base a -> accounted base (video_quality vi a).
Proof. intros H. unfold video_quality. account. Qed.

Lemma text_patterns_accounted base ms a :
  accounted base a -> accounted base (text_patterns ms a).
Proof.
  intros H. unfold text_patterns. destruct ms as [|m ms']; [assumption|].
  cbn [list_truthy]. apply accounted_penalise; [assumption|reflexivity|].
  apply ai_pattern_penalty_pos. discriminate.
Qed.

Lemma text_structure_accounted base stats a :
  accounted base a -> accounted base (text_structure stats a).
Proof. intros H. unfold text_structure. account. Qed.

Lemma text_repetition_accounted base text a :
  accounted base a -> accounted base (text_repetition text a).
Proof. intros H. unfold text_repetition. account. Qed.

Lemma image_penalties_accounted vr : accounted 0.8 (image_penalties vr).
Proof.
  apply image_labels_accounted, image_spoof_accounted, image_faces_accounted,
    accounted_base.
Qed.

Lemma video_penalties_accounted frs t vi : accounted 0.75 (video_penalties frs t vi).
Proof.
  apply video_quality_accounted, video_transcript_accounted,
    video_faces_accounted, accounted_base.
Qed.

Lemma text_penalties_accounted text stats ms : accounted 0.9 (text_penalties text stats ms).
Proof.
  apply text_repetition_accounted, text_structure_accounted,
    text_patterns_accounted, accounted_base.
Qed.

Lemma scored_of_accounted base raw factors :
  accounted base (raw, factors) -> scored base (clamp raw) factors.
Proof.
  intros H. split; [apply clamp_bounds|]. exists raw. split; [reflexivity|exact H].
Qed.

(** C1. Each of the three scoring functions returns a score between 0 and 1,
    and its [primary_factors] hold the descriptions of exactly the
    penalties that were taken from the base: the returned score is the
    clamp of the base minus the weights of the listed factors, and every
    listed factor took a non-zero weight away. *)
Theorem scores_clamped_and_factors_subtracted :
  (forall vision_results image_info,
     let '(score, explanation) :=
       _calculate_image_credibility vision_results image_info in
     scored 0.8 score (image_primary_factors explanation))
  /\ (forall frame_results transcript video_info,
        let '(score, explanation) :=
          _calculate_video_credibility frame_results transcript video_info in
        scored 0.75 score (video_primary_factors explanation))
  /\ (forall text stats ai_patterns,
        let '(score, explanation) :=
          _calculate_text_credibility text stats ai_patterns in
        scored 0.9 score (text_primary_factors explanation)).
Proof.
  split; [|split].
  - intros vr info. unfold _calculate_image_credibility.
    pose proof (image_penalties_accounted vr) as H.
    destruct (image_penalties vr) as [raw factors]. cbn.
    apply scored_of_accounted, H.
  - intros frs t vi. unfold _calculate_video_credibility.
    pose proof (video_penalties_accounted frs t vi) as H.
    destruct (video_penalties frs t vi) as [raw factors]. cbn.
    apply scored_of_accounted, H.
  - intros text stats ms. unfold _calculate_text_credibility.
    pose proof (text_penalties_accounted text stats ms) as H.
    destruct (text_penalties text stats ms) as [raw factors]. cbn.
    apply scored_of_accounted, H.
Qed.

(** ** Image rules *)

(** A factor is not in an explicit list of factors of other kinds. *)
Ltac not_listed :=
  let Hin := fresh "Hin" in
  intros Hin;
  repeat (apply elem_of_cons in Hin as [Hin|Hin]; [discriminate|]);
  apply elem_of_nil in Hin; exact Hin.

(** The blur rule looks for the text LIKELY inside the name of the
    likelihood. *)
Lemma blur_name_test (l : Likelihood) :
  contains "LIKELY" (likelihood_name l)
  = match l with
    | VERY_UNLIKELY | UNLIKELY | LIKELY | VERY_LIKELY => true
    | UNKNOWN | POSSIBLE => false
    end.
Proof. destruct l; reflexivity. Qed.

(** C4. A face whose blur likelihood is UNLIKELY, which is below LIKELY,
    is counted as blurred: for the sharp portrait the score is
    0.8 - 0.2 and the only factor is the blur factor. *)
Theorem blur_penalty_on_unlikely_face :
  at_least_likely UNLIKELY = false
  /\ blurred_faces (faces Sample.sharp_portrait) = 1%nat
  /\ (fst (_calculate_image_credibility Sample.sharp_portrait Sample.photo_info)
      == 0.6)%Q
  /\ image_primary_factors
       (snd (_calculate_image_credibility Sample.sharp_portrait Sample.photo_info))
     = [BlurredFacesDetected 1].
Proof. repeat split. Qed.

(** C10. With no face, image scoring skips the face block, so neither face
    factor can appear; when in addition the spoof likelihood is neither
    LIKELY nor VERY_LIKELY and no label holds an artificial-content term,
    the score is the base 0.8 and there is no factor. *)
Theorem image_without_faces (vision_results : VisionResults) (image_info : ImageInfo)
    (Hfaces : faces vision_results = []) :
  let '(score, explanation) :=
    _calculate_image_credibility vision_results image_info in
  (forall a, image_faces (faces vision_results) a = a)
  /\ (LowFaceDetectionConfidence ∉ image_primary_factors explanation)
  /\ (forall n, BlurredFacesDetected n ∉ image_primary_factors explanation)
  /\ (spoof (safe_search vision_results) ∉ ["LIKELY"; "VERY_LIKELY"] ->
      (forall l term, l ∈ labels vision_results -> term ∈ artificial_terms ->
         contains term (lower (description l)) = false) ->
      score = 0.8%Q /\ image_primary_factors explanation = []).
Proof.
  unfold _calculate_image_credibility, image_penalties.
  rewrite Hfaces. cbn [image_faces list_truthy].
  unfold image_labels, image_spoof.
  set (arts := artificial_labels_of (labels vision_results)).
  destruct (list_truthy arts) eqn:Harts,
    (spoof_flagged (safe_search vision_results)) eqn:Hspoof;
    cbn; (split; [reflexivity|]);
    (split; [not_listed|]); (split; [intros n; not_listed|]); intros Hs Hl.
  all: try (exfalso; unfold spoof_flagged in Hspoof;
            apply bool_decide_eq_true in Hspoof; contradiction).
  all: try (split; reflexivity).
  all: exfalso; subst arts; unfold artificial_labels_of in Harts;
    destruct (filter _ _) as [|l ls] eqn:Hfil; [discriminate|];
    assert (Hin : l ∈ l :: ls) by (left);
    rewrite <- Hfil in Hin; apply list_elem_of_filter in Hin as [Hart Hin];
    apply Is_true_true in Hart; unfold is_artificial in Hart;
    apply existsb_exists in Hart as (term & Hterm & Hc);
    rewrite (Hl l term Hin) in Hc; [discriminate|];
    apply list_elem_of_In; exact Hterm.
Qed.

(** The landscape photo has no face, a calm safe search and a harmless
    label. *)
Lemma image_without_faces_witness :
  fst (_calculate_image_credibility Sample.landscape Sample.photo_info) = 0.8%Q
  /\ image_primary_factors
       (snd (_calculate_image_credibility Sample.landscape Sample.photo_info)) = [].
Proof.
  pose proof (image_without_faces Sample.landscape Sample.photo_info eq_refl) as H.
  destruct (_calculate_image_credibility Sample.landscape Sample.photo_info)
    as [score explanation].
  destruct H as (_ & _ & _ & H). apply H.
  - not_listed.
  - intros l term Hl Hterm.
    apply list_elem_of_singleton in Hl. subst l.
    repeat (apply elem_of_cons in Hterm as [->|Hterm]; [reflexivity|]).
    apply elem_of_nil in Hterm. contradiction.
Defined.

(** ** Text rules *)

Lemma text_structure_triggered (stats : TextStats) (a : acc) :
  sentence_rule stats ->
  exists f, (f = LongSentences \/ f = ShortSentences)
            /\ text_structure stats a = penalise 0.1 f a.
Proof.
  intros [Hwc Havg]. unfold text_structure.
  apply Z.ltb_lt in Hwc. rewrite Hwc.
  destruct (Qltb 30 (avg_sentence_length stats)) eqn:Hlong.
  - exists LongSentences. split; [left|]; reflexivity.
  - destruct Havg as [Havg|Havg].
    + apply Qltb_lt in Havg. congruence.
    + apply Qltb_lt in Havg. rewrite Havg.
      exists ShortSentences. split; [right|]; reflexivity.
Qed.

Lemma text_structure_untriggered (stats : TextStats) (a : acc) :
  ~ sentence_rule stats -> text_structure stats a = a.
Proof.
  intros Hno. unfold text_structure.
  destruct (0 <? word_count stats)%Z eqn:Hwc; [|reflexivity].
  apply Z.ltb_lt in Hwc.
  destruct (Qltb 30 (avg_sentence_length stats)) eqn:Hlong.
  - exfalso. apply Hno. split; [assumption|]. left. apply Qltb_lt, Hlong.
  - destruct (Qltb (avg_sentence_length stats) 5) eqn:Hshort; [|reflexivity].
    exfalso. apply Hno. split; [assumption|]. right. apply Qltb_lt, Hshort.
Qed.

Lemma sentence_rule_dec (stats : TextStats) :
  sentence_rule stats \/ ~ sentence_rule stats.
Proof.
  unfold sentence_rule.
  destruct (Z.ltb_spec 0 (word_count stats)) as [Hwc|Hwc]; [|right; lia].
  destruct (Qltb 30 (avg_sentence_length stats)) eqn:Hlong.
  { left. split; [assumption|]. left. apply Qltb_lt, Hlong. }
  destruct (Qltb (avg_sentence_length stats) 5) eqn:Hshort.
  { left. split; [assumption|]. right. apply Qltb_lt, Hshort. }
  right. intros [_ [H|H]]; apply Qltb_lt in H; congruence.
Qed.

(** The factors of the other two text rules are not sentence factors. *)
Lemma text_patterns_factors ms f :
  f ∈ snd (text_patterns ms (0.9%Q, [])) -> f = AIPatternsFound ms.
Proof.
  unfold text_patterns. destruct (list_truthy ms); cbn; intros Hin.
  - apply list_elem_of_singleton in Hin. exact Hin.
  - apply elem_of_nil in Hin. contradiction.
Qed.

Lemma text_repetition_factors text a f :
  f ∈ snd (text_repetition text a) <->
  f ∈ snd a \/ (f = HighWordRepetition /\ text_repetition text a <> a).
Proof.
  unfold text_repetition.
  destruct (10 <? length (split (lower text)))%nat; [|tauto].
  destruct (Qltb _ _); [|tauto]. unfold penalise; cbn [snd].
  rewrite elem_of_app, list_elem_of_singleton. split.
  - intros [H|H]; [left; exact H|right]. split; [exact H|].
    intros Heq. apply (f_equal (fun p => length (snd p))) in Heq.
    cbn in Heq. rewrite length_app in Heq. cbn in Heq. lia.
  - intros [H|[H _]]; [left|right]; exact H.
Qed.

(** C5, the claim as first stated fails: the empty text has average
    sentence length 0, below 5, and keeps the base score with no factor. *)
Lemma empty_text_not_penalised :
  (avg_sentence_length Sample.empty_stats < 5)%Q
  /\ _calculate_text_credibility "" Sample.empty_stats []
     = (0.9%Q,
        {| text_primary_factors := []; text_length := 0;
           ai_patterns_count := 0; structure_analysis := "normal" |}).
Proof. split; reflexivity. Qed.

(** C5, amended. The sentence-length rule takes 0.10 exactly when the word
    count is positive and the average sentence length is above 30 or
    below 5: then the block subtracts 0.1 and appends one of the two
    sentence factors, otherwise it changes nothing; the returned factor
    list holds a sentence factor exactly in the first case. *)
Theorem sentence_length_penalty (text : string) (stats : TextStats)
    (ai_patterns : list string) :
  (sentence_rule stats ->
     forall a, exists f, (f = LongSentences \/ f = ShortSentences)
                         /\ text_structure stats a = penalise 0.1 f a)
  /\ (~ sentence_rule stats -> forall a, text_structure stats a = a)
  /\ (let factors :=
        text_primary_factors
          (snd (_calculate_text_credibility text stats ai_patterns)) in
      (LongSentences ∈ factors \/ ShortSentences ∈ factors) <-> sentence_rule stats).
Proof.
  split; [|split].
  - intros H a. apply text_structure_triggered, H.
  - intros H a. apply text_structure_untriggered, H.
  - unfold _calculate_text_credibility, text_penalties.
    set (a0 := text_patterns ai_patterns (0.9%Q, [])).
    assert (Ha0 : forall f, f ∈ snd a0 -> f = AIPatternsFound ai_patterns)
      by (intros f; apply text_patterns_factors).
    destruct (text_repetition text (text_structure stats a0)) as [raw factors] eqn:Hr.
    cbn [snd text_primary_factors].
    assert (Hmem : forall f, f <> HighWordRepetition ->
                     (f ∈ factors <-> f ∈ snd (text_structure stats a0))).
    { intros f Hf. change factors with (snd (raw, factors)). rewrite <- Hr.
      rewrite text_repetition_factors. split; [|tauto].
      intros [H|[H _]]; [exact H|contradiction]. }
    rewrite !Hmem by discriminate.
    destruct (sentence_rule_dec stats) as [Hrule|Hrule].
    + split; [intros _; exact Hrule|intros _].
      destruct (text_structure_triggered stats a0 Hrule) as (f & [->| ->] & ->);
        unfold penalise; cbn [snd]; [left|right];
        apply elem_of_app; right; apply list_elem_of_singleton; reflexivity.
    + rewrite (text_structure_untriggered stats a0 Hrule).
      split; [|contradiction].
      intros [H|H]; apply Ha0 in H; discriminate.
Qed.

(** ** Frame sampling *)

Lemma slice_from_lookup {A} (step skip i : nat) (xs : list A) :
  (1 <= step)%nat ->
  slice_from step skip xs !! i = xs !! (skip + i * step)%nat.
Proof.
  intros Hstep. revert skip i.
  induction xs as [|x rest IH]; intros skip i; [reflexivity|].
  destruct skip as [|k]; cbn [slice_from].
  - destruct i as [|j]; [reflexivity|].
    cbn [lookup list_lookup]. rewrite IH.
    replace (0 + S j * step)%nat with (S (step - 1 + j * step)) by lia.
    reflexivity.
  - rewrite IH. reflexivity.
Qed.

(** The slice takes the items at the indices 0, step, 2 step, ... *)
Lemma slice_step_lookup {A} (step i : nat) (xs : list A) :
  (1 <= step)%nat -> slice_step step xs !! i = xs !! (i * step)%nat.
Proof. intros H. unfold slice_step. rewrite slice_from_lookup by exact H. reflexivity. Qed.

Lemma sample_frames_lookup {A} (i : nat) (frame_paths : list A) :
  sample_frames frame_paths !! i
  = frame_paths !! (i * Nat.max 1 (length frame_paths / 10))%nat.
Proof. unfold sample_frames. apply slice_step_lookup. lia. Qed.

(** The number of sampled frames [m] is the least with [n <= m * stride]. *)
Lemma sample_frames_length {A} (frame_paths : list A) :
  let stride := Nat.max 1 (length frame_paths / 10) in
  let m := length (sample_frames frame_paths) in
  (length frame_paths <= m * stride)%nat
  /\ (m = 0 \/ (m - 1) * stride < length frame_paths)%nat.
Proof.
  cbv zeta. set (stride := Nat.max 1 (length frame_paths / 10)).
  set (m := length (sample_frames frame_paths)).
  split.
  - pose proof (sample_frames_lookup m frame_paths) as H.
    rewrite (lookup_ge_None_2 (sample_frames frame_paths) m) in H by (subst m; lia).
    symmetry in H. apply lookup_ge_None_1 in H. exact H.
  - destruct m as [|m'] eqn:Hm; [left; reflexivity|right].
    pose proof (sample_frames_lookup m' frame_paths) as H.
    destruct (lookup_lt_is_Some_2 (sample_frames frame_paths) m') as [x Hx];
      [fold m; lia|].
    rewrite Hx in H. symmetry in H. apply lookup_lt_Some in H.
    replace (S m' - 1)%nat with m' by lia. exact H.
Qed.

(** A hundred extracted frames give ten sampled frames, every tenth one. *)
Lemma sample_frames_hundred {A} (frame_paths : list A) :
  length frame_paths = 100%nat ->
  length (sample_frames frame_paths) = 10%nat
  /\ forall i, sample_frames frame_paths !! i = frame_paths !! (i * 10)%nat.
Proof.
  intros Hlen. split.
  - pose proof (sample_frames_length frame_paths) as [Hlo Hhi].
    rewrite Hlen in Hlo, Hhi. change (Nat.max 1 (100 / 10)) with 10%nat in Hlo, Hhi.
    lia.
  - intros i. rewrite sample_frames_lookup, Hlen. reflexivity.
Qed.

(** No list gives more than nineteen sampled frames. *)
Lemma sample_frames_at_most_nineteen {A} (frame_paths : list A) :
  (length (sample_frames frame_paths) <= 19)%nat.
Proof.
  pose proof (sample_frames_length frame_paths) as [_ Hhi].
  set (n := length frame_paths) in *. set (m := length (sample_frames frame_paths)) in *.
  destruct Hhi as [->|Hhi]; [lia|].
  destruct (Nat.le_gt_cases 10 n) as [Hn|Hn].
  - pose proof (Nat.div_mod_eq n 10) as Hdiv.
    pose proof (Nat.mod_upper_bound n 10 ltac:(lia)) as Hmod.
    assert (Hk : (1 <= n / 10)%nat) by (apply Nat.div_le_lower_bound; lia).
    replace (Nat.max 1 (n / 10)) with (n / 10)%nat in Hhi by lia.
    nia.
  - assert (Hk : (n / 10 = 0)%nat) by (apply Nat.div_small; lia).
    rewrite Hk in Hhi. cbn in Hhi. lia.
Qed.

(** C2. Nineteen extracted frames have stride max(1, 19 // 10) = 1, so the
    sampling keeps all nineteen, more than ten. *)
Theorem nineteen_frames_all_sampled :
  Nat.max 1 (length (seq 0 19) / 10) = 1%nat
  /\ sample_frames (seq 0 19) = seq 0 19
  /\ (10 < length (sample_frames (seq 0 19)))%nat.
Proof. repeat split. cbn. lia. Qed.

(** ** The metadata probe *)

(** The probe makes exactly one outside call, the run of ffprobe. *)
Lemma probe_video_trace E path tr :
  snd (probe_video E path tr) = tr ++ [Ffprobe path].
Proof.
  unfold probe_video, bind, call, lift.
  destruct (ffprobe E path); reflexivity.
Qed.

Lemma get_video_info_trace E path tr :
  snd (_get_video_info E path tr) = tr ++ [Ffprobe path].
Proof.
  unfold _get_video_info, try_except.
  pose proof (probe_video_trace E path tr) as H.
  destruct (probe_video E path tr) as [[info|e] tr']; cbn in H; subst tr';
    [reflexivity|].
  destruct (isinstance e probe_errors); reflexivity.
Qed.

Lemma get_video_info_uncaught E path tr e tr' :
  probe_video E path tr = (Raise e, tr') ->
  isinstance e probe_errors = false ->
  _get_video_info E path tr = (Raise e, tr').
Proof.
  intros Hp Hc. unfold _get_video_info, try_except. rewrite Hp, Hc. reflexivity.
Qed.

(** ** The duration cap *)

Lemma process_video_too_long (config : Config) (E : Env) (job aid uri : value)
    (path : string) (info : VideoInfo) :
  getitem job "analysis_id" = Ok aid ->
  getitem job "input_uri" = Ok uri ->
  download E uri (temp_dir_of E job) = Ok path ->
  fst (_get_video_info E path [Download uri]) = Ok info ->
  (inject_Z (MAX_VIDEO_DURATION config) < duration info)%Q ->
  process_video config E job []
  = (Raise (Exn ValueError
              (VideoTooLong (duration info) (MAX_VIDEO_DURATION config))),
     [Download uri; Ffprobe path]).
Proof.
  intros Haid Huri Hdl Hinfo Hlong.
  pose proof (get_video_info_trace E path [Download uri]) as Htr.
  destruct (_get_video_info E path [Download uri]) as [r tr'] eqn:Hg.
  cbn in Hinfo, Htr. subst r tr'.
  unfold process_video.
  unfold bind at 1. unfold lift at 1. rewrite Haid.
  unfold bind at 1. unfold lift at 1. rewrite Huri.
  unfold bind at 1. unfold _download_file, call. rewrite Hdl. cbn [app].
  unfold bind at 1. rewrite Hg.
  apply Qltb_lt in Hlong. rewrite Hlong. reflexivity.
Qed.

(** ** The steps of the worker *)

Import Worker.

Lemma update_status_ok E aid key st w :
  UUID E aid = Ok key ->
  _update_analysis_status E aid st w = (Ok (), status_set E key st w).
Proof.
  intros Hk. unfold _update_analysis_status, status_set.
  destruct (bool_decide (st ∈ ["done"; "failed"])).
  - unfold bind, now, ret, lift. rewrite Hk. reflexivity.
  - unfold bind, ret, lift. rewrite Hk. reflexivity.
Qed.

Lemma update_status_bad E aid st w e :
  UUID E aid = Raise e ->
  fst (_update_analysis_status E aid st w) = Raise e
  /\ trace (snd (_update_analysis_status E aid st w)) = trace w.
Proof.
  intros Hk. unfold _update_analysis_status.
  destruct (bool_decide (st ∈ ["done"; "failed"]));
    unfold bind, now, ret, lift; rewrite Hk; split; reflexivity.
Qed.

Lemma store_results_ok E aid key results w :
  UUID E aid = Ok key ->
  _store_results E aid results w = (Ok (), report_stored E key results w).
Proof.
  intros Hk. unfold _store_results, report_stored, report_row.
  unfold bind, fresh_uuid, now, lift. rewrite Hk. reflexivity.
Qed.

(** The pipelines do not touch the database; they add outside calls to the
    trace. *)
Lemma dispatch_frame config E ity job w :
  exists tr,
    snd (dispatch config E ity job w)
    = {| analyses := analyses w; analysis_reports := analysis_reports w;
         trace := trace w ++ map IO tr;
         clock_reads := clock_reads w; uuid_draws := uuid_draws w |}.
Proof.
  unfold dispatch, run.
  destruct (eq_str ity "image").
  { destruct (process_image E job []) as [r tr]. exists tr. reflexivity. }
  destruct (eq_str ity "video").
  { destruct (process_video config E job []) as [r tr]. exists tr. reflexivity. }
  destruct (eq_str ity "text").
  { destruct (process_text E job []) as [r tr]. exists tr. reflexivity. }
  exists []. cbn. rewrite app_nil_r. destruct w; reflexivity.
Qed.

Lemma transitions_app evs1 evs2 :
  transitions (evs1 ++ evs2) = transitions evs1 ++ transitions evs2.
Proof. unfold transitions. apply omap_app. Qed.

Lemma transitions_io tr : transitions (map IO tr) = [].
Proof. induction tr as [|ev tr IH]; [reflexivity|exact IH]. Qed.

Lemma trace_status_set E key st w :
  trace (status_set E key st w) = trace w ++ [StatusUpdate key st].
Proof. unfold status_set. destruct (bool_decide _); reflexivity. Qed.

Lemma trace_report_stored E key results w :
  trace (report_stored E key results w) = trace w ++ [ReportUpsert key].
Proof. reflexivity. Qed.

Lemma analyses_report_stored E key results w :
  analyses (report_stored E key results w) = analyses w.
Proof. reflexivity. Qed.

(** A job whose id is a UUID always runs to the end of [process_job]: the
    pipeline's result is stored and the status set to done, or the
    pipeline's exception is handled. *)
Lemma process_job_done config E job aid ity key results w w1 :
  getitem job "analysis_id" = Ok aid ->
  getitem job "input_type" = Ok ity ->
  UUID E aid = Ok key ->
  dispatch config E ity job (status_set E key "processing" w) = (Ok results, w1) ->
  process_job config E job w
  = (Ok (), status_set E key "done" (report_stored E key results w1)).
Proof.
  intros Haid Hity Hk Hd. unfold process_job.
  unfold bind at 1. unfold lift at 1. rewrite Haid.
  unfold bind at 1. unfold lift at 1. rewrite Hity.
  unfold try_except.
  unfold bind at 1. rewrite (update_status_ok E aid key) by exact Hk.
  unfold bind at 1. rewrite Hd.
  unfold bind at 1. rewrite (store_results_ok E aid key) by exact Hk.
  rewrite (update_status_ok E aid key) by exact Hk. reflexivity.
Qed.

Lemma process_job_failed config E job aid ity key e w w1 :
  getitem job "analysis_id" = Ok aid ->
  getitem job "input_type" = Ok ity ->
  UUID E aid = Ok key ->
  dispatch config E ity job (status_set E key "processing" w) = (Raise e, w1) ->
  process_job config E job w
  = (Ok (), report_stored E key (ErrorResults (exn_str e))
              (status_set E key "failed" w1)).
Proof.
  intros Haid Hity Hk Hd. unfold process_job.
  unfold bind at 1. unfold lift at 1. rewrite Haid.
  unfold bind at 1. unfold lift at 1. rewrite Hity.
  unfold try_except.
  unfold bind at 1. rewrite (update_status_ok E aid key) by exact Hk.
  unfold bind at 1. rewrite Hd.
  unfold bind at 1. rewrite (update_status_ok E aid key) by exact Hk.
  rewrite (store_results_ok E aid key) by exact Hk. reflexivity.
Qed.

Lemma analyses_status_set E key st w :
  analyses (status_set E key st w) !! key
  = (fun r =>
       {| user_id := user_id r; input_type := input_type r;
          input_uri := input_uri r; status := st; created_at := created_at r;
          finished_at :=
            if bool_decide (st ∈ ["done"; "failed"])
            then Some (utcnow E (clock_reads w)) else None |})
    <$> analyses w !! key.
Proof.
  unfold status_set. destruct (bool_decide _); cbn; apply lookup_alter_eq.
Qed.

Lemma dispatch_video config E job w :
  dispatch config E (VStr "video") job w = run (process_video config E job) w.
Proof. reflexivity. Qed.

(** C3. A video job whose probed duration is above the cap: the pipeline
    raises after the download and the probe, the handler of [process_job]
    sets the status failed, and the whole job makes no call to frame or
    audio extraction. *)
Theorem video_over_cap_fails (config : Config) (E : Env) (job aid uri : value)
    (key : N) (path : string) (info : VideoInfo) (w : World) :
  getitem job "analysis_id" = Ok aid ->
  getitem job "input_type" = Ok (VStr "video") ->
  getitem job "input_uri" = Ok uri ->
  UUID E aid = Ok key ->
  download E uri (temp_dir_of E job) = Ok path ->
  fst (_get_video_info E path [Download uri]) = Ok info ->
  (inject_Z (MAX_VIDEO_DURATION config) < duration info)%Q ->
  fst (process_video config E job [])
  = Raise (Exn ValueError (VideoTooLong (duration info) (MAX_VIDEO_DURATION config)))
  /\ exists w' evs,
       process_job config E job w = (Ok (), w')
       /\ trace w' = trace w ++ evs
       /\ evs = [StatusUpdate key "processing"; IO (Download uri); IO (Ffprobe path);
                 StatusUpdate key "failed"; ReportUpsert key]
       /\ Forall (fun ev => is_extraction ev = false) evs
       /\ (forall row, analyses w !! key = Some row ->
             exists row', analyses w' !! key = Some row'
                          /\ status row' = "failed"
                          /\ finished_at row' = Some (utcnow E (clock_reads w))).
Proof.
  intros Haid Hity Huri Hk Hdl Hinfo Hlong.
  pose proof (process_video_too_long config E job aid uri path info
                Haid Huri Hdl Hinfo Hlong) as Hpv.
  split; [rewrite Hpv; reflexivity|].
  assert (Hd : dispatch config E (VStr "video") job (status_set E key "processing" w)
               = (Raise (Exn ValueError
                           (VideoTooLong (duration info) (MAX_VIDEO_DURATION config))),
                  snd (run (process_video config E job)
                         (status_set E key "processing" w)))).
  { rewrite dispatch_video. unfold run. rewrite Hpv. reflexivity. }
  eexists. eexists.
  split; [exact (process_job_failed config E job aid _ key _ w _ Haid Hity Hk Hd)|].
  split; [|split; [reflexivity|split]].
  - rewrite trace_report_stored, trace_status_set. unfold run. rewrite Hpv.
    cbn [snd trace map]. rewrite trace_status_set.
    rewrite <- !app_assoc. reflexivity.
  - repeat constructor.
  - intros row Hrow. rewrite analyses_report_stored, analyses_status_set.
    unfold run. rewrite Hpv. cbn [snd analyses clock_reads].
    rewrite analyses_status_set, Hrow. cbn.
    eexists. split; [reflexivity|]. split; reflexivity.
Qed.

(** The clip of 400 seconds under the default cap of 300. *)
Lemma video_over_cap_fails_witness :
  fst (process_video default_config Sample.long_clip Sample.video_job [])
  = Raise (Exn ValueError (VideoTooLong 400 300))
  /\ exists w' evs,
       process_job default_config Sample.long_clip Sample.video_job
         Sample.queued_world = (Ok (), w')
       /\ trace w' = trace Sample.queued_world ++ evs
       /\ evs = [StatusUpdate 42 "processing";
                 IO (Download (VStr "gs://pi-shield-uploads/u/a/clip.mp4"));
                 IO (Ffprobe "/tmp/job/clip.mp4");
                 StatusUpdate 42 "failed"; ReportUpsert 42]
       /\ Forall (fun ev => is_extraction ev = false) evs
       /\ (forall row, analyses Sample.queued_world !! 42%N = Some row ->
             exists row', analyses w' !! 42%N = Some row'
                          /\ status row' = "failed"
                          /\ finished_at row'
                             = Some (utcnow Sample.long_clip
                                       (clock_reads Sample.queued_world))).
Proof.
  apply (video_over_cap_fails default_config Sample.long_clip Sample.video_job
           (VStr Sample.job_id) (VStr "gs://pi-shield-uploads/u/a/clip.mp4") 42
           "/tmp/job/clip.mp4"
           {| duration := 400; size := 1048576; width := 1280; height := 720;
              fps := VFloat (inject_Z 30 / inject_Z 1); codec := VStr "h264" |}
           Sample.queued_world).
  - reflexivity.
  - reflexivity.
  - reflexivity.
  - reflexivity.
  - reflexivity.
  - reflexivity.
  - reflexivity.
Defined.

(** ** The report table *)

Lemma reports_of_cons key r rows :
  reports_of key (r :: rows)
  = if decide (analysis_id r = key) then r :: reports_of key rows
    else reports_of key rows.
Proof. reflexivity. Qed.

Lemma reports_of_absent key rows :
  key ∉ map analysis_id rows -> reports_of key rows = [].
Proof.
  induction rows as [|r rows IH]; intros Hnot; [reflexivity|].
  rewrite reports_of_cons. cbn [map] in Hnot.
  apply not_elem_of_cons in Hnot as [Hne Hnot].
  destruct (decide (analysis_id r = key)) as [Heq|_]; [congruence|].
  apply IH, Hnot.
Qed.

Lemma reports_of_elem key rows :
  reports_of key rows = [] -> key ∉ map analysis_id rows.
Proof.
  induction rows as [|r rows IH]; intros Hnone Hin.
  - apply elem_of_nil in Hin. exact Hin.
  - rewrite reports_of_cons in Hnone. cbn [map] in Hin.
    destruct (decide (analysis_id r = key)) as [Heq|Hne]; [discriminate|].
    apply elem_of_cons in Hin as [Hin|Hin]; [congruence|].
    exact (IH Hnone Hin).
Qed.

(** The first write to a table without a row for the analysis inserts the
    new row. *)
Lemma upsert_insert new rows :
  reports_of (analysis_id new) rows = [] ->
  reports_of (analysis_id new) (upsert new rows) = [new].
Proof.
  induction rows as [|r rows IH]; intros Hnone.
  - cbn [upsert]. rewrite reports_of_cons.
    destruct (decide _) as [_|Hne]; [reflexivity|congruence].
  - rewrite reports_of_cons in Hnone. cbn [upsert].
    destruct (decide (analysis_id r = analysis_id new)) as [Heq|Hne]; [discriminate|].
    destruct (N.eqb_spec (analysis_id r) (analysis_id new)) as [Heq|_]; [congruence|].
    rewrite reports_of_cons.
    destruct (decide (analysis_id r = analysis_id new)) as [Heq|_]; [congruence|].
    apply IH, Hnone.
Qed.

(** A write that meets the row of the analysis updates it in place. *)
Lemma upsert_update new rows r :
  NoDup (map analysis_id rows) ->
  reports_of (analysis_id new) rows = [r] ->
  reports_of (analysis_id new) (upsert new rows) = [on_conflict r new]
  /\ length (upsert new rows) = length rows.
Proof.
  induction rows as [|r0 rows IH]; intros Hnd Hone; [discriminate|].
  rewrite reports_of_cons in Hone. cbn [upsert]. cbn [map] in Hnd.
  apply NoDup_cons in Hnd as [Hfresh Hnd].
  destruct (decide (analysis_id r0 = analysis_id new)) as [Heq|Hne].
  - apply N.eqb_eq in Heq as Heqb. rewrite Heqb.
    rewrite Heq in Hfresh. apply reports_of_absent in Hfresh.
    rewrite Hfresh in Hone. injection Hone as ->.
    split; [|reflexivity].
    rewrite reports_of_cons. cbn [on_conflict analysis_id].
    destruct (decide _) as [_|Hne]; [|congruence].
    rewrite Hfresh. reflexivity.
  - destruct (N.eqb_spec (analysis_id r0) (analysis_id new)) as [Heq|_]; [congruence|].
    destruct (IH Hnd Hone) as [Hrep Hlen]. split; [|cbn; rewrite Hlen; reflexivity].
    rewrite reports_of_cons.
    destruct (decide _) as [Heq|_]; [congruence|]. exact Hrep.
Qed.

Lemma upsert_keys new rows :
  reports_of (analysis_id new) rows <> [] ->
  map analysis_id (upsert new rows) = map analysis_id rows.
Proof.
  induction rows as [|r rows IH]; intros Hsome; [contradiction|].
  cbn [upsert]. rewrite reports_of_cons in Hsome.
  destruct (N.eqb_spec (analysis_id r) (analysis_id new)) as [Heq|Hne].
  - reflexivity.
  - destruct (decide _) as [Heq|_]; [congruence|].
    cbn [map]. rewrite IH by exact Hsome. reflexivity.
Qed.

Lemma upsert_keys_fresh new rows :
  reports_of (analysis_id new) rows = [] ->
  map analysis_id (upsert new rows) = map analysis_id rows ++ [analysis_id new].
Proof.
  induction rows as [|r rows IH]; intros Hnone; [reflexivity|].
  cbn [upsert]. rewrite reports_of_cons in Hnone.
  destruct (decide _) as [Heq|Hne]; [discriminate|].
  destruct (N.eqb_spec (analysis_id r) (analysis_id new)) as [Heq|_]; [congruence|].
  cbn [map app]. rewrite IH by exact Hnone. reflexivity.
Qed.

(** The upsert keeps the analysis ids of the table distinct. *)
Lemma upsert_NoDup new rows :
  NoDup (map analysis_id rows) -> NoDup (map analysis_id (upsert new rows)).
Proof.
  intros Hnd.
  destruct (reports_of (analysis_id new) rows) as [|r rs] eqn:Hrep.
  - rewrite upsert_keys_fresh by exact Hrep.
    apply NoDup_app. split; [exact Hnd|]. split.
    + intros k Hk Hin. apply list_elem_of_singleton in Hin. subst k.
      exact (reports_of_elem _ _ Hrep Hk).
    + apply NoDup_singleton.
  - rewrite upsert_keys; [exact Hnd|]. rewrite Hrep. discriminate.
Qed.

(** With distinct analysis ids there is at most one row per analysis. *)
Lemma reports_of_at_most_one key rows :
  NoDup (map analysis_id rows) ->
  reports_of key rows = [] \/ exists r, reports_of key rows = [r].
Proof.
  induction rows as [|r0 rows IH]; intros Hnd; [left; reflexivity|].
  cbn [map] in Hnd. apply NoDup_cons in Hnd as [Hfresh Hnd].
  rewrite reports_of_cons.
  destruct (decide (analysis_id r0 = key)) as [Heq|Hne].
  - right. exists r0. rewrite Heq in Hfresh.
    rewrite (reports_of_absent _ _ Hfresh). reflexivity.
  - apply IH, Hnd.
Qed.

(** After any write the analysis has exactly one row, which carries the
    written values. *)
Lemma upsert_one new rows :
  NoDup (map analysis_id rows) ->
  exists r, reports_of (analysis_id new) (upsert new rows) = [r]
            /\ credibility_score r = credibility_score new
            /\ explanation r = explanation new
            /\ artifacts r = artifacts new
            /\ version r = version new
            /\ (reports_of (analysis_id new) rows = [] -> r = new).
Proof.
  intros Hnd.
  destruct (reports_of_at_most_one (analysis_id new) rows Hnd) as [Hnone|[r0 Hone]].
  - exists new. rewrite upsert_insert by exact Hnone. repeat split; reflexivity.
  - exists (on_conflict r0 new).
    destruct (upsert_update new rows r0 Hnd Hone) as [Hrep _].
    rewrite Hrep. repeat split; try reflexivity.
    rewrite Hone. discriminate.
Qed.

(** C6. Two writes for the same analysis leave exactly one row for it: the
    second write adds no row, the row carries the score, explanation,
    artifacts and version of the second write, and its id and creation
    time are those that the first write left (the fresh ones of the first
    write when there was no row before). *)
Theorem second_write_overwrites (E : Env) (aid : value) (key : N)
    (first second : Results) (w : World) :
  UUID E aid = Ok key ->
  NoDup (map analysis_id (analysis_reports w)) ->
  let w1 := snd (_store_results E aid first w) in
  let w2 := snd (_store_results E aid second w1) in
  exists r1 r2,
    reports_of key (analysis_reports w1) = [r1]
    /\ reports_of key (analysis_reports w2) = [r2]
    /\ length (analysis_reports w2) = length (analysis_reports w1)
    /\ id r2 = id r1
    /\ report_created_at r2 = report_created_at r1
    /\ credibility_score r2 = results_credibility_score second
    /\ explanation r2 = results_explanation second
    /\ artifacts r2 = results_artifacts second
    /\ version r2 = "v1.0"
    /\ (reports_of key (analysis_reports w) = [] ->
        id r1 = uuid4 E (uuid_draws w)
        /\ report_created_at r1 = utcnow E (clock_reads w)).
Proof.
  intros Hk Hnd. cbv zeta.
  rewrite (store_results_ok E aid key first w Hk). cbn [snd].
  rewrite (store_results_ok E aid key second _ Hk). cbn [snd].
  set (row1 := report_row E key first w).
  set (w1 := report_stored E key first w).
  set (row2 := report_row E key second w1).
  assert (Hrows1 : analysis_reports w1 = upsert row1 (analysis_reports w))
    by reflexivity.
  assert (Hrows2 : analysis_reports (report_stored E key second w1)
                   = upsert row2 (analysis_reports w1)) by reflexivity.
  rewrite Hrows2, Hrows1.
  destruct (upsert_one row1 (analysis_reports w) Hnd)
    as (r1 & Hr1 & _ & _ & _ & _ & Hfresh).
  change (analysis_id row1) with key in Hr1, Hfresh.
  pose proof (upsert_NoDup row1 (analysis_reports w) Hnd) as Hnd1.
  destruct (upsert_update row2 (upsert row1 (analysis_reports w)) r1 Hnd1 Hr1)
    as [Hr2 Hlen].
  change (analysis_id row2) with key in Hr2.
  exists r1, (on_conflict r1 row2).
  split; [exact Hr1|]. split; [exact Hr2|]. split; [exact Hlen|].
  repeat (split; [reflexivity|]).
  intros Hnone. rewrite (Hfresh Hnone). split; reflexivity.
Qed.

(** An error report for the queued job followed by an image report. *)
Lemma second_write_overwrites_witness :
  let E := Sample.long_clip in
  let w1 := snd (_store_results E (VStr Sample.job_id)
                   (ErrorResults (Msg "storage unavailable")) Sample.queued_world) in
  let w2 := snd (_store_results E (VStr Sample.job_id) Sample.landscape_results w1) in
  exists r1 r2,
    reports_of 42 (analysis_reports w1) = [r1]
    /\ reports_of 42 (analysis_reports w2) = [r2]
    /\ length (analysis_reports w2) = length (analysis_reports w1)
    /\ id r2 = id r1
    /\ report_created_at r2 = report_created_at r1
    /\ credibility_score r2 = results_credibility_score Sample.landscape_results
    /\ explanation r2 = results_explanation Sample.landscape_results
    /\ artifacts r2 = results_artifacts Sample.landscape_results
    /\ version r2 = "v1.0"
    /\ (reports_of 42 (analysis_reports Sample.queued_world) = [] ->
        id r1 = uuid4 E (uuid_draws Sample.queued_world)
        /\ report_created_at r1 = utcnow E (clock_reads Sample.queued_world)).
Proof.
  apply (second_write_overwrites Sample.long_clip (VStr Sample.job_id) 42
           (ErrorResults (Msg "storage unavailable")) Sample.landscape_results
           Sample.queued_world).
  - reflexivity.
  - apply NoDup_nil_2.
Defined.

(** ** Status transitions and failure containment *)

Lemma process_job_bad_uuid config E job aid ity e w :
  getitem job "analysis_id" = Ok aid ->
  getitem job "input_type" = Ok ity ->
  UUID E aid = Raise e ->
  exists w', process_job config E job w = (Raise e, w') /\ trace w' = trace w.
Proof.
  intros Haid Hity Hk. unfold process_job.
  unfold bind at 1. unfold lift at 1. rewrite Haid.
  unfold bind at 1. unfold lift at 1. rewrite Hity.
  unfold try_except. unfold bind at 1.
  destruct (update_status_bad E aid "processing" w e Hk) as [Hr Ht].
  destruct (_update_analysis_status E aid "processing" w) as [r w1].
  cbn in Hr, Ht. subst r. unfold bind at 1.
  destruct (update_status_bad E aid "failed" w1 e Hk) as [Hr' Ht'].
  destruct (_update_analysis_status E aid "failed" w1) as [r' w2].
  cbn in Hr', Ht'. subst r'. exists w2. split; [reflexivity|congruence].
Qed.

Lemma lifecycle_nil : lifecycle [].
Proof. left. exists ["processing"; "done"]. reflexivity. Qed.

Lemma lifecycle_done : lifecycle ["processing"; "done"].
Proof. left. reflexivity. Qed.

Lemma lifecycle_failed : lifecycle ["processing"; "failed"].
Proof. right. reflexivity. Qed.

(** The events of one [process_job] are none when the job has no usable
    id or no input type, and otherwise those of [job_events]. *)
Lemma process_job_cases config E job w :
  ((job_key E job = None \/ exists e, getitem job "input_type" = Raise e)
   /\ trace (snd (process_job config E job w)) = trace w)
  \/ exists aid ity key tr r w1,
       getitem job "analysis_id" = Ok aid
       /\ getitem job "input_type" = Ok ity
       /\ UUID E aid = Ok key
       /\ dispatch config E ity job (status_set E key "processing" w) = (r, w1)
       /\ trace (snd (process_job config E job w)) = trace w ++ job_events key tr r.
Proof.
  unfold job_key.
  destruct (getitem job "analysis_id") as [aid|e] eqn:Haid.
  2:{ left. split; [left; reflexivity|].
      unfold process_job, bind at 1, lift at 1. rewrite Haid. reflexivity. }
  destruct (getitem job "input_type") as [ity|e] eqn:Hity.
  2:{ left. split; [right; exists e; reflexivity|].
      unfold process_job, bind at 1, lift at 1. rewrite Haid.
      unfold bind at 1, lift at 1. rewrite Hity. reflexivity. }
  destruct (UUID E aid) as [key|e] eqn:Hk.
  2:{ left. split; [left; reflexivity|].
      destruct (process_job_bad_uuid config E job aid ity e w Haid Hity Hk)
        as (w' & Hpj & Ht).
      rewrite Hpj. exact Ht. }
  right.
  destruct (dispatch_frame config E ity job (status_set E key "processing" w))
    as [tr Hframe].
  destruct (dispatch config E ity job (status_set E key "processing" w))
    as [r w1] eqn:Hd; cbn [snd] in Hframe.
  exists aid, ity, key, tr, r, w1.
  split; [reflexivity|]. split; [reflexivity|]. split; [exact Hk|].
  split; [exact Hd|].
  unfold job_events. destruct r as [results|e].
  - rewrite (process_job_done config E job aid ity key results w w1 Haid Hity Hk Hd).
    cbn [snd]. rewrite trace_status_set, trace_report_stored, Hframe.
    cbn [trace]. rewrite trace_status_set, <- !app_assoc. reflexivity.
  - rewrite (process_job_failed config E job aid ity key e w w1 Haid Hity Hk Hd).
    cbn [snd]. rewrite trace_report_stored, trace_status_set, Hframe.
    cbn [trace]. rewrite trace_status_set, <- !app_assoc. reflexivity.
Qed.

Lemma transitions_job_events key tr r :
  transitions (job_events key tr r)
  = [(key, "processing"); (key, match r with Ok _ => "done" | Raise _ => "failed" end)].
Proof.
  unfold job_events. rewrite !transitions_app, transitions_io.
  destruct r; reflexivity.
Qed.

(** The status updates that one [process_job] performs follow the life
    cycle queued, processing, then done or failed: there is none when the
    job cannot be identified, and otherwise processing is set first and
    exactly one terminal status after it, done when the pipeline returned
    and failed when it raised. *)
Lemma process_job_lifecycle (config : Config) (E : Env)
    (job : value) (w : World) :
  exists evs,
    trace (snd (process_job config E job w)) = trace w ++ evs
    /\ lifecycle (map snd (transitions evs))
    /\ (forall aid ity key,
          getitem job "analysis_id" = Ok aid ->
          getitem job "input_type" = Ok ity ->
          UUID E aid = Ok key ->
          exists terminal,
            transitions evs = [(key, "processing"); (key, terminal)]
            /\ (terminal = "done" \/ terminal = "failed")
            /\ (terminal = "done" <->
                exists results,
                  fst (dispatch config E ity job
                         (snd (_update_analysis_status E aid "processing" w)))
                  = Ok results)).
Proof.
  destruct (process_job_cases config E job w)
    as [[Hwhy Hnone]|(aid & ity & key & tr & r & w1 & Haid & Hity & Hk & Hd & Htrace)].
  - exists []. rewrite app_nil_r. split; [exact Hnone|].
    split; [apply lifecycle_nil|]. intros aid ity key Haid Hity Hk. exfalso.
    destruct Hwhy as [Hwhy|[e Hwhy]]; [|congruence].
    unfold job_key in Hwhy. rewrite Haid, Hk in Hwhy. discriminate.
  - exists (job_events key tr r). split; [exact Htrace|].
    rewrite transitions_job_events.
    split; [destruct r; [apply lifecycle_done|apply lifecycle_failed]|].
    intros aid' ity' key' Ha Hi Hk'.
    rewrite Haid in Ha. injection Ha as <-.
    rewrite Hity in Hi. injection Hi as <-.
    assert (key' = key) as -> by congruence.
    rewrite (update_status_ok E aid key "processing" w Hk). cbn [snd].
    rewrite Hd. cbn [fst].
    destruct r as [results|e].
    + exists "done". split; [reflexivity|]. split; [left; reflexivity|].
      split; [intros _; exists results; reflexivity|reflexivity].
    + exists "failed". split; [reflexivity|]. split; [right; reflexivity|].
      split; [discriminate|]. intros [results Hres]. discriminate.
Qed.

Lemma upsert_elem new rows :
  exists r, r ∈ upsert new rows
            /\ analysis_id r = analysis_id new
            /\ credibility_score r = credibility_score new
            /\ explanation r = explanation new.
Proof.
  induction rows as [|r0 rows IH]; cbn [upsert].
  - exists new. split; [left|]. repeat split; reflexivity.
  - destruct (N.eqb_spec (analysis_id r0) (analysis_id new)) as [Heq|Hne].
    + exists (on_conflict r0 new). split; [left|].
      split; [exact Heq|]. split; reflexivity.
    + destruct IH as (r & Hin & H). exists r. split; [right; exact Hin|exact H].
Qed.

(** One turn of the loop on an item never stops the worker. *)
Lemma iteration_item_running config E payload w :
  fst (iteration config E (Item payload) w) = Running.
Proof.
  cbn [iteration]. destruct (json_loads E payload) as [job|]; [|reflexivity].
  destruct (process_job config E job w) as [[u|e] w']; reflexivity.
Qed.

(** When a pipeline raises, the exception reaches the handler of
    [process_job] and goes no further. *)
Lemma process_job_contains config E job aid ity key e w w1 :
  getitem job "analysis_id" = Ok aid ->
  getitem job "input_type" = Ok ity ->
  UUID E aid = Ok key ->
  dispatch config E ity job (snd (_update_analysis_status E aid "processing" w))
  = (Raise e, w1) ->
  exists w',
    process_job config E job w = (Ok (), w')
    /\ (forall row, analyses w !! key = Some row ->
          exists row', analyses w' !! key = Some row' /\ status row' = "failed")
    /\ (exists r, r ∈ analysis_reports w'
                  /\ analysis_id r = key
                  /\ credibility_score r = None
                  /\ explanation r = ExplainError (exn_str e) "failed")
    /\ (forall payload rest,
          json_loads E payload = Some job ->
          iteration config E (Item payload) w = (Running, w')
          /\ start config E (Item payload :: rest) w = start config E rest w')
    /\ (forall payload w0, fst (iteration config E (Item payload) w0) = Running).
Proof.
  intros Haid Hity Hk Hd.
  rewrite (update_status_ok E aid key "processing" w Hk) in Hd. cbn [snd] in Hd.
  pose proof (process_job_failed config E job aid ity key e w w1 Haid Hity Hk Hd)
    as Hpj.
  eexists. split; [exact Hpj|]. split; [|split; [|split]].
  - intros row Hrow. rewrite analyses_report_stored, analyses_status_set.
    destruct (dispatch_frame config E ity job (status_set E key "processing" w))
      as [tr Hframe].
    rewrite Hd in Hframe. cbn [snd] in Hframe. rewrite Hframe. cbn [analyses].
    rewrite analyses_status_set, Hrow. cbn.
    eexists. split; reflexivity.
  - unfold report_stored. cbn [analysis_reports emit upsert_report].
    destruct (upsert_elem
                (report_row E key (ErrorResults (exn_str e))
                   (status_set E key "failed" w1))
                (analysis_reports
                   (snd (now E (snd (fresh_uuid E (status_set E key "failed" w1)))))))
      as (r & Hin & Hid & Hscore & Hexp).
    exists r. split; [exact Hin|]. split; [exact Hid|]. split; [exact Hscore|exact Hexp].
  - intros payload rest Hload.
    assert (Hit : iteration config E (Item payload) w
                  = (Running, report_stored E key (ErrorResults (exn_str e))
                                (status_set E key "failed" w1))).
    { cbn [iteration]. rewrite Hload, Hpj. reflexivity. }
    split; [exact Hit|]. cbn [start]. rewrite Hit. reflexivity.
  - intros payload w0. apply iteration_item_running.
Qed.

Lemma bind_raise_inv {S A B} (m : ST S A) (k : A -> ST S B) s e s' :
  bind m k s = (Raise e, s') ->
  m s = (Raise e, s') \/ exists a s1, m s = (Ok a, s1) /\ k a s1 = (Raise e, s').
Proof.
  unfold bind. destruct (m s) as [[a|e0] s1]; intros H.
  - right. exists a, s1. split; [reflexivity|exact H].
  - left. injection H as -> ->. reflexivity.
Qed.

Lemma run_raise_inv {A} (p : P A) w e w1 :
  run p w = (Raise e, w1) -> exists tr, p [] = (Raise e, tr).
Proof.
  unfold run. destruct (p []) as [r tr]. intros H. injection H as -> _.
  exists tr. reflexivity.
Qed.

Lemma lift_raise_inv {S A} (r : result A) (s : S) e s' :
  lift r s = (Raise e, s') -> r = Raise e.
Proof. unfold lift. intros H. injection H as -> _. reflexivity. Qed.

Lemma call_raise_inv {A} ev (r : result A) tr e tr' :
  call ev r tr = (Raise e, tr') -> r = Raise e.
Proof. unfold call. intros H. injection H as -> _. reflexivity. Qed.

Lemma get_video_info_raise E path tr e tr' :
  _get_video_info E path tr = (Raise e, tr') ->
  fst (probe_video E path tr) = Raise e /\ isinstance e probe_errors = false.
Proof.
  unfold _get_video_info, try_except.
  destruct (probe_video E path tr) as [[info|e0] tr0]; [discriminate|].
  destruct (isinstance e0 probe_errors) eqn:Hc; [discriminate|].
  intros H. injection H as <- _. split; [reflexivity|exact Hc].
Qed.

Lemma extract_frames_raise E path dir tr e tr' :
  _extract_frames E path dir tr = (Raise e, tr') ->
  ffmpeg_frames E path dir = Raise e /\ isinstance e [CalledProcessError] = false.
Proof.
  unfold _extract_frames, try_except, call.
  destruct (ffmpeg_frames E path dir) as [fs|e0]; [discriminate|].
  destruct (isinstance e0 [CalledProcessError]) eqn:Hc; [discriminate|].
  intros H. injection H as <- _. split; [reflexivity|exact Hc].
Qed.

Lemma extract_audio_raise E path audio tr e tr' :
  _extract_audio E path audio tr = (Raise e, tr') ->
  ffmpeg_audio E path audio = Raise e /\ isinstance e [CalledProcessError] = false.
Proof.
  unfold _extract_audio, try_except, call.
  destruct (ffmpeg_audio E path audio) as [u|e0]; [discriminate|].
  destruct (isinstance e0 [CalledProcessError]) eqn:Hc; [discriminate|].
  intros H. injection H as <- _. split; [reflexivity|exact Hc].
Qed.

Lemma transcribe_audio_returns E audio tr :
  exists t tr', _transcribe_audio E audio tr = (Ok t, tr').
Proof.
  unfold _transcribe_audio, try_except, bind, call, ret.
  destruct (recognize E audio) as [rs|e]; eexists; eexists; reflexivity.
Qed.

Lemma for_each_analyse_raise E xs tr e tr' :
  for_each (analyse_frame E) xs tr = (Raise e, tr') ->
  exists path, annotate_frame E path = Raise e.
Proof.
  revert tr. induction xs as [|x rest IH]; intros tr H; cbn [for_each] in H.
  - discriminate.
  - apply bind_raise_inv in H as [H|(y & tr1 & _ & H)].
    + unfold analyse_frame in H.
      apply bind_raise_inv in H as [H|(resp & tr1 & _ & H)]; [|discriminate].
      apply call_raise_inv in H. exists x. exact H.
    + apply bind_raise_inv in H as [H|(ys & tr2 & _ & H)]; [|discriminate].
      exact (IH tr1 H).
Qed.

Tactic Notation "source" integer(n) := unfold uncaught_source; do n right.

Lemma process_image_raise config E job e tr :
  process_image E job [] = (Raise e, tr) -> uncaught_source config E job e.
Proof.
  unfold process_image. intros H.
  apply bind_raise_inv in H as [H|(aid & tr0 & _ & H)].
  { apply lift_raise_inv in H. left. eexists. exact H. }
  apply bind_raise_inv in H as [H|(uri & tr1 & _ & H)].
  { apply lift_raise_inv in H. left. eexists. exact H. }
  apply bind_raise_inv in H as [H|(path & tr2 & _ & H)].
  { apply call_raise_inv in H. source 1. left. eexists. exact H. }
  apply bind_raise_inv in H as [H|(info & tr3 & _ & H)].
  { apply call_raise_inv in H. source 2. left. eexists. exact H. }
  apply bind_raise_inv in H as [H|(resp & tr4 & _ & H)].
  { apply call_raise_inv in H. source 3. left. eexists. exact H. }
  destruct (_calculate_image_credibility _ _). discriminate.
Qed.

Lemma process_text_raise config E job e tr :
  process_text E job [] = (Raise e, tr) -> uncaught_source config E job e.
Proof.
  unfold process_text. intros H.
  apply bind_raise_inv in H as [H|(aid & tr0 & _ & H)].
  { apply lift_raise_inv in H. left. eexists. exact H. }
  apply bind_raise_inv in H as [H|(uri & tr1 & _ & H)].
  { apply lift_raise_inv in H. left. eexists. exact H. }
  apply bind_raise_inv in H as [H|(path & tr2 & _ & H)].
  { apply call_raise_inv in H. source 1. left. eexists. exact H. }
  apply bind_raise_inv in H as [H|(text & tr3 & _ & H)].
  { apply call_raise_inv in H. source 4. left. eexists. exact H. }
  destruct (_calculate_text_credibility _ _ _). discriminate.
Qed.

Lemma process_video_raise config E job e tr :
  process_video config E job [] = (Raise e, tr) -> uncaught_source config E job e.
Proof.
  unfold process_video. intros H.
  apply bind_raise_inv in H as [H|(aid & tr0 & _ & H)].
  { apply lift_raise_inv in H. left. eexists. exact H. }
  apply bind_raise_inv in H as [H|(uri & tr1 & _ & H)].
  { apply lift_raise_inv in H. left. eexists. exact H. }
  apply bind_raise_inv in H as [H|(path & tr2 & _ & H)].
  { apply call_raise_inv in H. source 1. left. eexists. exact H. }
  apply bind_raise_inv in H as [H|(info & tr3 & _ & H)].
  { apply get_video_info_raise in H. source 5. left. eexists. eexists. exact H. }
  destruct (Qltb _ _).
  { unfold raise in H. injection H as <- _. source 6. left. eexists. reflexivity. }
  apply bind_raise_inv in H as [H|(made & tr4 & _ & H)].
  { apply call_raise_inv in H. source 7. left. eexists. exact H. }
  apply bind_raise_inv in H as [H|(frame_paths & tr5 & _ & H)].
  { apply extract_frames_raise in H. source 8. left. eexists. eexists. exact H. }
  apply bind_raise_inv in H as [H|(u & tr6 & _ & H)].
  { apply extract_audio_raise in H. source 9. left. eexists. eexists. exact H. }
  apply bind_raise_inv in H as [H|(frs & tr7 & _ & H)].
  { apply for_each_analyse_raise in H. source 10. left. exact H. }
  apply bind_raise_inv in H as [H|(t & tr8 & _ & H)].
  { exfalso. destruct (audio_size E _) as [n|]; [|discriminate].
    destruct (0 <? n)%Z; [|discriminate].
    destruct (transcribe_audio_returns E (temp_dir_of E job +:+ "/audio.wav") tr7)
      as (t & tr8 & Ht).
    rewrite Ht in H. discriminate. }
  destruct (_calculate_video_credibility _ _ _). discriminate.
Qed.

Lemma dispatch_raise config E ity job w e w1 :
  dispatch config E ity job w = (Raise e, w1) -> uncaught_source config E job e.
Proof.
  unfold dispatch.
  destruct (eq_str ity "image").
  { intros H. apply run_raise_inv in H as [tr H].
    exact (process_image_raise config E job e tr H). }
  destruct (eq_str ity "video").
  { intros H. apply run_raise_inv in H as [tr H].
    exact (process_video_raise config E job e tr H). }
  destruct (eq_str ity "text").
  { intros H. apply run_raise_inv in H as [tr H].
    exact (process_text_raise config E job e tr H). }
  unfold raise. intros H. injection H as <- _. source 11. eexists. reflexivity.
Qed.




(** ** A run of the consumer *)

Lemma transitions_of_app key evs1 evs2 :
  transitions_of key (evs1 ++ evs2)
  = transitions_of key evs1 ++ transitions_of key evs2.
Proof.
  unfold transitions_of. rewrite transitions_app, filter_app, map_app. reflexivity.
Qed.

Lemma transitions_of_pair key key' terminal evs :
  transitions evs = [(key', "processing"); (key', terminal)] ->
  transitions_of key evs
  = if decide (key' = key) then ["processing"; terminal] else [].
Proof.
  intros H. unfold transitions_of. rewrite H.
  rewrite 2!filter_cons, filter_nil. cbn [fst].
  destruct (decide (key' = key)); reflexivity.
Qed.

(** One turn of the loop sets no status, or the two statuses of the row
    that the delivered job names. *)
Lemma iteration_cases config E d w :
  exists evs,
    trace (snd (iteration config E d w)) = trace w ++ evs
    /\ (transitions evs = []
        \/ exists key terminal,
             delivered_key E d = Some key
             /\ transitions evs = [(key, "processing"); (key, terminal)]
             /\ (terminal = "done" \/ terminal = "failed")).
Proof.
  destruct d as [|payload|e|]; cbn [iteration delivered_key].
  - exists [Sleep 1]. split; [reflexivity|left; reflexivity].
  - destruct (json_loads E payload) as [job|].
    2:{ exists [Sleep 5]. split; [reflexivity|left; reflexivity]. }
    destruct (process_job_cases config E job w)
      as [[_ Hnone]|(aid & ity & key & tr & r & w1 & Haid & _ & Hk & _ & Htrace)].
    + destruct (process_job config E job w) as [[u|e] w'] eqn:Hpj; cbn [snd] in *.
      * exists []. rewrite app_nil_r. split; [exact Hnone|left; reflexivity].
      * exists [Sleep 5]. cbn [trace emit]. rewrite Hnone.
        split; [reflexivity|left; reflexivity].
    + assert (Hkey : job_key E job = Some key)
        by (unfold job_key; rewrite Haid, Hk; reflexivity).
      assert (Hterm : exists terminal,
                 transitions (job_events key tr r)
                 = [(key, "processing"); (key, terminal)]
                 /\ (terminal = "done" \/ terminal = "failed")).
      { rewrite transitions_job_events.
        destruct r; eexists; (split; [reflexivity|]); [left|right]; reflexivity. }
      destruct Hterm as (terminal & Htr & Hterm).
      destruct (process_job config E job w) as [[u|e] w'] eqn:Hpj; cbn [snd] in *.
      * exists (job_events key tr r). split; [exact Htrace|].
        right. exists key, terminal. split; [exact Hkey|]. split; assumption.
      * exists (job_events key tr r ++ [Sleep 5]). cbn [trace emit].
        rewrite Htrace, <- app_assoc. split; [reflexivity|].
        right. exists key, terminal. split; [exact Hkey|].
        split; [|exact Hterm]. rewrite transitions_app, Htr. reflexivity.
  - exists [Sleep 5]. split; [reflexivity|left; reflexivity].
  - exists []. rewrite app_nil_r. split; [reflexivity|left; reflexivity].
Qed.

(** ** Deliveries and the life cycle *)

Lemma rounds_app (ts1 ts2 : list string) :
  rounds (ts1 ++ ts2) = rounds ts1 ++ rounds ts2.
Proof. unfold rounds. rewrite map_app, concat_app. reflexivity. Qed.

Lemma rounds_lifecycle (terminals : list string) :
  Forall (fun t => t = "done" \/ t = "failed") terminals ->
  (length terminals <= 1)%nat ->
  lifecycle (rounds terminals).
Proof.
  intros Hall Hlen. destruct terminals as [|t [|t' ts]]; cbn [length] in Hlen.
  - apply lifecycle_nil.
  - apply Forall_cons in Hall as [[->| ->] _];
      [apply lifecycle_done|apply lifecycle_failed].
  - lia.
Qed.

Lemma deliveries_cons E key d rest :
  deliveries E key (d :: rest)
  = ((if bool_decide (delivered_key E d = Some key) then 1 else 0)
     + deliveries E key rest)%nat.
Proof.
  unfold deliveries. cbn [omap list_omap].
  destruct (delivered_key E d) as [k|].
  - rewrite filter_cons. destruct (decide (k = key)) as [->|Hne].
    + rewrite bool_decide_eq_true_2 by reflexivity. reflexivity.
    + rewrite bool_decide_eq_false_2 by congruence. reflexivity.
  - rewrite bool_decide_eq_false_2 by discriminate. reflexivity.
Qed.

(** In any run the statuses set for a row are rounds of processing and a
    terminal status, at most one round for each delivery of the row. *)
Lemma start_rounds config E queue w :
  exists evs,
    trace (snd (start config E queue w)) = trace w ++ evs
    /\ forall key, exists terminals,
         transitions_of key evs = rounds terminals
         /\ Forall (fun t => t = "done" \/ t = "failed") terminals
         /\ (length terminals <= deliveries E key queue)%nat.
Proof.
  revert w. induction queue as [|d rest IH]; intros w.
  { exists []. rewrite app_nil_r. split; [reflexivity|].
    intros key. exists []. split; [reflexivity|]. split; [constructor|].
    cbn. lia. }
  cbn [start].
  destruct (iteration_cases config E d w) as (evs_d & Htrace_d & Hd).
  assert (Hone : forall key, exists terminals,
             transitions_of key evs_d = rounds terminals
             /\ Forall (fun t => t = "done" \/ t = "failed") terminals
             /\ (length terminals
                 <= if bool_decide (delivered_key E d = Some key) then 1 else 0)%nat).
  { intros key. destruct Hd as [Hd|(key' & terminal & Hkey & Hd & Hterm)].
    - exists []. unfold transitions_of. rewrite Hd.
      split; [reflexivity|]. split; [constructor|]. cbn. lia.
    - rewrite (transitions_of_pair key key' terminal evs_d Hd).
      destruct (decide (key' = key)) as [->|Hne].
      + exists [terminal]. split; [reflexivity|].
        split; [constructor; [exact Hterm|constructor]|].
        rewrite bool_decide_eq_true_2 by exact Hkey. cbn. lia.
      + exists []. split; [reflexivity|]. split; [constructor|]. cbn. lia. }
  destruct (iteration config E d w) as [[|] w'] eqn:Hit; cbn [snd] in Htrace_d.
  - destruct (IH w') as (evs_r & Htrace_r & Hr).
    exists (evs_d ++ evs_r). rewrite Htrace_r, Htrace_d, <- app_assoc.
    split; [reflexivity|]. intros key.
    destruct (Hone key) as (ts_d & Hts_d & Hall_d & Hlen_d).
    destruct (Hr key) as (ts_r & Hts_r & Hall_r & Hlen_r).
    exists (ts_d ++ ts_r).
    rewrite transitions_of_app, rounds_app, Hts_d, Hts_r.
    split; [reflexivity|]. split; [apply Forall_app; split; assumption|].
    rewrite length_app, deliveries_cons. lia.
  - exists evs_d. cbn [snd]. split; [exact Htrace_d|]. intros key.
    destruct (Hone key) as (ts_d & Hts_d & Hall_d & Hlen_d).
    exists ts_d. split; [exact Hts_d|]. split; [exact Hall_d|].
    rewrite deliveries_cons. lia.
Qed.

(** C7, the claim as first stated fails: the queue delivers the same job
    twice in one run; the row is set to processing again after it was
    done, so that the statuses set for the job are not a prefix of
    queued, processing, done or failed. *)
Lemma redelivery_repeats_transitions :
  let w' := snd (start default_config Sample.short_clip
                   [Item "<job>"; Item "<job>"] Sample.queued_world) in
  transitions_of 42 (trace w') = ["processing"; "done"; "processing"; "done"]
  /\ ~ lifecycle (transitions_of 42 (trace w')).
Proof.
  cbv zeta.
  assert (H : transitions_of 42
                (trace (snd (start default_config Sample.short_clip
                               [Item "<job>"; Item "<job>"] Sample.queued_world)))
              = ["processing"; "done"; "processing"; "done"])
    by (vm_compute; reflexivity).
  split; [exact H|]. rewrite H.
  intros [[k Hk]|[k Hk]]; cbn in Hk; discriminate Hk.
Qed.

(** C7, amended. The statuses set for a job follow the life cycle once
    for each delivery of the job. One [process_job] sets no status when
    the job cannot be identified, and otherwise processing first and
    exactly one terminal status after it, done when the pipeline returned
    and failed when it raised. In a run the statuses set for a row are
    such rounds, at most one for each delivery of the row; for a row
    delivered at most once they are a prefix of queued, processing, done
    or failed, and nothing follows the terminal status. *)
Theorem transitions_follow_lifecycle_per_delivery (config : Config) (E : Env) :
  (forall job w, exists evs,
     trace (snd (process_job config E job w)) = trace w ++ evs
     /\ lifecycle (map snd (transitions evs))
     /\ (forall aid ity key,
           getitem job "analysis_id" = Ok aid ->
           getitem job "input_type" = Ok ity ->
           UUID E aid = Ok key ->
           exists terminal,
             transitions evs = [(key, "processing"); (key, terminal)]
             /\ (terminal = "done" \/ terminal = "failed")
             /\ (terminal = "done" <->
                 exists results,
                   fst (dispatch config E ity job
                          (snd (_update_analysis_status E aid "processing" w)))
                   = Ok results)))
  /\ (forall queue w, exists evs,
        trace (snd (start config E queue w)) = trace w ++ evs
        /\ forall key, exists terminals,
             transitions_of key evs = rounds terminals
             /\ Forall (fun t => t = "done" \/ t = "failed") terminals
             /\ (length terminals <= deliveries E key queue)%nat
             /\ ((deliveries E key queue <= 1)%nat ->
                 lifecycle (transitions_of key evs))).
Proof.
  split.
  - intros job w. apply process_job_lifecycle.
  - intros queue w.
    destruct (start_rounds config E queue w) as (evs & Htrace & Hkeys).
    exists evs. split; [exact Htrace|]. intros key.
    destruct (Hkeys key) as (ts & Hts & Hall & Hlen).
    exists ts. split; [exact Hts|]. split; [exact Hall|]. split; [exact Hlen|].
    intros Hone. rewrite Hts. apply rounds_lifecycle; [exact Hall|lia].
Qed.

(** * Further properties of the pipeline *)

(** ** What a listed factor costs *)

Lemma fold_left_Qplus_shift (xs : list Q) (a : Q) :
  (fold_left Qplus xs a == a + fold_left Qplus xs 0)%Q.
Proof.
  revert a. induction xs as [|x xs IH]; intros a; cbn [fold_left].
  - lra.
  - rewrite (IH (a + x)%Q), (IH (0 + x)%Q). lra.
Qed.

Lemma py_sum_cons (x : Q) (xs : list Q) : (py_sum (x :: xs) == x + py_sum xs)%Q.
Proof.
  unfold py_sum. cbn [fold_left]. rewrite fold_left_Qplus_shift. lra.
Qed.

Lemma total_penalty_cons (f : Factor) (fs : list Factor) :
  (total_penalty (f :: fs) == spec_penalty f + total_penalty fs)%Q.
Proof. unfold total_penalty. cbn [map]. apply py_sum_cons. Qed.

Lemma total_penalty_nonneg (fs : list Factor) :
  Forall (fun f => (0 < spec_penalty f)%Q) fs -> (0 <= total_penalty fs)%Q.
Proof.
  induction fs as [|f fs IH]; intros Hpos.
  - unfold total_penalty, py_sum. cbn. lra.
  - apply Forall_cons in Hpos as [Hf Hfs]. rewrite total_penalty_cons.
    specialize (IH Hfs). lra.
Qed.

Lemma total_penalty_elem (fs : list Factor) (f : Factor) :
  Forall (fun f => (0 < spec_penalty f)%Q) fs -> f ∈ fs ->
  (spec_penalty f <= total_penalty fs)%Q.
Proof.
  induction fs as [|g fs IH]; intros Hpos Hin.
  - apply elem_of_nil in Hin. contradiction.
  - apply Forall_cons in Hpos as [Hg Hfs]. rewrite total_penalty_cons.
    apply elem_of_cons in Hin as [->|Hin].
    + pose proof (total_penalty_nonneg fs Hfs). lra.
    + specialize (IH Hfs Hin). lra.
Qed.

Lemma spec_penalty_le (f : Factor) : (spec_penalty f <= 0.6)%Q.
Proof.
  destruct f; cbn [spec_penalty]; try lra.
  unfold py_min. destruct (Qltb _ _) eqn:H; [|lra].
  apply Qltb_lt in H. lra.
Qed.

Lemma clamp_le (raw u : Q) : (raw <= u)%Q -> (0 <= u)%Q -> (clamp raw <= u)%Q.
Proof.
  intros Hraw Hu. unfold clamp, py_max, py_min.
  destruct (Qltb raw 1.0) eqn:H1.
  - destruct (Qltb 0.0 raw) eqn:H0; lra.
  - destruct (Qltb 0.0 1.0) eqn:H0; [|lra].
    apply Qltb_ge in H1. lra.
Qed.

Lemma scored_factor_cost (base score : Q) (factors : list Factor) (f : Factor) :
  (0.6 <= base)%Q -> scored base score factors -> f ∈ factors ->
  (score <= base - spec_penalty f)%Q.
Proof.
  intros Hbase (_ & raw & -> & Hraw & Hpos) Hin. cbn [fst snd] in Hraw, Hpos.
  pose proof (total_penalty_elem factors f Hpos Hin) as Hle.
  pose proof (spec_penalty_le f) as Hmax.
  apply clamp_le; lra.
Qed.

(** ** When each image and video rule fires *)

Lemma penalise_factors p g a f :
  f ∈ snd (penalise p g a) <-> f ∈ snd a \/ f = g.
Proof.
  unfold penalise. cbn [snd]. rewrite elem_of_app, list_elem_of_singleton. tauto.
Qed.

Lemma image_faces_factors fs a f :
  f ∈ snd (image_faces fs a) <->
  f ∈ snd a
  \/ (f = LowFaceDetectionConfidence /\ fs <> [] /\ (avg_confidence fs < 0.7)%Q)
  \/ (f = BlurredFacesDetected (blurred_faces fs) /\ (0 < blurred_faces fs)%nat).
Proof.
  unfold image_faces. destruct fs as [|f0 fs'].
  { cbn. split; [tauto|]. intros [H|[(_ & H & _)|(_ & H)]]; [exact H|congruence|lia]. }
  cbn [list_truthy]. set (fs := f0 :: fs').
  assert (Hne : fs <> []) by discriminate.
  assert (Havg : Qltb (avg_confidence fs) 0.7 = true
                 <-> (avg_confidence fs < 0.7)%Q) by apply Qltb_lt.
  destruct (Qltb (avg_confidence fs) 0.7);
    destruct (Nat.ltb_spec 0 (blurred_faces fs)) as [Hbl|Hbl];
    rewrite ?penalise_factors.
  - tauto.
  - split; [tauto|]. intros [H|[H|[_ H]]]; [tauto|tauto|lia].
  - split; [tauto|]. intros [H|[(_ & _ & H)|H]]; [tauto| |tauto].
    apply Havg in H. discriminate.
  - split; [tauto|]. intros [H|[(_ & _ & H)|[_ H]]]; [tauto| |lia].
    apply Havg in H. discriminate.
Qed.

Lemma image_spoof_factors s a f :
  f ∈ snd (image_spoof s a) <->
  f ∈ snd a \/ (f = PotentialSpoofing /\ spoof_flagged s = true).
Proof.
  unfold image_spoof. destruct (spoof_flagged s); rewrite ?penalise_factors.
  - tauto.
  - split; [tauto|]. intros [H|[_ H]]; [exact H|discriminate].
Qed.

Lemma image_labels_factors ls a f :
  f ∈ snd (image_labels ls a) <->
  f ∈ snd a
  \/ (f = ArtificialContent (map description (artificial_labels_of ls))
      /\ artificial_labels_of ls <> []).
Proof.
  unfold image_labels. destruct (artificial_labels_of ls) as [|l ls'] eqn:Ha;
    cbn [list_truthy]; rewrite ?penalise_factors.
  - split; [tauto|]. intros [H|[_ H]]; [exact H|congruence].
  - split; [|tauto]. intros [H|H]; [left; exact H|right]. split; [exact H|discriminate].
Qed.

(** The factor list of image scoring, rule by rule. *)
Lemma image_factors vr info f :
  f ∈ image_primary_factors (snd (_calculate_image_credibility vr info)) <->
  (f = LowFaceDetectionConfidence /\ faces vr <> []
   /\ (avg_confidence (faces vr) < 0.7)%Q)
  \/ (f = BlurredFacesDetected (blurred_faces (faces vr))
      /\ (0 < blurred_faces (faces vr))%nat)
  \/ (f = PotentialSpoofing /\ spoof_flagged (safe_search vr) = true)
  \/ (f = ArtificialContent (map description (artificial_labels_of (labels vr)))
      /\ artificial_labels_of (labels vr) <> []).
Proof.
  unfold _calculate_image_credibility.
  destruct (image_penalties vr) as [raw factors] eqn:Hp.
  cbn [snd image_primary_factors].
  change factors with (snd (raw, factors)). rewrite <- Hp.
  unfold image_penalties.
  rewrite image_labels_factors, image_spoof_factors, image_faces_factors.
  cbn [snd]. rewrite elem_of_nil. tauto.
Qed.

Lemma float_of_nat_S (n : nat) : (float_of_nat (S n) == 1 + float_of_nat n)%Q.
Proof.
  unfold float_of_nat. rewrite Nat2Z.inj_succ, <- Z.add_1_l, inject_Z_plus.
  reflexivity.
Qed.

Lemma float_of_nat_pos (n : nat) : (0 < n)%nat -> (0 < float_of_nat n)%Q.
Proof.
  intros H. unfold float_of_nat. change 0%Q with (inject_Z 0).
  rewrite <- Zlt_Qlt. lia.
Qed.

Lemma video_faces_factors frs a f :
  f ∈ snd (video_faces frs a) <->
  f ∈ snd a
  \/ (f = InconsistentFaceDetection /\ (2 < face_spread frs)%Z)
  \/ (f = LowAverageFaceConfidence /\ all_faces frs <> []
      /\ (avg_confidence (all_faces frs) < 0.6)%Q).
Proof.
  unfold video_faces, face_spread. fold (all_faces frs).
  destruct frs as [|fr frs'].
  { cbn. split; [tauto|]. intros [H|[[_ H]|(_ & H & _)]]; [exact H|lia|congruence]. }
  cbn [map].
  set (c := Z.of_nat (length (frame_faces fr))).
  set (cs := map (fun fr0 => Z.of_nat (length (frame_faces fr0))) frs').
  set (fs := all_faces (fr :: frs')).
  assert (Havg : Qltb (avg_confidence fs) 0.6 = true
                 <-> (avg_confidence fs < 0.6)%Q) by apply Qltb_lt.
  assert (Hall : list_truthy fs = true <-> fs <> []).
  { destruct fs; cbn; split; congruence. }
  destruct (Z.ltb_spec 2 (max_of c cs - min_of c cs)) as [Hsp|Hsp];
    destruct (list_truthy fs);
    try destruct (Qltb (avg_confidence fs) 0.6);
    rewrite ?penalise_factors.
  - tauto.
  - split; [tauto|]. intros [H|[H|(_ & _ & H)]]; [tauto|tauto|].
    apply Havg in H. discriminate.
  - split; [tauto|]. intros [H|[H|(_ & H & _)]]; [tauto|tauto|].
    apply Hall in H. discriminate.
  - split; [tauto|]. intros [H|[H|(_ & H & _)]]; [tauto|tauto|].
    apply Hall in H. discriminate.
  - split; [|intros [H|[[_ H]|H]]; [tauto|lia|tauto]]. tauto.
  - split; [tauto|]. intros [H|[[_ H]|(_ & _ & H)]]; [tauto|lia|].
    apply Havg in H. discriminate.
  - split; [tauto|]. intros [H|[[_ H]|(_ & H & _)]]; [tauto|lia|].
    apply Hall in H. discriminate.
  - split; [tauto|]. intros [H|[[_ H]|(_ & H & _)]]; [tauto|lia|].
    apply Hall in H. discriminate.
Qed.

Lemma video_transcript_factors t a f :
  f ∈ snd (video_transcript t a) <->
  f ∈ snd a
  \/ (f = AISpeechPatterns /\ t <> ""
      /\ existsb (fun phrase => contains phrase (lower t)) ai_phrases = true).
Proof.
  unfold video_transcript, str_truthy.
  destruct (decide (t = "")) as [->|Hne].
  { cbn. split; [tauto|]. intros [H|(_ & H & _)]; [exact H|congruence]. }
  rewrite bool_decide_eq_false_2 by exact Hne. cbn [negb].
  destruct (existsb _ ai_phrases); rewrite ?penalise_factors.
  - tauto.
  - split; [tauto|]. intros [H|(_ & _ & H)]; [exact H|discriminate].
Qed.

Lemma video_quality_factors vi a f :
  f ∈ snd (video_quality vi a) <->
  f ∈ snd a \/ (f = LowResolutionVideo /\ (width vi < 720)%Z).
Proof.
  unfold video_quality.
  destruct (Z.ltb_spec (width vi) 720) as [H|H]; rewrite ?penalise_factors.
  - tauto.
  - split; [tauto|]. intros [H'|[_ H']]; [exact H'|lia].
Qed.

(** The factor list of video scoring, rule by rule. *)
Lemma video_factors frs t vi f :
  f ∈ video_primary_factors (snd (_calculate_video_credibility frs t vi)) <->
  (f = InconsistentFaceDetection /\ (2 < face_spread frs)%Z)
  \/ (f = LowAverageFaceConfidence /\ all_faces frs <> []
      /\ (avg_confidence (all_faces frs) < 0.6)%Q)
  \/ (f = AISpeechPatterns /\ t <> ""
      /\ existsb (fun phrase => contains phrase (lower t)) ai_phrases = true)
  \/ (f = LowResolutionVideo /\ (width vi < 720)%Z).
Proof.
  unfold _calculate_video_credibility.
  destruct (video_penalties frs t vi) as [raw factors] eqn:Hp.
  cbn [snd video_primary_factors].
  change factors with (snd (raw, factors)). rewrite <- Hp.
  unfold video_penalties.
  rewrite video_quality_factors, video_transcript_factors, video_faces_factors.
  cbn [snd]. rewrite elem_of_nil. tauto.
Qed.

Lemma spoof_flagged_name (l : Likelihood) :
  bool_decide (likelihood_name l ∈ ["LIKELY"; "VERY_LIKELY"]) = at_least_likely l.
Proof. destruct l; reflexivity. Qed.

(** The spoof rule fires exactly for the safe-search likelihoods LIKELY
    and VERY_LIKELY, and then the image scores at most 0.4. *)
Theorem spoof_rule_exact (response : AnnotateResponse) (image_info : ImageInfo) :
  let vr := vision_results_of response in
  let result := _calculate_image_credibility vr image_info in
  (PotentialSpoofing ∈ image_primary_factors (snd result)
   <-> at_least_likely (sa_spoof (safe_search_annotation response)) = true)
  /\ (at_least_likely (sa_spoof (safe_search_annotation response)) = true ->
      (fst result <= 0.4)%Q).
Proof.
  cbv zeta.
  assert (Hiff : PotentialSpoofing
                   ∈ image_primary_factors
                       (snd (_calculate_image_credibility
                               (vision_results_of response) image_info))
                 <-> at_least_likely (sa_spoof (safe_search_annotation response))
                     = true).
  { rewrite image_factors. unfold spoof_flagged.
    cbn [safe_search vision_results_of spoof _process_safe_search].
    rewrite spoof_flagged_name. split.
    - intros [[H _]|[[H _]|[[_ H]|[H _]]]]; try discriminate. exact H.
    - intros H. right; right; left. split; [reflexivity|exact H]. }
  split; [exact Hiff|]. intros Hl. apply Hiff in Hl.
  unfold _calculate_image_credibility in *.
  pose proof (image_penalties_accounted (vision_results_of response)) as Hacc.
  destruct (image_penalties (vision_results_of response)) as [raw factors].
  cbn [fst snd image_primary_factors] in *.
  pose proof (scored_factor_cost 0.8 (clamp raw) factors PotentialSpoofing
                ltac:(lra) (scored_of_accounted 0.8 raw factors Hacc) Hl) as H.
  cbn [spec_penalty] in H. lra.
Qed.

Lemma max_of_spec (x : Z) (xs : list Z) :
  In (max_of x xs) (x :: xs) /\ forall y, In y (x :: xs) -> (y <= max_of x xs)%Z.
Proof.
  unfold max_of. revert x. induction xs as [|z xs IH]; intros x; cbn [fold_left].
  - split; [left; reflexivity|]. intros y [->|[]]. lia.
  - destruct (IH (Z.max x z)) as [Hin Hle]. split.
    + destruct Hin as [Heq|Hin].
      * rewrite <- Heq. destruct (Z.max_spec x z) as [[_ ->]|[_ ->]];
          [right; left|left]; reflexivity.
      * right; right. exact Hin.
    + intros y [->|[->|Hy]].
      * specialize (Hle (Z.max y z) (or_introl eq_refl)). lia.
      * specialize (Hle (Z.max x y) (or_introl eq_refl)). lia.
      * apply Hle. right. exact Hy.
Qed.

Lemma min_of_spec (x : Z) (xs : list Z) :
  In (min_of x xs) (x :: xs) /\ forall y, In y (x :: xs) -> (min_of x xs <= y)%Z.
Proof.
  unfold min_of. revert x. induction xs as [|z xs IH]; intros x; cbn [fold_left].
  - split; [left; reflexivity|]. intros y [->|[]]. lia.
  - destruct (IH (Z.min x z)) as [Hin Hle]. split.
    + destruct Hin as [Heq|Hin].
      * rewrite <- Heq. destruct (Z.min_spec x z) as [[_ ->]|[_ ->]];
          [left|right; left]; reflexivity.
      * right; right. exact Hin.
    + intros y [->|[->|Hy]].
      * specialize (Hle (Z.min y z) (or_introl eq_refl)). lia.
      * specialize (Hle (Z.min x y) (or_introl eq_refl)). lia.
      * apply Hle. right. exact Hy.
Qed.

Lemma face_spread_spec (frs : list FrameResult) :
  (2 < face_spread frs)%Z <->
  exists fr1 fr2,
    In fr1 frs /\ In fr2 frs
    /\ (length (frame_faces fr2) + 2 < length (frame_faces fr1))%nat.
Proof.
  unfold face_spread.
  set (count := fun fr => Z.of_nat (length (frame_faces fr))).
  destruct (map count frs) as [|c cs] eqn:Hm.
  { destruct frs; [|discriminate]. split; [lia|]. intros (fr1 & _ & [] & _). }
  destruct (max_of_spec c cs) as [Hmax_in Hmax].
  destruct (min_of_spec c cs) as [Hmin_in Hmin].
  rewrite <- Hm in Hmax_in, Hmax, Hmin_in, Hmin. split.
  - intros Hsp.
    apply in_map_iff in Hmax_in as (fr1 & H1 & Hin1).
    apply in_map_iff in Hmin_in as (fr2 & H2 & Hin2).
    exists fr1, fr2. split; [exact Hin1|]. split; [exact Hin2|].
    unfold count in H1, H2. lia.
  - intros (fr1 & fr2 & Hin1 & Hin2 & Hlt).
    assert (H1 : (count fr1 <= max_of c cs)%Z)
      by (apply Hmax, in_map_iff; exists fr1; split; [reflexivity|exact Hin1]).
    assert (H2 : (min_of c cs <= count fr2)%Z)
      by (apply Hmin, in_map_iff; exists fr2; split; [reflexivity|exact Hin2]).
    unfold count in H1, H2. lia.
Qed.

(** Video scoring reports inconsistent face detection exactly when two
    analysed frames differ by more than two faces. *)
Theorem inconsistent_faces_rule (frs : list FrameResult) (t : string)
    (vi : VideoInfo) :
  InconsistentFaceDetection
    ∈ video_primary_factors (snd (_calculate_video_credibility frs t vi))
  <-> exists fr1 fr2,
        In fr1 frs /\ In fr2 frs
        /\ (length (frame_faces fr2) + 2 < length (frame_faces fr1))%nat.
Proof.
  rewrite video_factors, <- face_spread_spec. split.
  - intros [[_ H]|[[H _]|[[H _]|[H _]]]]; try discriminate. exact H.
  - intros H. left. split; [reflexivity|exact H].
Qed.

(** A video whose metadata probe degraded to the zeroed values is always
    reported as low resolution and scores at most 0.65; in general the
    low-resolution factor is listed exactly for a width below 720. *)
Theorem degraded_probe_low_resolution :
  (forall frs t vi,
     LowResolutionVideo
       ∈ video_primary_factors (snd (_calculate_video_credibility frs t vi))
     <-> (width vi < 720)%Z)
  /\ (forall frs t,
        LowResolutionVideo
          ∈ video_primary_factors
              (snd (_calculate_video_credibility frs t zeroed_video_info))
        /\ (fst (_calculate_video_credibility frs t zeroed_video_info) <= 0.65)%Q).
Proof.
  assert (Hiff : forall frs t vi,
             LowResolutionVideo
               ∈ video_primary_factors (snd (_calculate_video_credibility frs t vi))
             <-> (width vi < 720)%Z).
  { intros frs t vi. rewrite video_factors. split.
    - intros [[H _]|[[H _]|[[H _]|[_ H]]]]; try discriminate. exact H.
    - intros H. right; right; right. split; [reflexivity|exact H]. }
  split; [exact Hiff|]. intros frs t.
  assert (Hin : LowResolutionVideo
                  ∈ video_primary_factors
                      (snd (_calculate_video_credibility frs t zeroed_video_info)))
    by (apply Hiff; cbn; lia).
  split; [exact Hin|].
  unfold _calculate_video_credibility in *.
  pose proof (video_penalties_accounted frs t zeroed_video_info) as Hacc.
  destruct (video_penalties frs t zeroed_video_info) as [raw factors].
  cbn [fst snd video_primary_factors] in *.
  pose proof (scored_factor_cost 0.75 (clamp raw) factors LowResolutionVideo
                ltac:(lra) (scored_of_accounted 0.75 raw factors Hacc) Hin) as H.
  cbn [spec_penalty] in H. lra.
Qed.

(** ** The base score *)

Lemma clamp_between (raw : Q) : (0 <= raw <= 1)%Q -> (clamp raw == raw)%Q.
Proof.
  intros [H0 H1]. unfold clamp, py_max, py_min.
  destruct (Qltb raw 1.0) eqn:Hhi.
  - destruct (Qltb 0.0 raw) eqn:Hlo; [reflexivity|].
    apply Qltb_ge in Hlo. lra.
  - apply Qltb_ge in Hhi. destruct (Qltb 0.0 1.0) eqn:Hlo; [lra|].
    apply Qltb_ge in Hlo. lra.
Qed.

Lemma scored_base_iff (base score : Q) (factors : list Factor) :
  (0.6 <= base <= 1)%Q -> scored base score factors ->
  (factors = [] <-> (score == base)%Q).
Proof.
  intros Hbase Hscored. split.
  - intros ->. destruct Hscored as (_ & raw & -> & Hraw & _).
    cbn [fst snd] in Hraw. unfold total_penalty, py_sum in Hraw.
    cbn [map fold_left] in Hraw.
    rewrite clamp_between; lra.
  - intros Heq. destruct factors as [|f fs]; [reflexivity|exfalso].
    pose proof (scored_factor_cost base score (f :: fs) f ltac:(lra) Hscored
                  ltac:(left)) as Hle.
    destruct Hscored as (_ & raw & _ & _ & Hpos). cbn [snd] in Hpos.
    apply Forall_cons in Hpos as [Hf _]. lra.
Qed.

(** A scoring function returns exactly its base score (0.8, 0.75, 0.9) if
    and only if it lists no factor; for a text this is also exactly when
    the structure analysis reads normal. *)
Theorem base_score_iff_no_factor :
  (forall vr info,
     image_primary_factors (snd (_calculate_image_credibility vr info)) = []
     <-> (fst (_calculate_image_credibility vr info) == 0.8)%Q)
  /\ (forall frs t vi,
        video_primary_factors (snd (_calculate_video_credibility frs t vi)) = []
        <-> (fst (_calculate_video_credibility frs t vi) == 0.75)%Q)
  /\ (forall text stats ms,
        (text_primary_factors (snd (_calculate_text_credibility text stats ms)) = []
         <-> (fst (_calculate_text_credibility text stats ms) == 0.9)%Q)
        /\ (structure_analysis (snd (_calculate_text_credibility text stats ms))
            = "normal"
            <-> (fst (_calculate_text_credibility text stats ms) == 0.9)%Q)).
Proof.
  split; [|split].
  - intros vr info. unfold _calculate_image_credibility.
    pose proof (image_penalties_accounted vr) as H.
    destruct (image_penalties vr) as [raw factors]. cbn [fst snd image_primary_factors].
    apply scored_base_iff; [lra|]. apply scored_of_accounted, H.
  - intros frs t vi. unfold _calculate_video_credibility.
    pose proof (video_penalties_accounted frs t vi) as H.
    destruct (video_penalties frs t vi) as [raw factors].
    cbn [fst snd video_primary_factors].
    apply scored_base_iff; [lra|]. apply scored_of_accounted, H.
  - intros text stats ms. unfold _calculate_text_credibility.
    pose proof (text_penalties_accounted text stats ms) as H.
    destruct (text_penalties text stats ms) as [raw factors].
    cbn [fst snd text_primary_factors structure_analysis].
    assert (Hiff : factors = [] <-> (clamp raw == 0.9)%Q)
      by (apply scored_base_iff; [lra|]; apply scored_of_accounted, H).
    split; [exact Hiff|]. rewrite <- Hiff.
    destruct factors; cbn [list_truthy]; split; congruence.
Qed.

(** ** The text pipeline *)

Lemma contains_cons p c t :
  contains p (String c t) = String.prefix p (String c t) || contains p t.
Proof. reflexivity. Qed.

Lemma contains_nil p : p <> "" -> contains p "" = false.
Proof. intros Hp. destruct p; [congruence|reflexivity]. Qed.

Lemma findall_from_elem p k s m :
  m ∈ findall_from p k s -> m = p /\ contains p s = true.
Proof.
  revert k. induction s as [|c t IH]; intros k Hin; cbn [findall_from] in Hin.
  { apply elem_of_nil in Hin. contradiction. }
  rewrite contains_cons. destruct k as [|k].
  - destruct (String.prefix p (String c t)) eqn:Hpre.
    + apply elem_of_cons in Hin as [->|Hin]; [split; reflexivity|].
      destruct (IH _ Hin) as [-> _]. split; reflexivity.
    + destruct (IH _ Hin) as [-> Hc]. rewrite Hc. split; reflexivity.
  - destruct (IH _ Hin) as [-> Hc]. rewrite Hc, orb_true_r. split; reflexivity.
Qed.

Lemma findall_complete p s :
  p <> "" -> contains p s = true -> p ∈ findall p s.
Proof.
  intros Hp. unfold findall. induction s as [|c t IH]; intros Hc.
  - rewrite contains_nil in Hc by exact Hp. discriminate.
  - rewrite contains_cons in Hc. cbn [findall_from].
    destruct (String.prefix p (String c t)); [left|].
    apply IH. exact Hc.
Qed.

Lemma ai_patterns_nonempty p : p ∈ ai_patterns -> p <> "".
Proof.
  intros Hin. unfold ai_patterns in Hin.
  repeat (apply elem_of_cons in Hin as [->|Hin]; [discriminate|]).
  apply elem_of_nil in Hin. contradiction.
Qed.

(** The matches that the text pipeline collects are exactly the
    disclaimer phrases that occur in the lower-cased text. *)
Theorem pattern_matches_exact (text_content m : string) :
  m ∈ pattern_matches_of text_content
  <-> m ∈ ai_patterns /\ contains m (lower text_content) = true.
Proof.
  unfold pattern_matches_of. rewrite list_elem_of_In, in_concat. split.
  - intros (ms & Hms & Hm). apply in_map_iff in Hms as (p & <- & Hp).
    apply list_elem_of_In in Hm. apply findall_from_elem in Hm as [-> Hc].
    split; [apply list_elem_of_In; exact Hp|exact Hc].
  - intros [Hp Hc]. exists (findall m (lower text_content)). split.
    + apply in_map_iff. exists m. split; [reflexivity|].
      apply list_elem_of_In. exact Hp.
    + apply list_elem_of_In, findall_complete; [|exact Hc].
      apply ai_patterns_nonempty, Hp.
Qed.

Lemma text_patterns_listed ms a f :
  f ∈ snd (text_patterns ms a) <->
  f ∈ snd a \/ (f = AIPatternsFound ms /\ ms <> []).
Proof.
  unfold text_patterns. destruct ms as [|m ms']; cbn [list_truthy];
    rewrite ?penalise_factors.
  - split; [tauto|]. intros [H|[_ H]]; [exact H|congruence].
  - split; [|tauto]. intros [H|H]; [tauto|]. right. split; [exact H|discriminate].
Qed.

Lemma text_structure_listed stats a f :
  f ∈ snd (text_structure stats a) <->
  f ∈ snd a
  \/ (f = LongSentences /\ (0 < word_count stats)%Z
      /\ (30 < avg_sentence_length stats)%Q)
  \/ (f = ShortSentences /\ (0 < word_count stats)%Z
      /\ (avg_sentence_length stats < 5)%Q).
Proof.
  unfold text_structure.
  assert (Hlong : Qltb 30 (avg_sentence_length stats) = true
                  <-> (30 < avg_sentence_length stats)%Q) by apply Qltb_lt.
  assert (Hshort : Qltb (avg_sentence_length stats) 5 = true
                   <-> (avg_sentence_length stats < 5)%Q) by apply Qltb_lt.
  destruct (Z.ltb_spec 0 (word_count stats)) as [Hwc|Hwc].
  2:{ split; [tauto|]. intros [H|[(_ & H & _)|(_ & H & _)]]; [exact H|lia|lia]. }
  destruct (Qltb 30 (avg_sentence_length stats)).
  - rewrite penalise_factors. split; [tauto|].
    intros [H|[H|(_ & _ & H)]]; [tauto|tauto|].
    assert (30 < avg_sentence_length stats)%Q by (apply Hlong; reflexivity). lra.
  - destruct (Qltb (avg_sentence_length stats) 5); rewrite ?penalise_factors.
    + split; [tauto|]. intros [H|[(_ & _ & H)|H]]; [tauto| |tauto].
      apply Hlong in H. discriminate.
    + split; [tauto|]. intros [H|[(_ & _ & H)|(_ & _ & H)]]; [tauto| |].
      * apply Hlong in H. discriminate.
      * apply Hshort in H. discriminate.
Qed.

Lemma text_repetition_listed text a f :
  f ∈ snd (text_repetition text a) <->
  f ∈ snd a
  \/ (f = HighWordRepetition /\ (10 < length (split (lower text)))%nat
      /\ (repetition_ratio (split (lower text)) < 0.3)%Q).
Proof.
  unfold text_repetition.
  assert (Hr : Qltb (repetition_ratio (split (lower text))) 0.3 = true
               <-> (repetition_ratio (split (lower text)) < 0.3)%Q)
    by apply Qltb_lt.
  destruct (Nat.ltb_spec 10 (length (split (lower text)))) as [Hlen|Hlen].
  2:{ split; [tauto|]. intros [H|(_ & H & _)]; [exact H|lia]. }
  destruct (Qltb (repetition_ratio (split (lower text))) 0.3);
    rewrite ?penalise_factors.
  - tauto.
  - split; [tauto|]. intros [H|(_ & _ & H)]; [exact H|].
    apply Hr in H. discriminate.
Qed.

(** The factor list of text scoring, rule by rule. *)
Lemma text_factors text stats ms f :
  f ∈ text_primary_factors (snd (_calculate_text_credibility text stats ms)) <->
  (f = AIPatternsFound ms /\ ms <> [])
  \/ (f = LongSentences /\ (0 < word_count stats)%Z
      /\ (30 < avg_sentence_length stats)%Q)
  \/ (f = ShortSentences /\ (0 < word_count stats)%Z
      /\ (avg_sentence_length stats < 5)%Q)
  \/ (f = HighWordRepetition /\ (10 < length (split (lower text)))%nat
      /\ (repetition_ratio (split (lower text)) < 0.3)%Q).
Proof.
  unfold _calculate_text_credibility.
  destruct (text_penalties text stats ms) as [raw factors] eqn:Hp.
  cbn [snd text_primary_factors].
  change factors with (snd (raw, factors)). rewrite <- Hp.
  unfold text_penalties.
  rewrite text_repetition_listed, text_structure_listed, text_patterns_listed.
  cbn [snd]. rewrite elem_of_nil. tauto.
Qed.

Lemma ai_pattern_penalty_ge (ms : list string) :
  ms <> [] -> (0.2 <= ai_pattern_penalty ms)%Q.
Proof.
  intros Hne. unfold ai_pattern_penalty, py_min.
  assert (Hn : (1 <= float_of_nat (length ms))%Q).
  { destruct ms as [|m ms']; [congruence|]. cbn [length].
    rewrite float_of_nat_S.
    pose proof (float_of_nat_pos (S (length ms')) ltac:(lia)) as H.
    rewrite float_of_nat_S in H.
    assert (0 <= float_of_nat (length ms'))%Q.
    { unfold float_of_nat. change 0%Q with (inject_Z 0). rewrite <- Zle_Qle. lia. }
    lra. }
  destruct (Qltb _ _); lra.
Qed.

(** The text pipeline on a text that holds a disclaimer phrase, in any
    letter case: the job returns, the phrase is among the reported
    matches, the pattern factor is listed, the structure analysis reads
    suspicious and the score is at most 0.7. *)
Theorem disclaimer_text_scores_low (E : Env) (job aid uri : value)
    (path text_content phrase : string) :
  getitem job "analysis_id" = Ok aid ->
  getitem job "input_uri" = Ok uri ->
  download E uri (temp_dir_of E job) = Ok path ->
  read_text E path = Ok text_content ->
  phrase ∈ ai_patterns ->
  contains phrase (lower text_content) = true ->
  exists score explanation matches,
    process_text E job []
    = (Ok (TextResults score explanation (text_stats_of text_content) matches
             (content_preview_of text_content)),
       [Download uri; ReadText path])
    /\ phrase ∈ matches
    /\ AIPatternsFound matches ∈ text_primary_factors explanation
    /\ structure_analysis explanation = "suspicious"
    /\ (score <= 0.7)%Q.
Proof.
  intros Haid Huri Hdl Hread Hp Hc.
  set (matches := pattern_matches_of text_content).
  set (stats := text_stats_of text_content).
  assert (Hin : phrase ∈ matches)
    by (apply pattern_matches_exact; split; assumption).
  assert (Hne : matches <> []).
  { intros Heq. rewrite Heq in Hin. apply elem_of_nil in Hin. exact Hin. }
  assert (Hlisted : AIPatternsFound matches
                      ∈ text_primary_factors
                          (snd (_calculate_text_credibility text_content stats matches)))
    by (apply text_factors; left; split; [reflexivity|exact Hne]).
  exists (fst (_calculate_text_credibility text_content stats matches)),
    (snd (_calculate_text_credibility text_content stats matches)), matches.
  split; [|split; [exact Hin|split; [exact Hlisted|split]]].
  - unfold process_text.
    unfold bind at 1. unfold lift at 1. rewrite Haid.
    unfold bind at 1. unfold lift at 1. rewrite Huri.
    unfold bind at 1. unfold _download_file, call. rewrite Hdl. cbn [app].
    unfold bind at 1. rewrite Hread. cbn [app].
    fold matches stats.
    destruct (_calculate_text_credibility text_content stats matches). reflexivity.
  - unfold _calculate_text_credibility in *.
    destruct (text_penalties text_content stats matches) as [raw factors].
    cbn [snd text_primary_factors structure_analysis] in *.
    destruct factors; [apply elem_of_nil in Hlisted; contradiction|reflexivity].
  - unfold _calculate_text_credibility in *.
    pose proof (text_penalties_accounted text_content stats matches) as Hacc.
    destruct (text_penalties text_content stats matches) as [raw factors].
    cbn [fst snd text_primary_factors] in *.
    pose proof (scored_factor_cost 0.9 (clamp raw) factors (AIPatternsFound matches)
                  ltac:(lra) (scored_of_accounted 0.9 raw factors Hacc) Hlisted) as H.
    pose proof (ai_pattern_penalty_ge matches Hne) as Hge.
    change (spec_penalty (AIPatternsFound matches))
      with (ai_pattern_penalty matches) in H.
    lra.
Qed.

(** The note of a chat bot, with capital letters. *)
Lemma disclaimer_text_scores_low_witness :
  exists score explanation matches,
    process_text (Cases.text_env Cases.chatbot_note) Cases.text_job []
    = (Ok (TextResults score explanation (text_stats_of Cases.chatbot_note) matches
             (content_preview_of Cases.chatbot_note)),
       [Download (VStr "gs://pi-shield-uploads/u/a/note.txt");
        ReadText "/tmp/job/note.txt"])
    /\ "as an ai" ∈ matches
    /\ AIPatternsFound matches ∈ text_primary_factors explanation
    /\ structure_analysis explanation = "suspicious"
    /\ (score <= 0.7)%Q.
Proof.
  apply (disclaimer_text_scores_low (Cases.text_env Cases.chatbot_note)
           Cases.text_job (VStr Sample.job_id)
           (VStr "gs://pi-shield-uploads/u/a/note.txt") "/tmp/job/note.txt"
           Cases.chatbot_note "as an ai").
  - reflexivity.
  - reflexivity.
  - reflexivity.
  - reflexivity.
  - left.
  - reflexivity.
Defined.

(** *** Blank texts *)

Lemma strip_truthy_cons c t :
  strip_truthy (String c t) = negb (isspace c) || strip_truthy t.
Proof. reflexivity. Qed.

Lemma blank_cons c t : blank (String c t) <-> isspace c = true /\ blank t.
Proof.
  unfold blank. rewrite strip_truthy_cons, orb_false_iff, negb_false_iff. tauto.
Qed.

Lemma blank_snoc cur c : blank cur -> isspace c = true -> blank (cur +:+ String c "").
Proof.
  intros Hcur Hc. induction cur as [|d cur IH]; cbn [String.append].
  - apply blank_cons. split; [exact Hc|reflexivity].
  - apply blank_cons in Hcur as [Hd Hcur]. apply blank_cons.
    split; [exact Hd|apply IH, Hcur].
Qed.

Lemma lower_space c : isspace c = true -> lower_char c = c.
Proof.
  destruct c as [[] [] [] [] [] [] [] []]; intros H; vm_compute in H;
    try discriminate H; reflexivity.
Qed.

Lemma blank_lower s : blank s -> blank (lower s).
Proof.
  induction s as [|c t IH]; intros H; [exact H|].
  apply blank_cons in H as [Hc Ht]. cbn [lower]. apply blank_cons.
  rewrite (lower_space c Hc). split; [exact Hc|apply IH, Ht].
Qed.

Lemma split_from_cur cur s : cur <> "" -> split_from cur s <> [].
Proof.
  revert cur. induction s as [|c t IH]; intros cur Hcur; cbn [split_from].
  - rewrite bool_decide_eq_false_2 by exact Hcur. discriminate.
  - destruct (isspace c).
    + rewrite bool_decide_eq_false_2 by exact Hcur. discriminate.
    + apply IH. destruct cur; discriminate.
Qed.

(** A text has no word exactly when it is blank. *)
Lemma split_nil_iff s : split s = [] <-> blank s.
Proof.
  unfold split. induction s as [|c t IH]; [split; reflexivity|].
  rewrite blank_cons. cbn [split_from]. destruct (isspace c) eqn:Hc.
  - rewrite bool_decide_eq_true_2 by reflexivity. rewrite IH. tauto.
  - split; [|intros [H _]; discriminate].
    intros H. exfalso. apply (split_from_cur ("" +:+ String c "") t); [discriminate|].
    exact H.
Qed.

Lemma split_on_from_blank sep k cur s :
  blank cur -> blank s -> Forall blank (split_on_from sep k cur s).
Proof.
  revert k cur. induction s as [|c t IH]; intros k cur Hcur Hs; cbn [split_on_from].
  { constructor; [exact Hcur|constructor]. }
  apply blank_cons in Hs as [Hc Ht]. destruct k as [|k].
  - destruct (String.prefix sep (String c t)).
    + constructor; [exact Hcur|]. apply IH; [reflexivity|exact Ht].
    + apply IH; [apply blank_snoc; assumption|exact Ht].
  - apply IH; assumption.
Qed.

Lemma filter_blank (segments : list string) :
  Forall blank segments ->
  filter (fun s => Is_true (strip_truthy s)) segments = [].
Proof.
  induction segments as [|s ss IH]; intros Hall; [reflexivity|].
  apply Forall_cons in Hall as [Hs Hss]. rewrite filter_cons.
  destruct (decide (Is_true (strip_truthy s))) as [Ht|_]; [|apply IH, Hss].
  unfold blank in Hs. rewrite Hs in Ht. contradiction.
Qed.

Lemma findall_from_blank p k s :
  (exists a p', p = String a p' /\ isspace a = false) -> blank s ->
  findall_from p k s = [].
Proof.
  intros (a & p' & -> & Ha). revert k.
  induction s as [|c t IH]; intros k Hs; [reflexivity|].
  apply blank_cons in Hs as [Hc Ht]. cbn [findall_from]. destruct k as [|k].
  - cbn [String.prefix]. destruct (ascii_dec a c) as [->|_]; [congruence|].
    apply IH, Ht.
  - apply IH, Ht.
Qed.

Lemma pattern_matches_blank text_content :
  blank text_content -> pattern_matches_of text_content = [].
Proof.
  intros Hb. apply blank_lower in Hb. unfold pattern_matches_of, ai_patterns.
  cbn [map concat]. unfold findall.
  rewrite !findall_from_blank; try exact Hb; try reflexivity.
  all: eexists; eexists; split; [reflexivity|reflexivity].
Qed.

(** A text has word count 0 exactly when it is blank; a blank text has no
    sentence, no paragraph and no pattern match, and text scoring gives
    it the base score 0.9 with no factor. *)
Theorem blank_text_scores_base (text_content : string) :
  (word_count (text_stats_of text_content) = 0%Z <-> blank text_content)
  /\ (blank text_content ->
      sentence_count (text_stats_of text_content) = 0%Z
      /\ paragraph_count (text_stats_of text_content) = 0%Z
      /\ pattern_matches_of text_content = []
      /\ _calculate_text_credibility text_content (text_stats_of text_content)
           (pattern_matches_of text_content)
         = (0.9%Q,
            {| text_primary_factors := []; text_length := 0;
               ai_patterns_count := 0; structure_analysis := "normal" |})).
Proof.
  split.
  - cbn [word_count text_stats_of]. rewrite <- split_nil_iff.
    destruct (split text_content); cbn [length]; split; (congruence || lia).
  - intros Hb.
    assert (Hwords : split text_content = []) by (apply split_nil_iff, Hb).
    assert (Hlower : split (lower text_content) = [])
      by (apply split_nil_iff, blank_lower, Hb).
    assert (Hsent : sentence_count (text_stats_of text_content) = 0%Z).
    { cbn [sentence_count text_stats_of]. unfold split_on.
      rewrite filter_blank; [reflexivity|].
      apply split_on_from_blank; [reflexivity|exact Hb]. }
    assert (Hpara : paragraph_count (text_stats_of text_content) = 0%Z).
    { cbn [paragraph_count text_stats_of]. unfold split_on.
      rewrite filter_blank; [reflexivity|].
      apply split_on_from_blank; [reflexivity|exact Hb]. }
    split; [exact Hsent|]. split; [exact Hpara|].
    rewrite (pattern_matches_blank text_content Hb). split; [reflexivity|].
    unfold _calculate_text_credibility, text_penalties, text_patterns,
      text_structure, text_repetition.
    cbn [list_truthy word_count text_stats_of]. rewrite Hwords, Hlower.
    reflexivity.
Qed.

(** *** The preview *)

Lemma length_append (s1 s2 : string) :
  String.length (s1 +:+ s2) = (String.length s1 + String.length s2)%nat.
Proof.
  induction s1 as [|c s1 IH]; [reflexivity|].
  cbn. rewrite <- IH. reflexivity.
Qed.

Lemma length_substring_0 (m : nat) (s : string) :
  String.length (String.substring 0 m s) = Nat.min m (String.length s).
Proof.
  revert s. induction m as [|m IH]; intros s.
  - destruct s; reflexivity.
  - destruct s as [|c s]; [reflexivity|].
    cbn [String.substring String.length]. rewrite IH. reflexivity.
Qed.

Lemma substring_0_split (m : nat) (s : string) :
  exists tail, s = String.substring 0 m s +:+ tail.
Proof.
  revert s. induction m as [|m IH]; intros s.
  - exists s. destruct s; reflexivity.
  - destruct s as [|c s]; [exists ""; reflexivity|].
    destruct (IH s) as [tail Htail]. exists tail.
    cbn [String.substring].
    change (String c (String.substring 0 m s) +:+ tail)
      with (String c (String.substring 0 m s +:+ tail)).
    rewrite <- Htail. reflexivity.
Qed.

(** The stored preview of a text is the text itself up to 500 characters,
    and otherwise its first 500 characters followed by three dots; it is
    never longer than 503 characters. *)
Theorem content_preview_bounded (text_content : string) :
  (String.length (content_preview_of text_content) <= 503)%nat
  /\ ((String.length text_content <= 500)%nat ->
      content_preview_of text_content = text_content)
  /\ ((500 < String.length text_content)%nat ->
      String.length (content_preview_of text_content) = 503%nat
      /\ String.prefix (String.substring 0 500 text_content)
           (content_preview_of text_content) = true
      /\ exists head tail,
           text_content = head +:+ tail
           /\ String.length head = 500%nat
           /\ content_preview_of text_content = head +:+ "...").
Proof.
  unfold content_preview_of.
  destruct (Nat.ltb_spec 500 (String.length text_content)) as [Hlong|Hshort].
  - assert (Hlen : String.length (String.substring 0 500 text_content +:+ "...")
                   = 503%nat).
    { rewrite length_append, length_substring_0.
      change (String.length "...") with 3%nat. lia. }
    split; [lia|]. split; [lia|]. intros _. split; [exact Hlen|]. split.
    + generalize (String.substring 0 500 text_content). intros pre.
      induction pre as [|c pre IH]; [reflexivity|].
      change (String c pre +:+ "...") with (String c (pre +:+ "...")).
      cbn [String.prefix].
      destruct (ascii_dec c c) as [_|Hne]; [exact IH|congruence].
    + destruct (substring_0_split 500 text_content) as [tail Htail].
      exists (String.substring 0 500 text_content), tail.
      split; [exact Htail|]. split; [|reflexivity].
      rewrite length_substring_0. lia.
  - split; [lia|]. split; [reflexivity|lia].
Qed.

(** ** The video pipeline *)

Lemma annotate_calls_app tr1 tr2 :
  annotate_calls (tr1 ++ tr2) = (annotate_calls tr1 + annotate_calls tr2)%nat.
Proof. unfold annotate_calls. rewrite List.filter_app, length_app. reflexivity. Qed.

Lemma adds_weaken {A} (n k : nat) (m : P A) :
  adds_annotations n m -> (n <= k)%nat -> adds_annotations k m.
Proof. intros H Hle tr. specialize (H tr). lia. Qed.

Lemma adds_ret {A} (a : A) : adds_annotations 0 (ret a).
Proof. intros tr. unfold ret. cbn [snd]. lia. Qed.

Lemma adds_raise {A} (e : exn) : adds_annotations 0 (@raise _ A e).
Proof. intros tr. unfold raise. cbn [snd]. lia. Qed.

Lemma adds_lift {A} (r : result A) : adds_annotations 0 (lift r).
Proof. intros tr. unfold lift. cbn [snd]. lia. Qed.

Lemma adds_call {A} (ev : IOEvent) (r : result A) :
  adds_annotations (annotate_calls [ev]) (call ev r).
Proof. intros tr. unfold call. cbn [snd]. rewrite annotate_calls_app. lia. Qed.

Lemma adds_bind {A B} (n k : nat) (m : P A) (f : A -> P B) :
  adds_annotations n m -> (forall a, adds_annotations k (f a)) ->
  adds_annotations (n + k) (bind m f).
Proof.
  intros Hm Hf tr. unfold bind. specialize (Hm tr).
  destruct (m tr) as [[a|e] tr1]; cbn [snd] in *; [|lia].
  specialize (Hf a tr1). lia.
Qed.

Lemma adds_try_except {A} (n k : nat) (body : P A) catches (handler : exn -> P A) :
  adds_annotations n body -> (forall e, adds_annotations k (handler e)) ->
  adds_annotations (n + k) (try_except body catches handler).
Proof.
  intros Hb Hh tr. unfold try_except. specialize (Hb tr).
  destruct (body tr) as [[a|e] tr1]; cbn [snd] in *; [lia|].
  destruct (catches e); cbn [snd]; [|lia].
  specialize (Hh e tr1). lia.
Qed.

Lemma adds_for_each {A B} (f : A -> P B) (xs : list A) :
  (forall x, adds_annotations 1 (f x)) ->
  adds_annotations (length xs) (for_each f xs).
Proof.
  intros Hf. induction xs as [|x rest IH]; cbn [for_each length].
  - apply adds_ret.
  - change (S (length rest)) with (1 + length rest)%nat.
    apply adds_bind; [apply Hf|]. intros y.
    replace (length rest) with (length rest + 0)%nat by lia.
    apply adds_bind; [exact IH|]. intros ys. apply adds_ret.
Qed.

Lemma adds_analyse_frame E p : adds_annotations 1 (analyse_frame E p).
Proof.
  unfold analyse_frame. change 1%nat with (1 + 0)%nat.
  apply adds_bind; [apply (adds_call (AnnotateFrame p))|]. intros r. apply adds_ret.
Qed.

Lemma adds_get_video_info E path : adds_annotations 0 (_get_video_info E path).
Proof.
  unfold _get_video_info, probe_video. change 0%nat with (0 + 0 + 0)%nat.
  apply adds_try_except; [|intros e; apply adds_ret].
  apply adds_bind; [apply (adds_call (Ffprobe path))|]. intros out. apply adds_lift.
Qed.

Lemma adds_extract_frames E path dir : adds_annotations 0 (_extract_frames E path dir).
Proof.
  unfold _extract_frames. change 0%nat with (0 + 0)%nat.
  apply adds_try_except; [apply (adds_call (FfmpegFrames path))|].
  intros e. apply adds_ret.
Qed.

Lemma adds_extract_audio E path audio : adds_annotations 0 (_extract_audio E path audio).
Proof.
  unfold _extract_audio. change 0%nat with (0 + 0)%nat.
  apply adds_try_except; [apply (adds_call (FfmpegAudio path))|].
  intros e. apply adds_ret.
Qed.

Lemma adds_transcribe_audio E audio : adds_annotations 0 (_transcribe_audio E audio).
Proof.
  unfold _transcribe_audio. change 0%nat with (0 + 0 + 0)%nat.
  apply adds_try_except; [|intros e; apply adds_ret].
  apply adds_bind; [apply (adds_call (Recognize audio))|]. intros rs. apply adds_ret.
Qed.

(** A video job sends at most nineteen frames to the vision service,
    whatever the environment answers. *)
Theorem video_job_annotates_at_most_nineteen (config : Config) (E : Env)
    (job : value) :
  (annotate_calls (snd (process_video config E job [])) <= 19)%nat.
Proof.
  assert (H : adds_annotations 19 (process_video config E job)).
  { unfold process_video.
    change 19%nat with (0 + (0 + (0 + (0 + 19))))%nat.
    apply adds_bind; [apply adds_lift|]. intros aid.
    apply adds_bind; [apply adds_lift|]. intros uri.
    apply adds_bind; [apply (adds_call (Download uri))|]. intros path.
    apply adds_bind; [apply adds_get_video_info|]. intros info.
    destruct (Qltb _ _); [apply (adds_weaken 0); [apply adds_raise|lia]|].
    change 19%nat with (0 + (0 + (0 + (19 + (0 + 0)))))%nat.
    apply adds_bind; [apply (adds_call (Mkdir _))|]. intros made.
    apply adds_bind; [apply adds_extract_frames|]. intros frame_paths.
    apply adds_bind; [apply adds_extract_audio|]. intros u.
    apply adds_bind.
    { apply (adds_weaken (length (sample_frames frame_paths))).
      - apply adds_for_each. intros p. apply adds_analyse_frame.
      - apply sample_frames_at_most_nineteen. }
    intros frs. apply adds_bind.
    { destruct (audio_size E _) as [n|]; [|apply adds_ret].
      destruct (0 <? n)%Z; [apply adds_transcribe_audio|apply adds_ret]. }
    intros t. destruct (_calculate_video_credibility frs t info). apply adds_ret. }
  specialize (H []). exact H.
Qed.

Lemma bind_ok_inv {S A B} (m : ST S A) (k : A -> ST S B) s b s' :
  bind m k s = (Ok b, s') ->
  exists a s1, m s = (Ok a, s1) /\ k a s1 = (Ok b, s').
Proof.
  unfold bind. destruct (m s) as [[a|e] s1]; intros H; [|discriminate].
  exists a, s1. split; [reflexivity|exact H].
Qed.

Lemma lift_ok_inv {S A} (r : result A) (s : S) a s' :
  lift r s = (Ok a, s') -> r = Ok a /\ s' = s.
Proof. unfold lift. intros H. injection H as -> ->. split; reflexivity. Qed.

Lemma extract_frames_ok E path dir tr fs tr' :
  _extract_frames E path dir tr = (Ok fs, tr') ->
  fs = extracted_frames E path dir.
Proof.
  unfold _extract_frames, try_except, call, extracted_frames.
  destruct (ffmpeg_frames E path dir) as [fs0|e].
  - intros H. injection H as <- _. reflexivity.
  - destruct (isinstance e [CalledProcessError]); [|discriminate].
    unfold ret. intros H. injection H as <- _. reflexivity.
Qed.

Lemma for_each_analyse_ok E xs tr ys tr' :
  for_each (analyse_frame E) xs tr = (Ok ys, tr') ->
  map frame ys = map path_name xs /\ tr' = tr ++ map AnnotateFrame xs.
Proof.
  revert tr ys tr'. induction xs as [|x rest IH]; intros tr ys tr' H.
  - cbn in H. injection H as <- <-. rewrite app_nil_r. split; reflexivity.
  - cbn [for_each] in H.
    apply bind_ok_inv in H as (y & tr1 & Hy & H).
    apply bind_ok_inv in H as (ys' & tr2 & Hrest & H).
    unfold ret in H. injection H as <- <-.
    apply IH in Hrest as [Hnames ->].
    unfold analyse_frame in Hy.
    apply bind_ok_inv in Hy as (resp & tr0 & Hcall & Hy).
    unfold call in Hcall. injection Hcall as _ <-.
    unfold ret in Hy. injection Hy as <- <-.
    cbn [map frame]. rewrite Hnames, <- app_assoc. split; reflexivity.
Qed.

Lemma for_each_analyse_total E xs tr :
  (forall p, In p xs -> exists resp, annotate_frame E p = Ok resp) ->
  exists ys, for_each (analyse_frame E) xs tr = (Ok ys, tr ++ map AnnotateFrame xs)
             /\ length ys = length xs.
Proof.
  revert tr. induction xs as [|x rest IH]; intros tr Hall.
  - exists []. cbn. rewrite app_nil_r. split; reflexivity.
  - destruct (Hall x (or_introl eq_refl)) as [resp Hresp].
    destruct (IH (tr ++ [AnnotateFrame x]) (fun p Hp => Hall p (or_intror Hp)))
      as (ys & Hys & Hlen).
    eexists (_ :: ys). cbn [for_each]. unfold bind at 1.
    unfold analyse_frame at 1. unfold bind at 1, call at 1. rewrite Hresp.
    unfold ret at 1. unfold bind at 1. rewrite Hys. unfold ret.
    cbn [map length]. rewrite <- app_assoc, Hlen. split; reflexivity.
Qed.

Lemma transcribe_audio_total E audio tr :
  exists t, _transcribe_audio E audio tr = (Ok t, tr ++ [Recognize audio])
            /\ (forall e, recognize E audio = Raise e -> t = "").
Proof.
  unfold _transcribe_audio, try_except, bind, call, ret.
  destruct (recognize E audio) as [rs|e].
  - eexists. split; [reflexivity|]. intros e He. discriminate.
  - exists "". split; [reflexivity|]. intros; reflexivity.
Qed.

Lemma video_score_bounds frs t info :
  (0 <= fst (_calculate_video_credibility frs t info) <= 1)%Q.
Proof.
  unfold _calculate_video_credibility.
  destruct (video_penalties frs t info) as [raw factors]. cbn [fst].
  apply clamp_bounds.
Qed.

(** A video job that returns a result: the probed duration is within the
    cap and is the duration that the explanation reports; the analysed
    frames are the sampled frame files in their order, at most nineteen;
    the score lies in [0, 1]. *)
Theorem video_result_shape (config : Config) (E : Env) (job : value)
    (r : Results) (tr : list IOEvent) :
  process_video config E job [] = (Ok r, tr) ->
  exists score explanation info frs t uri path,
    r = VideoResults score explanation info frs t
    /\ (0 <= score <= 1)%Q
    /\ fst (_get_video_info E path [Download uri]) = Ok info
    /\ (duration info <= inject_Z (MAX_VIDEO_DURATION config))%Q
    /\ video_duration explanation = duration info
    /\ frame_count_analyzed explanation = Z.of_nat (length frs)
    /\ (length frs <= 19)%nat
    /\ map frame frs
       = map path_name
           (sample_frames
              (extracted_frames E path (temp_dir_of E job +:+ "/frames"))).
Proof.
  unfold process_video. intros H.
  apply bind_ok_inv in H as (aid & tr0 & Haid & H).
  apply lift_ok_inv in Haid as [Haid ->].
  apply bind_ok_inv in H as (uri & tr0 & Huri & H).
  apply lift_ok_inv in Huri as [Huri ->].
  apply bind_ok_inv in H as (path & tr1 & Hdl & H).
  unfold _download_file, call in Hdl. injection Hdl as Hdl <-. cbn [app] in H.
  apply bind_ok_inv in H as (info & tr2 & Hinfo & H).
  destruct (Qltb (inject_Z (MAX_VIDEO_DURATION config)) (duration info)) eqn:Hcap;
    [discriminate|].
  apply Qltb_ge in Hcap.
  apply bind_ok_inv in H as (made & tr2' & _ & H).
  apply bind_ok_inv in H as (frame_paths & tr3 & Hframes & H).
  apply extract_frames_ok in Hframes. subst frame_paths.
  apply bind_ok_inv in H as (u & tr4 & _ & H).
  apply bind_ok_inv in H as (frs & tr5 & Hfrs & H).
  apply for_each_analyse_ok in Hfrs as [Hnames _].
  apply bind_ok_inv in H as (t & tr6 & _ & H).
  pose proof (video_score_bounds frs t info) as Hscore.
  assert (Hexpl : video_duration (snd (_calculate_video_credibility frs t info))
                  = duration info
                  /\ frame_count_analyzed
                       (snd (_calculate_video_credibility frs t info))
                     = Z.of_nat (length frs)).
  { unfold _calculate_video_credibility.
    destruct (video_penalties frs t info). split; reflexivity. }
  destruct (_calculate_video_credibility frs t info) as [score explanation].
  unfold ret in H. injection H as <- _.
  exists score, explanation, info, frs, t, uri, path.
  split; [reflexivity|]. split; [exact Hscore|].
  split; [rewrite Hinfo; reflexivity|]. split; [exact Hcap|].
  split; [apply Hexpl|]. split; [apply Hexpl|]. split; [|exact Hnames].
  apply (f_equal (@length string)) in Hnames. rewrite !length_map in Hnames.
  rewrite Hnames. apply sample_frames_at_most_nineteen.
Qed.

(** The short clip of the sample deployment. *)
Lemma video_result_shape_witness :
  exists score explanation info frs t uri path,
    fst (process_video default_config Sample.short_clip Sample.video_job [])
    = Ok (VideoResults score explanation info frs t)
    /\ (0 <= score <= 1)%Q
    /\ fst (_get_video_info Sample.short_clip path [Download uri]) = Ok info
    /\ (duration info <= inject_Z (MAX_VIDEO_DURATION default_config))%Q
    /\ video_duration explanation = duration info
    /\ frame_count_analyzed explanation = Z.of_nat (length frs)
    /\ (length frs <= 19)%nat
    /\ map frame frs
       = map path_name
           (sample_frames
              (extracted_frames Sample.short_clip path
                 (temp_dir_of Sample.short_clip Sample.video_job +:+ "/frames"))).
Proof.
  destruct (process_video default_config Sample.short_clip Sample.video_job [])
    as [r tr] eqn:Hpv.
  assert (Hok : exists r0, r = Ok r0).
  { apply (f_equal fst) in Hpv. cbn [fst] in Hpv. rewrite <- Hpv.
    vm_compute. eexists. reflexivity. }
  destruct Hok as [r0 ->].
  destruct (video_result_shape default_config Sample.short_clip Sample.video_job
              r0 tr Hpv)
    as (score & explanation & info & frs & t & uri & path & -> & H).
  exists score, explanation, info, frs, t, uri, path.
  split; [reflexivity|exact H].
Defined.

Lemma extract_frames_absorbed E path dir tr :
  absorbed (ffmpeg_frames E path dir) ->
  _extract_frames E path dir tr
  = (Ok (extracted_frames E path dir), tr ++ [FfmpegFrames path]).
Proof.
  unfold absorbed, _extract_frames, try_except, call, extracted_frames, ret.
  destruct (ffmpeg_frames E path dir) as [fs|e]; [reflexivity|].
  intros ->. reflexivity.
Qed.

Lemma extract_audio_absorbed E path audio tr :
  absorbed (ffmpeg_audio E path audio) ->
  _extract_audio E path audio tr = (Ok (), tr ++ [FfmpegAudio path]).
Proof.
  unfold absorbed, _extract_audio, try_except, call, ret.
  destruct (ffmpeg_audio E path audio) as [[]|e]; [reflexivity|].
  intros ->. reflexivity.
Qed.

(** A video job whose download and probe succeed within the cap and whose
    frames directory can be made returns a result even when ffmpeg exits
    with an error on the frames or on the audio and whatever the speech
    service does, as long as the vision service answers for the sampled
    frames; after a failed frame extraction no frame is analysed. *)
Theorem video_job_survives_substep_failures (config : Config) (E : Env)
    (job aid uri : value) (path : string) (info : VideoInfo) :
  let dir := temp_dir_of E job +:+ "/frames" in
  let audio := temp_dir_of E job +:+ "/audio.wav" in
  getitem job "analysis_id" = Ok aid ->
  getitem job "input_uri" = Ok uri ->
  download E uri (temp_dir_of E job) = Ok path ->
  fst (_get_video_info E path [Download uri]) = Ok info ->
  (duration info <= inject_Z (MAX_VIDEO_DURATION config))%Q ->
  mkdir E dir = Ok () ->
  absorbed (ffmpeg_frames E path dir) ->
  absorbed (ffmpeg_audio E path audio) ->
  (forall p, In p (sample_frames (extracted_frames E path dir)) ->
     exists resp, annotate_frame E p = Ok resp) ->
  exists score explanation frs t,
    fst (process_video config E job [])
    = Ok (VideoResults score explanation info frs t)
    /\ length frs = length (sample_frames (extracted_frames E path dir))
    /\ ((exists e, ffmpeg_frames E path dir = Raise e) -> frs = [])
    /\ ((exists e, recognize E audio = Raise e) -> t = "").
Proof.
  cbv zeta. intros Haid Huri Hdl Hinfo Hcap Hmk Hframes Haudio Hvision.
  pose proof (get_video_info_trace E path [Download uri]) as Htr.
  destruct (_get_video_info E path [Download uri]) as [ri tr1] eqn:Hg.
  cbn [fst snd] in Hinfo, Htr. subst ri.
  set (dir := temp_dir_of E job +:+ "/frames") in *.
  set (audio := temp_dir_of E job +:+ "/audio.wav") in *.
  set (paths := sample_frames (extracted_frames E path dir)) in *.
  destruct (for_each_analyse_total E paths
              (((tr1 ++ [Mkdir dir]) ++ [FfmpegFrames path]) ++ [FfmpegAudio path])
              Hvision)
    as (frs & Hfrs & Hlen).
  assert (Htrans : exists t tr',
             (match audio_size E audio with
              | Some n => if (0 <? n)%Z then _transcribe_audio E audio else ret ""
              | None => ret ""
              end)
               ((((tr1 ++ [Mkdir dir]) ++ [FfmpegFrames path]) ++ [FfmpegAudio path])
                ++ map AnnotateFrame paths)
             = (Ok t, tr')
             /\ ((exists e, recognize E audio = Raise e) ->
                 t = "")).
  { destruct (audio_size E audio) as [n|].
    - destruct (0 <? n)%Z.
      + destruct (transcribe_audio_total E audio
                    ((((tr1 ++ [Mkdir dir]) ++ [FfmpegFrames path])
                      ++ [FfmpegAudio path])
                     ++ map AnnotateFrame paths)) as (t & Ht & Hempty).
        exists t. eexists. split; [exact Ht|]. intros [e He]. exact (Hempty e He).
      + exists "". eexists. split; [reflexivity|]. intros; reflexivity.
    - exists "". eexists. split; [reflexivity|]. intros; reflexivity. }
  destruct Htrans as (t & tr' & Ht & Hempty).
  exists (fst (_calculate_video_credibility frs t info)),
    (snd (_calculate_video_credibility frs t info)), frs, t.
  split; [|split; [exact Hlen|split; [|exact Hempty]]].
  - unfold process_video.
    unfold bind at 1. unfold lift at 1. rewrite Haid.
    unfold bind at 1. unfold lift at 1. rewrite Huri.
    unfold bind at 1. unfold _download_file, call. rewrite Hdl. cbn [app].
    unfold bind at 1. rewrite Hg.
    assert (Hle : Qltb (inject_Z (MAX_VIDEO_DURATION config)) (duration info) = false)
      by (apply Qltb_ge; exact Hcap).
    rewrite Hle. fold dir audio.
    unfold bind at 1. rewrite Hmk.
    unfold bind at 1. rewrite (extract_frames_absorbed E path dir _ Hframes).
    unfold bind at 1. rewrite (extract_audio_absorbed E path audio _ Haudio).
    fold paths. unfold bind at 1. rewrite Hfrs.
    unfold bind at 1.
    match goal with
    | |- fst (let (r, s') := ?X in _) = _ =>
        replace X with (Ok t, tr') by (symmetry; exact Ht)
    end.
    destruct (_calculate_video_credibility frs t info). reflexivity.
  - intros [e He]. subst paths. unfold extracted_frames in Hlen. rewrite He in Hlen.
    cbn in Hlen. destruct frs; [reflexivity|discriminate].
Qed.

(** Both ffmpeg runs fail and the speech service is down. *)
Lemma video_job_survives_substep_failures_witness :
  exists score explanation frs t,
    fst (process_video default_config Cases.flaky_env Sample.video_job [])
    = Ok (VideoResults score explanation
            {| duration := 12.5; size := 1048576; width := 1280; height := 720;
               fps := VFloat (inject_Z 30 / inject_Z 1); codec := VStr "h264" |}
            frs t)
    /\ length frs
       = length (sample_frames
                   (extracted_frames Cases.flaky_env "/tmp/job/clip.mp4"
                      (temp_dir_of Cases.flaky_env Sample.video_job +:+ "/frames")))
    /\ ((exists e, ffmpeg_frames Cases.flaky_env "/tmp/job/clip.mp4"
                     (temp_dir_of Cases.flaky_env Sample.video_job +:+ "/frames")
                   = Raise e) -> frs = [])
    /\ ((exists e, recognize Cases.flaky_env
                     (temp_dir_of Cases.flaky_env Sample.video_job +:+ "/audio.wav")
                   = Raise e) -> t = "").
Proof.
  apply (video_job_survives_substep_failures default_config Cases.flaky_env
           Sample.video_job (VStr Sample.job_id)
           (VStr "gs://pi-shield-uploads/u/a/clip.mp4") "/tmp/job/clip.mp4").
  - reflexivity.
  - reflexivity.
  - reflexivity.
  - reflexivity.
  - vm_compute. discriminate.
  - reflexivity.
  - reflexivity.
  - reflexivity.
  - intros p Hp. vm_compute in Hp. contradiction.
Defined.

(** ** The worker and its tables *)

Lemma image_score_bounds vr info :
  (0 <= fst (_calculate_image_credibility vr info) <= 1)%Q.
Proof.
  unfold _calculate_image_credibility.
  destruct (image_penalties vr) as [raw factors]. cbn [fst].
  apply clamp_bounds.
Qed.

Lemma text_score_bounds text stats ms :
  (0 <= fst (_calculate_text_credibility text stats ms) <= 1)%Q.
Proof.
  unfold _calculate_text_credibility.
  destruct (text_penalties text stats ms) as [raw factors]. cbn [fst].
  apply clamp_bounds.
Qed.

Lemma call_ok_inv {A} ev (r : result A) tr a tr' :
  call ev r tr = (Ok a, tr') -> r = Ok a /\ tr' = tr ++ [ev].
Proof. unfold call. intros H. injection H as -> <-. split; reflexivity. Qed.

Lemma process_image_ok E job tr r tr' :
  process_image E job tr = (Ok r, tr') ->
  exists uri path info response,
    getitem job "input_uri" = Ok uri
    /\ download E uri (temp_dir_of E job) = Ok path
    /\ open_image E path = Ok info
    /\ annotate_image E path = Ok response
    /\ r = ImageResults
             (fst (_calculate_image_credibility (vision_results_of response) info))
             (snd (_calculate_image_credibility (vision_results_of response) info))
             (vision_results_of response) info
    /\ tr' = tr ++ [Download uri; OpenImage path; AnnotateImage path].
Proof.
  unfold process_image. intros H.
  apply bind_ok_inv in H as (aid & tr0 & Haid & H).
  apply lift_ok_inv in Haid as [Haid ->].
  apply bind_ok_inv in H as (uri & tr0 & Huri & H).
  apply lift_ok_inv in Huri as [Huri ->].
  apply bind_ok_inv in H as (path & tr1 & Hdl & H).
  apply call_ok_inv in Hdl as [Hdl ->].
  apply bind_ok_inv in H as (info & tr2 & Hopen & H).
  apply call_ok_inv in Hopen as [Hopen ->].
  apply bind_ok_inv in H as (response & tr3 & Hann & H).
  apply call_ok_inv in Hann as [Hann ->].
  exists uri, path, info, response.
  destruct (_calculate_image_credibility (vision_results_of response) info)
    as [score explanation].
  unfold ret in H. injection H as <- <-.
  rewrite <- !app_assoc. repeat (split; [assumption || reflexivity|]). reflexivity.
Qed.

Lemma process_text_ok E job tr r tr' :
  process_text E job tr = (Ok r, tr') ->
  exists uri path text,
    getitem job "input_uri" = Ok uri
    /\ download E uri (temp_dir_of E job) = Ok path
    /\ read_text E path = Ok text
    /\ r = TextResults
             (fst (_calculate_text_credibility text (text_stats_of text)
                     (pattern_matches_of text)))
             (snd (_calculate_text_credibility text (text_stats_of text)
                     (pattern_matches_of text)))
             (text_stats_of text) (pattern_matches_of text)
             (content_preview_of text)
    /\ tr' = tr ++ [Download uri; ReadText path].
Proof.
  unfold process_text. intros H.
  apply bind_ok_inv in H as (aid & tr0 & Haid & H).
  apply lift_ok_inv in Haid as [Haid ->].
  apply bind_ok_inv in H as (uri & tr0 & Huri & H).
  apply lift_ok_inv in Huri as [Huri ->].
  apply bind_ok_inv in H as (path & tr1 & Hdl & H).
  apply call_ok_inv in Hdl as [Hdl ->].
  apply bind_ok_inv in H as (text & tr2 & Hread & H).
  apply call_ok_inv in Hread as [Hread ->].
  exists uri, path, text.
  destruct (_calculate_text_credibility text (text_stats_of text)
              (pattern_matches_of text)) as [score explanation].
  unfold ret in H. injection H as <- <-.
  rewrite <- !app_assoc. repeat (split; [assumption || reflexivity|]). reflexivity.
Qed.

Lemma process_video_ok_score config E job tr r tr' :
  process_video config E job tr = (Ok r, tr') ->
  exists s, results_credibility_score r = Some s /\ (0 <= s <= 1)%Q.
Proof.
  unfold process_video. intros H.
  apply bind_ok_inv in H as (aid & tr0 & _ & H).
  apply bind_ok_inv in H as (uri & tr1 & _ & H).
  apply bind_ok_inv in H as (path & tr2 & _ & H).
  apply bind_ok_inv in H as (info & tr3 & _ & H).
  destruct (Qltb _ _); [discriminate|].
  apply bind_ok_inv in H as (made & tr3' & _ & H).
  apply bind_ok_inv in H as (frame_paths & tr4 & _ & H).
  apply bind_ok_inv in H as (u & tr5 & _ & H).
  apply bind_ok_inv in H as (frs & tr6 & _ & H).
  apply bind_ok_inv in H as (t & tr7 & _ & H).
  pose proof (video_score_bounds frs t info) as Hscore.
  destruct (_calculate_video_credibility frs t info) as [score explanation].
  unfold ret in H. injection H as <- _.
  exists score. split; [reflexivity|exact Hscore].
Qed.

Lemma run_inv {A} (p : P A) w r w1 :
  run p w = (r, w1) ->
  exists tr, p [] = (r, tr)
             /\ w1 = {| analyses := analyses w;
                        analysis_reports := analysis_reports w;
                        trace := trace w ++ map IO tr;
                        clock_reads := clock_reads w;
                        uuid_draws := uuid_draws w |}.
Proof.
  unfold run. destruct (p []) as [r0 tr]. intros H. injection H as <- <-.
  exists tr. split; reflexivity.
Qed.

(** A result that [dispatch] returns carries a score in [0, 1]. *)
Lemma dispatch_ok_score config E ity job w results w1 :
  dispatch config E ity job w = (Ok results, w1) ->
  exists s, results_credibility_score results = Some s /\ (0 <= s <= 1)%Q.
Proof.
  unfold dispatch.
  destruct (eq_str ity "image").
  { intros H. apply run_inv in H as (tr & H & _).
    apply process_image_ok in H as (uri & path & info & resp & _ & _ & _ & _ & -> & _).
    eexists. split; [reflexivity|apply image_score_bounds]. }
  destruct (eq_str ity "video").
  { intros H. apply run_inv in H as (tr & H & _).
    exact (process_video_ok_score config E job [] results tr H). }
  destruct (eq_str ity "text").
  { intros H. apply run_inv in H as (tr & H & _).
    apply process_text_ok in H as (uri & path & text & _ & _ & _ & -> & _).
    eexists. split; [reflexivity|apply text_score_bounds]. }
  unfold raise. discriminate.
Qed.

Lemma dispatch_tables config E ity job w :
  analyses (snd (dispatch config E ity job w)) = analyses w
  /\ analysis_reports (snd (dispatch config E ity job w)) = analysis_reports w
  /\ clock_reads (snd (dispatch config E ity job w)) = clock_reads w
  /\ uuid_draws (snd (dispatch config E ity job w)) = uuid_draws w.
Proof.
  destruct (dispatch_frame config E ity job w) as [tr ->].
  repeat split; reflexivity.
Qed.

Lemma status_set_lookup E key st w k :
  analyses (status_set E key st w) !! k
  = if decide (k = key)
    then (fun r =>
            {| user_id := user_id r; input_type := input_type r;
               input_uri := input_uri r; status := st; created_at := created_at r;
               finished_at :=
                 if bool_decide (st ∈ ["done"; "failed"])
                 then Some (utcnow E (clock_reads w)) else None |})
           <$> analyses w !! k
    else analyses w !! k.
Proof.
  destruct (decide (k = key)) as [->|Hne].
  - apply analyses_status_set.
  - unfold status_set. destruct (bool_decide _); cbn [analyses emit update_analyses now snd];
      apply lookup_alter_ne; congruence.
Qed.

Lemma status_set_reports E key st w :
  analysis_reports (status_set E key st w) = analysis_reports w.
Proof. unfold status_set. destruct (bool_decide _); reflexivity. Qed.

Lemma report_stored_reports E key results w :
  analysis_reports (report_stored E key results w)
  = upsert (report_row E key results w) (analysis_reports w).
Proof. reflexivity. Qed.

Lemma upsert_other new rows key :
  key <> analysis_id new ->
  reports_of key (upsert new rows) = reports_of key rows.
Proof.
  intros Hne. induction rows as [|r rest IH]; cbn [upsert].
  - rewrite reports_of_cons. destruct (decide (analysis_id new = key)); congruence.
  - destruct (N.eqb_spec (analysis_id r) (analysis_id new)) as [Heq|Hneq].
    + rewrite !reports_of_cons. cbn [on_conflict analysis_id].
      destruct (decide (analysis_id r = key)); [congruence|reflexivity].
    + rewrite !reports_of_cons, IH. reflexivity.
Qed.

Lemma upsert_Forall (Q : ReportRow -> Prop) new rows :
  Q new -> (forall r, Q r -> Q (on_conflict r new)) ->
  Forall Q rows -> Forall Q (upsert new rows).
Proof.
  intros Hnew Hconf. induction 1 as [|r rest Hr Hrest IH]; cbn [upsert].
  - constructor; [exact Hnew|constructor].
  - destruct (analysis_id r =? analysis_id new)%N.
    + constructor; [apply Hconf; exact Hr|exact Hrest].
    + constructor; assumption.
Qed.

Lemma update_status_bad_tables E aid st w e :
  UUID E aid = Raise e ->
  fst (_update_analysis_status E aid st w) = Raise e
  /\ analyses (snd (_update_analysis_status E aid st w)) = analyses w
  /\ analysis_reports (snd (_update_analysis_status E aid st w))
     = analysis_reports w.
Proof.
  intros Hk. unfold _update_analysis_status.
  destruct (bool_decide (st ∈ ["done"; "failed"]));
    unfold bind, now, ret, lift; rewrite Hk; repeat split; reflexivity.
Qed.

(** What one [process_job] does to the two tables: nothing when the job
    has no usable id or no input type, and otherwise one finished row of
    [analyses] and one report for it. *)
Lemma process_job_tables config E job w :
  ((job_key E job = None \/ exists e, getitem job "input_type" = Raise e)
   /\ (exists e, fst (process_job config E job w) = Raise e)
   /\ analyses (snd (process_job config E job w)) = analyses w
   /\ analysis_reports (snd (process_job config E job w)) = analysis_reports w)
  \/ exists key st fin row,
       job_key E job = Some key
       /\ fst (process_job config E job w) = Ok ()
       /\ (forall k,
             analyses (snd (process_job config E job w)) !! k
             = if decide (k = key)
               then (fun r =>
                       {| user_id := user_id r; input_type := input_type r;
                          input_uri := input_uri r; status := st;
                          created_at := created_at r;
                          finished_at := Some fin |})
                      <$> analyses w !! k
               else analyses w !! k)
       /\ analysis_reports (snd (process_job config E job w))
          = upsert row (analysis_reports w)
       /\ analysis_id row = key
       /\ ((st = "done" /\ exists s, credibility_score row = Some s
                                     /\ (0 <= s <= 1)%Q)
           \/ (st = "failed" /\ credibility_score row = None)).
Proof.
  unfold job_key.
  destruct (getitem job "analysis_id") as [aid|e] eqn:Haid.
  2:{ left. split; [left; reflexivity|].
      assert (Hpj : process_job config E job w = (Raise e, w)).
      { unfold process_job, bind at 1, lift at 1. rewrite Haid. reflexivity. }
      rewrite Hpj. cbn [fst snd].
      split; [exists e; reflexivity|split; reflexivity]. }
  destruct (getitem job "input_type") as [ity|e] eqn:Hity.
  2:{ left. split; [right; exists e; reflexivity|].
      assert (Hpj : process_job config E job w = (Raise e, w)).
      { unfold process_job, bind at 1, lift at 1. rewrite Haid.
        unfold bind at 1, lift at 1. rewrite Hity. reflexivity. }
      rewrite Hpj. cbn [fst snd].
      split; [exists e; reflexivity|split; reflexivity]. }
  destruct (UUID E aid) as [key|e] eqn:Hk.
  2:{ left. split; [left; reflexivity|].
      assert (Hpj : exists w', process_job config E job w = (Raise e, w')
                               /\ analyses w' = analyses w
                               /\ analysis_reports w' = analysis_reports w).
      { unfold process_job.
        unfold bind at 1. unfold lift at 1. rewrite Haid.
        unfold bind at 1. unfold lift at 1. rewrite Hity.
        unfold try_except. unfold bind at 1.
        destruct (update_status_bad_tables E aid "processing" w e Hk)
          as (Hr & Ha & Hrep).
        destruct (_update_analysis_status E aid "processing" w) as [r w1].
        cbn [fst snd] in Hr, Ha, Hrep. subst r. unfold bind at 1.
        destruct (update_status_bad_tables E aid "failed" w1 e Hk)
          as (Hr' & Ha' & Hrep').
        destruct (_update_analysis_status E aid "failed" w1) as [r' w2].
        cbn [fst snd] in *. subst r'. exists w2.
        split; [reflexivity|split; congruence]. }
      destruct Hpj as (w' & -> & Ha & Hrep). cbn [fst snd].
      split; [exists e; reflexivity|split; assumption]. }
  right.
  pose proof (dispatch_tables config E ity job (status_set E key "processing" w))
    as (Han & Hrep & Hclock & Huuid).
  destruct (dispatch config E ity job (status_set E key "processing" w))
    as [[results|e] w1] eqn:Hd; cbn [snd] in Han, Hrep, Hclock, Huuid.
  - rewrite (process_job_done config E job aid ity key results w w1 Haid Hity Hk Hd).
    exists key, "done", (utcnow E (clock_reads (report_stored E key results w1))),
      (report_row E key results w1).
    cbn [fst snd].
    split; [reflexivity|]. split; [reflexivity|]. split.
    { intros k. rewrite status_set_lookup, analyses_report_stored, Han.
      rewrite status_set_lookup.
      destruct (decide (k = key)); [|reflexivity].
      destruct (analyses w !! k); reflexivity. }
    split.
    { rewrite status_set_reports, report_stored_reports, Hrep, status_set_reports.
      reflexivity. }
    split; [reflexivity|]. left. split; [reflexivity|].
    exact (dispatch_ok_score config E ity job _ results w1 Hd).
  - rewrite (process_job_failed config E job aid ity key e w w1 Haid Hity Hk Hd).
    exists key, "failed", (utcnow E (clock_reads w1)),
      (report_row E key (ErrorResults (exn_str e)) (status_set E key "failed" w1)).
    cbn [fst snd].
    split; [reflexivity|]. split; [reflexivity|]. split.
    { intros k. rewrite analyses_report_stored, status_set_lookup, Han.
      rewrite status_set_lookup.
      destruct (decide (k = key)); [|reflexivity].
      destruct (analyses w !! k); reflexivity. }
    split.
    { rewrite report_stored_reports, status_set_reports, Hrep, status_set_reports.
      reflexivity. }
    split; [reflexivity|]. right. split; reflexivity.
Qed.

Lemma iteration_tables config E d w :
  (analyses (snd (iteration config E d w)) = analyses w
   /\ analysis_reports (snd (iteration config E d w)) = analysis_reports w)
  \/ exists key st fin row,
       delivered_key E d = Some key
       /\ (forall k,
             analyses (snd (iteration config E d w)) !! k
             = if decide (k = key)
               then (fun r =>
                       {| user_id := user_id r; input_type := input_type r;
                          input_uri := input_uri r; status := st;
                          created_at := created_at r;
                          finished_at := Some fin |})
                      <$> analyses w !! k
               else analyses w !! k)
       /\ analysis_reports (snd (iteration config E d w))
          = upsert row (analysis_reports w)
       /\ analysis_id row = key
       /\ ((st = "done" /\ exists s, credibility_score row = Some s
                                     /\ (0 <= s <= 1)%Q)
           \/ (st = "failed" /\ credibility_score row = None)).
Proof.
  destruct d as [|payload|e|]; cbn [iteration delivered_key];
    try (left; split; reflexivity).
  destruct (json_loads E payload) as [job|]; [|left; split; reflexivity].
  destruct (process_job_tables config E job w)
    as [(_ & _ & Ha & Hrep)
       |(key & st & fin & row & Hkey & Hok & Ha & Hrep & Hrow & Hst)].
  - left. destruct (process_job config E job w) as [[u|e] w']; cbn [snd] in *;
      split; assumption.
  - right. exists key, st, fin, row.
    destruct (process_job config E job w) as [[u|e] w']; cbn [fst snd] in *;
      [|discriminate].
    repeat (split; [assumption|]). assumption.
Qed.

Lemma start_cons config E d rest w :
  start config E (d :: rest) w
  = if is_interrupt d then (Stopped, w)
    else start config E rest (snd (iteration config E d w)).
Proof.
  cbn [start]. destruct d as [|payload|e|]; cbn [iteration is_interrupt snd];
    try reflexivity.
  destruct (json_loads E payload) as [job|]; [|reflexivity].
  destruct (process_job config E job w) as [[u|e] w']; reflexivity.
Qed.

(** A run of the consumer changes only the rows that the delivered jobs
    name: the [analyses] row and the reports of any other analysis are
    after the run what they were before it. *)
Theorem run_touches_only_delivered (config : Config) (E : Env)
    (queue : list Dequeue) (w : World) (key : N) :
  key ∉ omap (delivered_key E) queue ->
  analyses (snd (start config E queue w)) !! key = analyses w !! key
  /\ reports_of key (analysis_reports (snd (start config E queue w)))
     = reports_of key (analysis_reports w).
Proof.
  revert w. induction queue as [|d rest IH]; intros w Hnot.
  { split; reflexivity. }
  rewrite start_cons. destruct (is_interrupt d); [split; reflexivity|].
  assert (Hrest : key ∉ omap (delivered_key E) rest).
  { intros Hin. apply Hnot. cbn [omap list_omap].
    destruct (delivered_key E d); [right|]; exact Hin. }
  destruct (IH (snd (iteration config E d w)) Hrest) as [Ha Hr].
  rewrite Ha, Hr.
  destruct (iteration_tables config E d w)
    as [[Ha' Hr']|(key' & st & fin & row & Hkey & Ha' & Hr' & Hrow & _)].
  - rewrite Ha', Hr'. split; reflexivity.
  - assert (Hne : key <> key').
    { intros ->. apply Hnot. cbn [omap list_omap]. rewrite Hkey. left. }
    rewrite Ha', Hr'. destruct (decide (key = key')); [contradiction|].
    split; [reflexivity|]. apply upsert_other. congruence.
Qed.

(** Row 43 is queued; the run delivers the video job of row 42 and an
    unreadable payload. *)
Lemma run_touches_only_delivered_witness :
  analyses (snd (start default_config Cases.office
                   [Item "<video job>"; Timeout; Item "garbage"]
                   Cases.busy_world)) !! 43%N
  = analyses Cases.busy_world !! 43%N
  /\ reports_of 43 (analysis_reports
                      (snd (start default_config Cases.office
                              [Item "<video job>"; Timeout; Item "garbage"]
                              Cases.busy_world)))
     = reports_of 43 (analysis_reports Cases.busy_world).
Proof.
  apply (run_touches_only_delivered default_config Cases.office
           [Item "<video job>"; Timeout; Item "garbage"] Cases.busy_world 43%N).
  vm_compute. not_listed.
Defined.

Lemma same_submission_refl (o : option AnalysisRow) : same_submission o o.
Proof. destruct o; cbn; auto. Qed.

Lemma same_submission_trans (a b c : option AnalysisRow) :
  same_submission a b -> same_submission b c -> same_submission a c.
Proof.
  destruct a, b, c; cbn; try tauto.
  intros (H1 & H2 & H3 & H4) (H5 & H6 & H7 & H8).
  repeat split; congruence.
Qed.

(** The worker never creates or deletes a row of [analyses], and never
    changes who submitted it, what was submitted or when: whatever the
    queue delivers, a run leaves each row's user, input type, input URI
    and creation time as they were. *)
Theorem run_preserves_submissions (config : Config) (E : Env)
    (queue : list Dequeue) (w : World) (key : N) :
  same_submission (analyses w !! key)
    (analyses (snd (start config E queue w)) !! key).
Proof.
  revert w. induction queue as [|d rest IH]; intros w.
  { apply same_submission_refl. }
  rewrite start_cons. destruct (is_interrupt d); [apply same_submission_refl|].
  eapply same_submission_trans; [|apply IH].
  destruct (iteration_tables config E d w)
    as [[Ha' _]|(key' & st & fin & row & _ & Ha' & _)].
  - rewrite Ha'. apply same_submission_refl.
  - rewrite Ha'. destruct (decide (key = key')); [|apply same_submission_refl].
    destruct (analyses w !! key); cbn; auto.
Qed.

Lemma upsert_keeps_keys new rows key :
  key ∈ map analysis_id rows -> key ∈ map analysis_id (upsert new rows).
Proof.
  intros Hin.
  destruct (reports_of (analysis_id new) rows) as [|r rs] eqn:Hrep.
  - rewrite (upsert_keys_fresh new rows Hrep). apply elem_of_app. left. exact Hin.
  - rewrite (upsert_keys new rows); [exact Hin|]. rewrite Hrep. discriminate.
Qed.

Lemma score_in_range_conflict r new :
  score_in_range new -> score_in_range (on_conflict r new).
Proof. unfold score_in_range. cbn. auto. Qed.

(** A run of the consumer keeps the report table well formed: when no
    analysis has two reports and every stored score is null or in [0, 1]
    before the run, the same holds after it, whatever the queue delivers;
    and no analysis loses its report. *)
Theorem run_keeps_report_table (config : Config) (E : Env)
    (queue : list Dequeue) (w : World) :
  NoDup (map analysis_id (analysis_reports w)) ->
  Forall score_in_range (analysis_reports w) ->
  let w' := snd (start config E queue w) in
  NoDup (map analysis_id (analysis_reports w'))
  /\ Forall score_in_range (analysis_reports w')
  /\ (forall key, key ∈ map analysis_id (analysis_reports w) ->
                  key ∈ map analysis_id (analysis_reports w')).
Proof.
  cbv zeta. revert w. induction queue as [|d rest IH]; intros w Hnd Hall.
  { split; [exact Hnd|]. split; [exact Hall|]. auto. }
  rewrite start_cons.
  destruct (is_interrupt d); [split; [exact Hnd|]; split; [exact Hall|]; auto|].
  assert (Hstep : NoDup (map analysis_id
                           (analysis_reports (snd (iteration config E d w))))
                  /\ Forall score_in_range
                       (analysis_reports (snd (iteration config E d w)))
                  /\ (forall key,
                        key ∈ map analysis_id (analysis_reports w) ->
                        key ∈ map analysis_id
                                (analysis_reports (snd (iteration config E d w))))).
  { destruct (iteration_tables config E d w)
      as [[_ Hr']|(key' & st & fin & row & _ & _ & Hr' & _ & Hst)]; rewrite Hr'.
    - split; [exact Hnd|]. split; [exact Hall|]. auto.
    - assert (Hrow : score_in_range row).
      { unfold score_in_range.
        destruct Hst as [(_ & s & -> & Hs)|(_ & ->)]; [exact Hs|exact I]. }
      split; [apply upsert_NoDup; exact Hnd|]. split.
      + apply upsert_Forall; [exact Hrow| |exact Hall].
        intros r _. apply score_in_range_conflict. exact Hrow.
      + intros key. apply upsert_keeps_keys. }
  destruct Hstep as (Hnd' & Hall' & Hkeys').
  destruct (IH (snd (iteration config E d w)) Hnd' Hall') as (H1 & H2 & H3).
  split; [exact H1|]. split; [exact H2|]. intros key Hin. apply H3, Hkeys', Hin.
Qed.

(** The image job and then the video job are delivered; row 7 has an
    older report. *)
Lemma run_keeps_report_table_witness :
  let w' := snd (start default_config Cases.office
                   [Item "<image job>"; Item "<video job>"] Cases.busy_world) in
  NoDup (map analysis_id (analysis_reports w'))
  /\ Forall score_in_range (analysis_reports w')
  /\ (forall key, key ∈ map analysis_id (analysis_reports Cases.busy_world) ->
                  key ∈ map analysis_id (analysis_reports w')).
Proof.
  apply (run_keeps_report_table default_config Cases.office
           [Item "<image job>"; Item "<video job>"] Cases.busy_world).
  - cbn. apply NoDup_cons. split; [not_listed|apply NoDup_nil; exact I].
  - cbn. constructor; [exact I|constructor].
Defined.

(** A job that [process_job] finishes has its outcome recorded twice, and
    consistently: the row of [analyses] is done and its one report has a
    score in [0, 1], or the row is failed and its one report has a null
    score; in both cases the row has a finishing time. *)
Theorem job_outcome_recorded (config : Config) (E : Env) (job : value)
    (w w' : World) :
  NoDup (map analysis_id (analysis_reports w)) ->
  process_job config E job w = (Ok (), w') ->
  exists key r,
    job_key E job = Some key
    /\ reports_of key (analysis_reports w') = [r]
    /\ (forall row, analyses w !! key = Some row ->
          exists row' t,
            analyses w' !! key = Some row'
            /\ finished_at row' = Some t
            /\ ((status row' = "done"
                 /\ exists s, credibility_score r = Some s /\ (0 <= s <= 1)%Q)
                \/ (status row' = "failed" /\ credibility_score r = None)))
    /\ (analyses w !! key = None -> analyses w' !! key = None).
Proof.
  intros Hnd Hpj.
  destruct (process_job_tables config E job w)
    as [(_ & [e He] & _)
       |(key & st & fin & row & Hkey & _ & Ha & Hrep & Hrow & Hst)].
  { rewrite Hpj in He. discriminate. }
  rewrite Hpj in Ha, Hrep. cbn [snd] in Ha, Hrep.
  destruct (upsert_one row (analysis_reports w) Hnd)
    as (r & Hr & Hscore & _).
  rewrite Hrow in Hr. exists key, r.
  split; [exact Hkey|]. split; [rewrite Hrep; exact Hr|].
  specialize (Ha key). destruct (decide (key = key)); [|contradiction].
  split.
  - intros row0 Hrow0. rewrite Hrow0 in Ha. cbn in Ha.
    eexists. exists fin. split; [exact Ha|]. split; [reflexivity|].
    cbn [status]. rewrite Hscore. exact Hst.
  - intros Hnone. rewrite Hnone in Ha. exact Ha.
Qed.

(** The video job of the short clip on the queued database. *)
Lemma job_outcome_recorded_witness :
  exists key r,
    job_key Sample.short_clip Sample.video_job = Some key
    /\ reports_of key
         (analysis_reports
            (snd (process_job default_config Sample.short_clip Sample.video_job
                    Sample.queued_world))) = [r]
    /\ (forall row, analyses Sample.queued_world !! key = Some row ->
          exists row' t,
            analyses (snd (process_job default_config Sample.short_clip
                             Sample.video_job Sample.queued_world)) !! key
            = Some row'
            /\ finished_at row' = Some t
            /\ ((status row' = "done"
                 /\ exists s, credibility_score r = Some s /\ (0 <= s <= 1)%Q)
                \/ (status row' = "failed" /\ credibility_score r = None)))
    /\ (analyses Sample.queued_world !! key = None ->
        analyses (snd (process_job default_config Sample.short_clip
                         Sample.video_job Sample.queued_world)) !! key = None).
Proof.
  apply (job_outcome_recorded default_config Sample.short_clip Sample.video_job
           Sample.queued_world).
  - cbn. apply NoDup_nil. exact I.
  - destruct (process_job default_config Sample.short_clip Sample.video_job
                Sample.queued_world) as [r w'] eqn:Hpj.
    assert (Hr : r = Ok ()).
    { apply (f_equal fst) in Hpj. cbn [fst] in Hpj. rewrite <- Hpj.
      vm_compute. reflexivity. }
    rewrite Hr. reflexivity.
Defined.

Lemma failed_report_stored E key msg w :
  exists r,
    r ∈ analysis_reports (report_stored E key (ErrorResults msg) w)
    /\ analysis_id r = key
    /\ credibility_score r = None
    /\ explanation r = ExplainError msg "failed".
Proof.
  unfold report_stored. cbn [analysis_reports emit upsert_report].
  destruct (upsert_elem (report_row E key (ErrorResults msg) w)
              (analysis_reports (snd (now E (snd (fresh_uuid E w))))))
    as (r & Hin & Hid & Hscore & Hexp).
  exists r. split; [exact Hin|]. split; [exact Hid|].
  split; [exact Hscore|exact Hexp].
Qed.

(** The events of a job whose pipeline raises after the outside calls
    [tr]. *)
Lemma process_job_failed_trace config E job aid ity key e w tr :
  getitem job "analysis_id" = Ok aid ->
  getitem job "input_type" = Ok ity ->
  UUID E aid = Ok key ->
  fst (dispatch config E ity job (status_set E key "processing" w)) = Raise e ->
  trace (snd (dispatch config E ity job (status_set E key "processing" w)))
  = trace w ++ [StatusUpdate key "processing"] ++ map IO tr ->
  exists w',
    process_job config E job w = (Ok (), w')
    /\ trace w'
       = trace w ++ [StatusUpdate key "processing"] ++ map IO tr
         ++ [StatusUpdate key "failed"; ReportUpsert key]
    /\ (exists r, r ∈ analysis_reports w'
                  /\ analysis_id r = key
                  /\ credibility_score r = None
                  /\ explanation r = ExplainError (exn_str e) "failed")
    /\ (forall row, analyses w !! key = Some row ->
          exists row', analyses w' !! key = Some row' /\ status row' = "failed").
Proof.
  intros Haid Hity Hk Hr Htr.
  pose proof (dispatch_tables config E ity job (status_set E key "processing" w))
    as (Han & _).
  destruct (dispatch config E ity job (status_set E key "processing" w))
    as [r w1] eqn:Hd. cbn [fst snd] in Hr, Htr, Han. subst r.
  eexists. split.
  { exact (process_job_failed config E job aid ity key e w w1 Haid Hity Hk Hd). }
  split.
  { rewrite trace_report_stored, trace_status_set, Htr, <- !app_assoc. reflexivity. }
  split; [apply failed_report_stored|].
  intros row Hrow.
  rewrite analyses_report_stored, analyses_status_set, Han, analyses_status_set, Hrow.
  cbn. eexists. split; reflexivity.
Qed.

Lemma dispatch_fetch_failure config E job aid ity uri e w :
  supported ity = true ->
  getitem job "analysis_id" = Ok aid ->
  getitem job "input_uri" = Ok uri ->
  download E uri (temp_dir_of E job) = Raise e ->
  fst (dispatch config E ity job w) = Raise e
  /\ trace (snd (dispatch config E ity job w)) = trace w ++ map IO [Download uri].
Proof.
  intros Hsup Haid Huri Hdl. unfold supported in Hsup. unfold dispatch.
  assert (Himg : process_image E job [] = (Raise e, [Download uri])).
  { unfold process_image, bind at 1, lift at 1. rewrite Haid.
    unfold bind at 1, lift at 1. rewrite Huri.
    unfold bind at 1, _download_file, call. rewrite Hdl. reflexivity. }
  assert (Hvid : process_video config E job [] = (Raise e, [Download uri])).
  { unfold process_video, bind at 1, lift at 1. rewrite Haid.
    unfold bind at 1, lift at 1. rewrite Huri.
    unfold bind at 1, _download_file, call. rewrite Hdl. reflexivity. }
  assert (Htxt : process_text E job [] = (Raise e, [Download uri])).
  { unfold process_text, bind at 1, lift at 1. rewrite Haid.
    unfold bind at 1, lift at 1. rewrite Huri.
    unfold bind at 1, _download_file, call. rewrite Hdl. reflexivity. }
  destruct (eq_str ity "image"); [unfold run; rewrite Himg; split; reflexivity|].
  destruct (eq_str ity "video"); [unfold run; rewrite Hvid; split; reflexivity|].
  destruct (eq_str ity "text"); [unfold run; rewrite Htxt; split; reflexivity|].
  discriminate.
Qed.

(** When the download of the input fails, an image, video or text job is
    failed without any further outside call: nothing is probed, opened or
    sent to a service; the row becomes failed and a report with a null
    score and the text of the storage error is stored. *)
Theorem fetch_failure_fails_job (config : Config) (E : Env)
    (job aid ity uri : value) (key : N) (e : exn) (w : World) :
  getitem job "analysis_id" = Ok aid ->
  getitem job "input_type" = Ok ity ->
  supported ity = true ->
  getitem job "input_uri" = Ok uri ->
  UUID E aid = Ok key ->
  download E uri (temp_dir_of E job) = Raise e ->
  exists w',
    process_job config E job w = (Ok (), w')
    /\ trace w'
       = trace w ++ [StatusUpdate key "processing"; IO (Download uri);
                     StatusUpdate key "failed"; ReportUpsert key]
    /\ (exists r, r ∈ analysis_reports w'
                  /\ analysis_id r = key
                  /\ credibility_score r = None
                  /\ explanation r = ExplainError (exn_str e) "failed")
    /\ (forall row, analyses w !! key = Some row ->
          exists row', analyses w' !! key = Some row' /\ status row' = "failed").
Proof.
  intros Haid Hity Hsup Huri Hk Hdl.
  destruct (dispatch_fetch_failure config E job aid ity uri e
              (status_set E key "processing" w) Hsup Haid Huri Hdl) as [Hr Htr].
  rewrite trace_status_set, <- app_assoc in Htr.
  exact (process_job_failed_trace config E job aid ity key e w [Download uri]
           Haid Hity Hk Hr Htr).
Qed.

(** The bucket cannot be reached when the video job is processed. *)
Lemma fetch_failure_fails_job_witness :
  exists w',
    process_job default_config Cases.offline_env Sample.video_job
      Sample.queued_world = (Ok (), w')
    /\ trace w'
       = trace Sample.queued_world
         ++ [StatusUpdate 42 "processing";
             IO (Download (VStr "gs://pi-shield-uploads/u/a/clip.mp4"));
             StatusUpdate 42 "failed"; ReportUpsert 42]
    /\ (exists r, r ∈ analysis_reports w'
                  /\ analysis_id r = 42%N
                  /\ credibility_score r = None
                  /\ explanation r = ExplainError (Msg "404 blob") "failed")
    /\ (forall row, analyses Sample.queued_world !! 42%N = Some row ->
          exists row', analyses w' !! 42%N = Some row' /\ status row' = "failed").
Proof.
  apply (fetch_failure_fails_job default_config Cases.offline_env
           Sample.video_job (VStr Sample.job_id) (VStr "video")
           (VStr "gs://pi-shield-uploads/u/a/clip.mp4") 42%N
           (Exn (OtherError "NotFound") (Msg "404 blob")) Sample.queued_world);
    reflexivity.
Defined.

(** A job whose input type is not image, video or text is failed before
    anything is downloaded: its only events are the two status updates
    and the report, whose explanation names the rejected input type. *)
Theorem unsupported_type_fails_job (config : Config) (E : Env)
    (job aid ity : value) (key : N) (w : World) :
  getitem job "analysis_id" = Ok aid ->
  getitem job "input_type" = Ok ity ->
  supported ity = false ->
  UUID E aid = Ok key ->
  exists w',
    process_job config E job w = (Ok (), w')
    /\ trace w'
       = trace w ++ [StatusUpdate key "processing"; StatusUpdate key "failed";
                     ReportUpsert key]
    /\ (exists r, r ∈ analysis_reports w'
                  /\ analysis_id r = key
                  /\ credibility_score r = None
                  /\ explanation r
                     = ExplainError (UnsupportedInputType ity) "failed")
    /\ (forall row, analyses w !! key = Some row ->
          exists row', analyses w' !! key = Some row' /\ status row' = "failed").
Proof.
  intros Haid Hity Hsup Hk.
  assert (Hd : forall w0,
             dispatch config E ity job w0
             = (Raise (Exn ValueError (UnsupportedInputType ity)), w0)).
  { intros w0. unfold supported in Hsup. unfold dispatch.
    destruct (eq_str ity "image"); [discriminate|].
    destruct (eq_str ity "video"); [discriminate|].
    destruct (eq_str ity "text"); [discriminate|]. reflexivity. }
  apply (process_job_failed_trace config E job aid ity key
           (Exn ValueError (UnsupportedInputType ity)) w [] Haid Hity Hk).
  - rewrite Hd. reflexivity.
  - rewrite Hd. cbn [snd map app]. apply trace_status_set.
Qed.

(** A job for an audio file. *)
Lemma unsupported_type_fails_job_witness :
  exists w',
    process_job default_config Sample.short_clip Cases.audio_job
      Sample.queued_world = (Ok (), w')
    /\ trace w'
       = trace Sample.queued_world
         ++ [StatusUpdate 42 "processing"; StatusUpdate 42 "failed";
             ReportUpsert 42]
    /\ (exists r, r ∈ analysis_reports w'
                  /\ analysis_id r = 42%N
                  /\ credibility_score r = None
                  /\ explanation r
                     = ExplainError (UnsupportedInputType (VStr "audio")) "failed")
    /\ (forall row, analyses Sample.queued_world !! 42%N = Some row ->
          exists row', analyses w' !! 42%N = Some row' /\ status row' = "failed").
Proof.
  apply (unsupported_type_fails_job default_config Sample.short_clip
           Cases.audio_job (VStr Sample.job_id) (VStr "audio") 42%N
           Sample.queued_world); reflexivity.
Defined.

(** An item that cannot be processed as a job is dropped: when the payload
    is not JSON, or the job has no usable [analysis_id] or no
    [input_type], the turn of the loop changes neither table, sets no
    status, sleeps five seconds and the loop goes on. *)
Theorem undeliverable_item_dropped (config : Config) (E : Env)
    (payload : string) (w : World) :
  match json_loads E payload with
  | Some job => job_key E job = None \/ exists e, getitem job "input_type" = Raise e
  | None => True
  end ->
  exists w',
    iteration config E (Item payload) w = (Running, w')
    /\ analyses w' = analyses w
    /\ analysis_reports w' = analysis_reports w
    /\ trace w' = trace w ++ [Sleep 5].
Proof.
  intros Hbad. cbn [iteration].
  destruct (json_loads E payload) as [job|].
  2:{ eexists. split; [reflexivity|]. repeat split; reflexivity. }
  destruct (process_job_tables config E job w)
    as [(_ & [e He] & Ha & Hrep)
       |(key & st & fin & row & Hkey & Hok & _)].
  2:{ exfalso. destruct Hbad as [Hnone|[e Hity]]; [congruence|].
      unfold job_key in Hkey.
      destruct (getitem job "analysis_id") as [aid|e0] eqn:Haid; [|discriminate].
      assert (Hpj : process_job config E job w = (Raise e, w)).
      { unfold process_job, bind at 1, lift at 1. rewrite Haid.
        unfold bind at 1, lift at 1. rewrite Hity. reflexivity. }
      rewrite Hpj in Hok. discriminate. }
  assert (Htr : trace (snd (process_job config E job w)) = trace w).
  { destruct (process_job_cases config E job w)
      as [[_ Htr]|(aid & ity & k & tr & r & w1 & Haid & Hity & Hk & _)];
      [exact Htr|].
    exfalso. destruct Hbad as [Hnone|[e0 Hity']]; [|congruence].
    unfold job_key in Hnone. rewrite Haid, Hk in Hnone. discriminate. }
  destruct (process_job config E job w) as [[u|e0] w1]; cbn [fst snd] in *;
    [discriminate|].
  eexists. split; [reflexivity|]. cbn [analyses analysis_reports trace emit].
  split; [exact Ha|]. split; [exact Hrep|]. rewrite Htr. reflexivity.
Qed.

(** A job without an analysis id. *)
Lemma undeliverable_item_dropped_witness :
  exists w',
    iteration default_config Cases.office (Item "<anonymous job>")
      Cases.busy_world = (Running, w')
    /\ analyses w' = analyses Cases.busy_world
    /\ analysis_reports w' = analysis_reports Cases.busy_world
    /\ trace w' = trace Cases.busy_world ++ [Sleep 5].
Proof.
  apply (undeliverable_item_dropped default_config Cases.office
           "<anonymous job>" Cases.busy_world).
  left. reflexivity.
Defined.

(** ** The probe *)

(** C9. The probe of a clip whose video stream has the frame rate 0/0:
    ffprobe succeeds and prints JSON, evaluating the rate divides by
    zero, the handler of [_get_video_info] does not name that exception,
    and instead of returning the zeroed metadata [_get_video_info]
    raises. The job does not continue: nothing is extracted, the row is
    failed and the report carries the text of the error. *)
Theorem zero_frame_rate_raises :
  let E := Sample.zero_rate_clip in
  let e := Exn ZeroDivisionError (Msg "division by zero") in
  _get_video_info E "/tmp/job/clip.mp4" []
  = (Raise e, [Ffprobe "/tmp/job/clip.mp4"])
  /\ isinstance e probe_errors = false
  /\ exists w',
       process_job default_config E Sample.video_job Sample.queued_world
       = (Ok (), w')
       /\ trace w'
          = [StatusUpdate 42 "processing";
             IO (Download (VStr "gs://pi-shield-uploads/u/a/clip.mp4"));
             IO (Ffprobe "/tmp/job/clip.mp4");
             StatusUpdate 42 "failed"; ReportUpsert 42]
       /\ status <$> analyses w' !! 42%N = Some "failed"
       /\ map credibility_score (analysis_reports w') = [None]
       /\ map explanation (analysis_reports w')
          = [ExplainError (Msg "division by zero") "failed"].
Proof.
  cbv zeta. split; [reflexivity|]. split; [reflexivity|].
  exists (snd (process_job default_config Sample.zero_rate_clip Sample.video_job
                 Sample.queued_world)).
  split.
  { destruct (process_job default_config Sample.zero_rate_clip Sample.video_job
                Sample.queued_world) as [r w'] eqn:Hpj.
    assert (Hr : r = Ok ()).
    { apply (f_equal fst) in Hpj. cbn [fst] in Hpj. rewrite <- Hpj.
      vm_compute. reflexivity. }
    rewrite Hr. reflexivity. }
  split; [vm_compute; reflexivity|]. split; [vm_compute; reflexivity|].
  split; vm_compute; reflexivity.
Qed.

Lemma first_video_stream_none (streams : list value) :
  Forall (fun s => exists ct, getitem s "codec_type" = Ok ct
                              /\ eq_str ct "video" = false) streams ->
  first_video_stream streams = Ok (VDict []).
Proof.
  induction 1 as [|s rest (ct & Hct & Hne) _ IH]; [reflexivity|].
  cbn [first_video_stream]. rewrite Hct. cbn [result_bind]. rewrite Hne. exact IH.
Qed.

(** A file without a video stream is probed without an error: the
    duration and the size are those of the container, the width, the
    height and the frame rate are zero and the codec is unknown; video
    scoring then always reports the low resolution. *)
Theorem probe_without_video_stream (E : Env) (path stdout : string)
    (info : value) (streams : list value) (fmt : list (string * value))
    (d : Q) (sz : Z) (tr : list IOEvent) :
  ffprobe E path = Ok stdout ->
  json_loads E stdout = Some info ->
  getitem info "streams" = Ok (VList streams) ->
  Forall (fun s => exists ct, getitem s "codec_type" = Ok ct
                              /\ eq_str ct "video" = false) streams ->
  getitem info "format" = Ok (VDict fmt) ->
  float (float_of_string E) (default (VInt 0) (dict_lookup "duration" fmt)) = Ok d ->
  int (int_of_string E) (default (VInt 0) (dict_lookup "size" fmt)) = Ok sz ->
  let video_info :=
    {| duration := d; size := sz; width := 0; height := 0;
       fps := VFloat 0; codec := VStr "unknown" |} in
  _get_video_info E path tr = (Ok video_info, tr ++ [Ffprobe path])
  /\ forall frs t,
       LowResolutionVideo
         ∈ video_primary_factors (snd (_calculate_video_credibility frs t video_info)).
Proof.
  intros Hprobe Hjson Hstreams Hnone Hfmt Hd Hsz. cbv zeta. split.
  - unfold _get_video_info, try_except, probe_video, bind, call, lift.
    rewrite Hprobe. unfold read_video_info. rewrite Hjson. cbn [result_bind].
    rewrite Hstreams. cbn [result_bind iter].
    rewrite (first_video_stream_none streams Hnone). cbn [result_bind].
    rewrite Hfmt. cbn [result_bind get]. rewrite Hd. cbn [result_bind].
    rewrite Hsz. reflexivity.
  - intros frs t. apply video_factors. right. right. right.
    split; [reflexivity|]. cbn [width]. lia.
Qed.

(** A voice memo uploaded as a video. *)
Lemma probe_without_video_stream_witness :
  let video_info :=
    {| duration := 12.5; size := 1048576; width := 0; height := 0;
       fps := VFloat 0; codec := VStr "unknown" |} in
  _get_video_info Cases.voice_memo "/tmp/job/clip.mp4" []
  = (Ok video_info, [] ++ [Ffprobe "/tmp/job/clip.mp4"])
  /\ forall frs t,
       LowResolutionVideo
         ∈ video_primary_factors (snd (_calculate_video_credibility frs t video_info)).
Proof.
  apply (probe_without_video_stream Cases.voice_memo "/tmp/job/clip.mp4"
           "<ffprobe output>" Cases.audio_only_report
           [VDict [("codec_type", VStr "audio"); ("codec_name", VStr "aac")]]
           [("duration", VStr "12.5"); ("size", VStr "1048576")]).
  - reflexivity.
  - reflexivity.
  - reflexivity.
  - constructor; [|constructor]. exists (VStr "audio"). split; reflexivity.
  - reflexivity.
  - reflexivity.
  - reflexivity.
Defined.

(** ** The upload API and the worker *)

Lemma media_type_of_supported (extension media_type : string) :
  Api.media_type_of extension Api.ALLOWED_EXTENSIONS = Some media_type ->
  media_type = "image" \/ media_type = "video" \/ media_type = "text".
Proof.
  unfold Api.ALLOWED_EXTENSIONS. cbn [Api.media_type_of].
  repeat (destruct (bool_decide _);
          [intros H; injection H as <-; auto|]).
  discriminate.
Qed.

Lemma validate_file_returned cfg file media_type :
  Api.validate_file cfg file = Api.Returned media_type ->
  exists name,
    Api.filename file = Some name
    /\ name <> ""
    /\ Api.media_type_of (Api.extension_of name) Api.ALLOWED_EXTENSIONS
       = Some media_type.
Proof.
  unfold Api.validate_file.
  destruct (match Api.size file with Some _ => _ | None => _ end); [discriminate|].
  destruct (Api.filename file) as [name|]; [|discriminate].
  unfold str_truthy. destruct (bool_decide (name = "")) eqn:Hname;
    cbn [negb]; [discriminate|].
  apply bool_decide_eq_false in Hname.
  destruct (Api.media_type_of _ _) as [t|] eqn:Ht; [|discriminate].
  intros H. injection H as <-. exists name. auto.
Qed.

(** Every upload that [validate_file] accepts becomes a job that the
    worker has a pipeline for: the media type is image, video or text,
    the job of [upload_file] carries the keys that [process_job] reads,
    and [dispatch] runs the pipeline of that type, so that the branch for
    unsupported input types is not taken. *)
Theorem accepted_upload_is_dispatched (cfg : Api.Config) (file : Api.UploadFile)
    (media_type : string) :
  Api.validate_file cfg file = Api.Returned media_type ->
  forall (analysis_id user_id gcs_uri filename created_at : string)
         (config : Config) (E : Env),
    let job := Api.upload_job analysis_id user_id gcs_uri media_type
                 filename created_at in
    supported (VStr media_type) = true
    /\ getitem job "analysis_id" = Ok (VStr analysis_id)
    /\ getitem job "input_type" = Ok (VStr media_type)
    /\ getitem job "input_uri" = Ok (VStr gcs_uri)
    /\ ((media_type = "image"
         /\ dispatch config E (VStr media_type) job = run (process_image E job))
        \/ (media_type = "video"
            /\ dispatch config E (VStr media_type) job
               = run (process_video config E job))
        \/ (media_type = "text"
            /\ dispatch config E (VStr media_type) job
               = run (process_text E job))).
Proof.
  intros Hval analysis_id user_id gcs_uri filename created_at config E. cbv zeta.
  apply validate_file_returned in Hval as (name & _ & _ & Hty).
  apply media_type_of_supported in Hty.
  destruct Hty as [->|[->| ->]]; repeat (split; [reflexivity|]).
  - left. split; reflexivity.
  - right. left. split; reflexivity.
  - right. right. split; reflexivity.
Qed.

(** A photo of 2 MB, uploaded as the image job of the samples. *)
Lemma accepted_upload_is_dispatched_witness :
  let job := Api.upload_job Cases.image_job_id
               "0b9d6c2a-1e4f-4c3b-8a7d-5f6e7d8c9b0a"
               "gs://pi-shield-uploads/u/b/Holiday.Photo.JPG" "image"
               "Holiday.Photo.JPG" "2024-05-01T10:05:00" in
  supported (VStr "image") = true
  /\ getitem job "analysis_id" = Ok (VStr Cases.image_job_id)
  /\ getitem job "input_type" = Ok (VStr "image")
  /\ getitem job "input_uri"
     = Ok (VStr "gs://pi-shield-uploads/u/b/Holiday.Photo.JPG")
  /\ (("image" = "image"
       /\ dispatch default_config Sample.short_clip (VStr "image") job
          = run (process_image Sample.short_clip job))
      \/ ("image" = "video"
          /\ dispatch default_config Sample.short_clip (VStr "image") job
             = run (process_video default_config Sample.short_clip job))
      \/ ("image" = "text"
          /\ dispatch default_config Sample.short_clip (VStr "image") job
             = run (process_text Sample.short_clip job))).
Proof.
  apply (accepted_upload_is_dispatched Api.default_config
           {| Api.size := Some 2097152%Z; Api.filename := Some "Holiday.Photo.JPG" |}
           "image").
  vm_compute. reflexivity.
Defined.

Lemma lower_char_idem (c : ascii) : lower_char (lower_char c) = lower_char c.
Proof. destruct c as [[] [] [] [] [] [] [] []]; reflexivity. Qed.

Lemma lower_idem (s : string) : lower (lower s) = lower s.
Proof.
  induction s as [|c t IH]; [reflexivity|].
  cbn [lower]. rewrite lower_char_idem, IH. reflexivity.
Qed.

Lemma lower_char_dot (c : ascii) : lower_char c = "."%char <-> c = "."%char.
Proof.
  destruct c as [[] [] [] [] [] [] [] []]; split; intros H;
    solve [reflexivity | discriminate H].
Qed.

Lemma lower_append (a b : string) : lower (a +:+ b) = lower a +:+ lower b.
Proof.
  induction a as [|c t IH]; [reflexivity|].
  change (String c t +:+ b) with (String c (t +:+ b)). cbn [lower].
  rewrite IH. reflexivity.
Qed.

Lemma prefix_dot (c : ascii) (t : string) :
  String.prefix "." (String c t) = bool_decide (c = "."%char).
Proof.
  cbn [String.prefix]. destruct (ascii_dec "." c) as [Heq|Hne].
  - subst c. rewrite bool_decide_eq_true_2 by reflexivity. destruct t; reflexivity.
  - symmetry. apply bool_decide_eq_false. congruence.
Qed.

Lemma contains_dot_cons (c : ascii) (t : string) :
  contains "." (String c t) = bool_decide (c = "."%char) || contains "." t.
Proof. cbn [contains]. rewrite prefix_dot. reflexivity. Qed.

Lemma contains_dot_lower (s : string) : contains "." (lower s) = contains "." s.
Proof.
  induction s as [|c t IH]; [reflexivity|].
  cbn [lower]. rewrite !contains_dot_cons, IH. f_equal.
  apply bool_decide_ext. apply lower_char_dot.
Qed.

Lemma append_assoc_char (cur : string) (c : ascii) (t : string) :
  (cur +:+ String c "") +:+ t = cur +:+ String c t.
Proof.
  induction cur as [|d cur IH]; [reflexivity|].
  change ((String d cur +:+ String c "") +:+ t)
    with (String d ((cur +:+ String c "") +:+ t)).
  rewrite IH. reflexivity.
Qed.

Lemma split_on_dot_none (cur s : string) :
  contains "." s = false -> split_on_from "." 0 cur s = [cur +:+ s].
Proof.
  revert cur. induction s as [|c t IH]; intros cur Hno.
  - cbn [split_on_from]. f_equal. induction cur as [|d cur IHc]; [reflexivity|].
    change (String d cur +:+ "") with (String d (cur +:+ "")).
    rewrite <- IHc. reflexivity.
  - rewrite contains_dot_cons in Hno. apply orb_false_iff in Hno as [Hc Ht].
    cbn [split_on_from]. rewrite prefix_dot, Hc, (IH _ Ht), append_assoc_char.
    reflexivity.
Qed.

Lemma split_on_from_nonempty (sep : string) (skip : nat) (cur s : string) :
  split_on_from sep skip cur s <> [].
Proof.
  revert skip cur. induction s as [|c t IH]; intros skip cur; cbn [split_on_from].
  - discriminate.
  - destruct skip; [|apply IH]. destruct (String.prefix sep (String c t));
      [discriminate|apply IH].
Qed.

Lemma last_cons_nonempty {A} (x : A) (l : list A) (d : A) :
  l <> [] -> List.last (x :: l) d = List.last l d.
Proof. destruct l; [congruence|reflexivity]. Qed.

Lemma split_on_dot_last (cur stem ext : string) :
  contains "." ext = false ->
  List.last (split_on_from "." 0 cur (stem +:+ String "." ext)) "" = ext.
Proof.
  intros Hno. revert cur. induction stem as [|c t IH]; intros cur.
  - change ("" +:+ String "." ext) with (String "." ext).
    cbn [split_on_from]. rewrite prefix_dot.
    rewrite bool_decide_eq_true_2 by reflexivity.
    cbn [String.length Nat.sub]. rewrite (split_on_dot_none "" ext Hno).
    reflexivity.
  - change (String c t +:+ String "." ext) with (String c (t +:+ String "." ext)).
    cbn [split_on_from]. rewrite prefix_dot.
    destruct (bool_decide (c = "."%char)).
    + cbn [String.length Nat.sub].
      rewrite last_cons_nonempty by apply split_on_from_nonempty. apply IH.
    + apply IH.
Qed.

Lemma extension_of_dotted (stem ext : string) :
  contains "." ext = false ->
  Api.extension_of (stem +:+ String "." ext) = lower ext.
Proof.
  intros Hno. unfold Api.extension_of, split_on.
  rewrite lower_append. cbn [lower].
  change (lower_char ".") with "."%char.
  apply split_on_dot_last. rewrite contains_dot_lower. exact Hno.
Qed.

Lemma extension_of_plain (ext : string) :
  contains "." ext = false -> Api.extension_of ext = lower ext.
Proof.
  intros Hno. unfold Api.extension_of, split_on.
  rewrite split_on_dot_none by (rewrite contains_dot_lower; exact Hno).
  reflexivity.
Qed.

(** [validate_file] judges a file by the text after the last dot of its
    name, whatever the case of the letters: a name [stem.ext] is accepted
    or rejected exactly as the name [ext] in lower case alone is, so that
    a file whose whole name is an extension is accepted as well. *)
Theorem validate_file_extension_rule (cfg : Api.Config) (sz : option Z)
    (stem ext : string) :
  ext <> "" ->
  contains "." ext = false ->
  Api.validate_file cfg {| Api.size := sz;
                           Api.filename := Some (stem +:+ String "." ext) |}
  = Api.validate_file cfg {| Api.size := sz; Api.filename := Some (lower ext) |}.
Proof.
  intros Hne Hno. unfold Api.validate_file. cbn [Api.size Api.filename].
  destruct (match sz with Some _ => _ | None => _ end); [reflexivity|].
  assert (H1 : str_truthy (stem +:+ String "." ext) = true).
  { unfold str_truthy. rewrite bool_decide_eq_false_2; [reflexivity|].
    destruct stem; discriminate. }
  assert (H2 : str_truthy (lower ext) = true).
  { unfold str_truthy. rewrite bool_decide_eq_false_2; [reflexivity|].
    destruct ext; [congruence|discriminate]. }
  rewrite H1, H2. cbn [negb].
  rewrite (extension_of_dotted stem ext Hno).
  rewrite (extension_of_plain (lower ext))
    by (rewrite contains_dot_lower; exact Hno).
  rewrite lower_idem. reflexivity.
Qed.

(** A photo with two dots and capitals in its name. *)
Lemma validate_file_extension_rule_witness :
  Api.validate_file Api.default_config
    {| Api.size := Some 2097152%Z;
       Api.filename := Some ("Holiday.Photo" +:+ String "." "JPG") |}
  = Api.validate_file Api.default_config
      {| Api.size := Some 2097152%Z; Api.filename := Some (lower "JPG") |}.
Proof.
  apply (validate_file_extension_rule Api.default_config (Some 2097152%Z)
           "Holiday.Photo" "JPG").
  - discriminate.
  - reflexivity.
Defined.

(** The size check of [validate_file]: a file is refused as too large
    exactly when its size is known, is not zero and exceeds the limit; the
    refusal then does not depend on the name, and a file of exactly the
    limit, of size zero or of unknown size is never refused for its
    size. *)
Theorem validate_file_size_limit (cfg : Api.Config) (file : Api.UploadFile) :
  Api.validate_file cfg file = Api.Rejected (Api.HTTPError 413 "File too large")
  <-> exists n, Api.size file = Some n /\ n <> 0%Z
                /\ (Api.MAX_FILE_SIZE cfg < n)%Z.
Proof.
  unfold Api.validate_file. split.
  - destruct (Api.size file) as [n|].
    + destruct (Z.eqb_spec n 0) as [->|Hn]; cbn [negb andb].
      * destruct (Api.filename file) as [name|]; [|discriminate].
        destruct (negb (str_truthy name)); [discriminate|].
        destruct (Api.media_type_of _ _); discriminate.
      * destruct (Z.ltb_spec (Api.MAX_FILE_SIZE cfg) n) as [Hlt|Hge].
        -- intros _. exists n. auto.
        -- destruct (Api.filename file) as [name|]; [|discriminate].
           destruct (negb (str_truthy name)); [discriminate|].
           destruct (Api.media_type_of _ _); discriminate.
    + destruct (Api.filename file) as [name|]; [|discriminate].
      destruct (negb (str_truthy name)); [discriminate|].
      destruct (Api.media_type_of _ _); discriminate.
  - intros (n & -> & Hn & Hlt).
    destruct (Z.eqb_spec n 0) as [->|_]; [congruence|].
    destruct (Z.ltb_spec (Api.MAX_FILE_SIZE cfg) n) as [_|Hge]; [reflexivity|lia].
Qed.

(** ** The pattern penalty and the counts of the explanation *)

Lemma clamp_mono (a b : Q) : (a <= b)%Q -> (clamp a <= clamp b)%Q.
Proof.
  intros Hab. unfold clamp, py_max, py_min.
  destruct (Qltb a 1.0) eqn:Ha1; destruct (Qltb b 1.0) eqn:Hb1;
    try apply Qltb_lt in Ha1; try apply Qltb_ge in Ha1;
    try apply Qltb_lt in Hb1; try apply Qltb_ge in Hb1;
    repeat match goal with
           | |- context [Qltb ?x ?y] =>
               let H := fresh "H" in
               destruct (Qltb x y) eqn:H;
               [apply Qltb_lt in H|apply Qltb_ge in H]
           end; lra.
Qed.

Lemma text_structure_shift stats a :
  (fst (text_structure stats a)
   == fst a - (0.9 - fst (text_structure stats (0.9, []))))%Q.
Proof.
  unfold text_structure. destruct (0 <? word_count stats)%Z; [|cbn [fst]; lra].
  destruct (Qltb 30 _); [unfold penalise; cbn [fst]; lra|].
  destruct (Qltb _ 5); unfold penalise; cbn [fst]; lra.
Qed.

Lemma text_repetition_shift text a :
  (fst (text_repetition text a)
   == fst a - (0.9 - fst (text_repetition text (0.9, []))))%Q.
Proof.
  unfold text_repetition.
  destruct (10 <? length (split (lower text)))%nat; [|cbn [fst]; lra].
  destruct (Qltb _ _); unfold penalise; cbn [fst]; lra.
Qed.

Lemma text_patterns_fst ms a :
  (fst (text_patterns ms a) == fst a - ai_pattern_penalty ms)%Q.
Proof.
  unfold text_patterns. destruct ms as [|m ms']; cbn [list_truthy].
  - unfold ai_pattern_penalty, py_min. cbn [length].
    change (float_of_nat 0) with 0%Q.
    destruct (Qltb (0 * 0.2) 0.6) eqn:H; [lra|].
    apply Qltb_ge in H. lra.
  - unfold penalise. cbn [fst]. lra.
Qed.

Lemma float_of_nat_le (n m : nat) :
  (n <= m)%nat -> (float_of_nat n <= float_of_nat m)%Q.
Proof. intros H. unfold float_of_nat. rewrite <- Zle_Qle. lia. Qed.

Lemma ai_pattern_penalty_mono (ms ms' : list string) :
  (length ms <= length ms')%nat ->
  (ai_pattern_penalty ms <= ai_pattern_penalty ms')%Q.
Proof.
  intros Hlen. apply float_of_nat_le in Hlen.
  unfold ai_pattern_penalty, py_min.
  destruct (Qltb (float_of_nat (length ms) * 0.2) 0.6) eqn:H1;
    [apply Qltb_lt in H1|apply Qltb_ge in H1];
    (destruct (Qltb (float_of_nat (length ms') * 0.2) 0.6) eqn:H2;
     [apply Qltb_lt in H2|apply Qltb_ge in H2]); lra.
Qed.

Lemma ai_pattern_penalty_cap (ms : list string) :
  (3 <= length ms)%nat -> (ai_pattern_penalty ms == 0.6)%Q.
Proof.
  intros Hlen. apply float_of_nat_le in Hlen.
  change (float_of_nat 3) with 3%Q in Hlen.
  unfold ai_pattern_penalty, py_min.
  destruct (Qltb (float_of_nat (length ms) * 0.2) 0.6) eqn:H1;
    [apply Qltb_lt in H1; lra|reflexivity].
Qed.

Lemma text_raw_score text stats ms :
  (fst (text_penalties text stats ms)
   == 0.9 - ai_pattern_penalty ms
      - (0.9 - fst (text_structure stats (0.9, [])))
      - (0.9 - fst (text_repetition text (0.9, []))))%Q.
Proof.
  unfold text_penalties.
  rewrite text_repetition_shift, text_structure_shift, text_patterns_fst.
  cbn [fst]. lra.
Qed.

Lemma text_score_clamp text stats ms :
  fst (_calculate_text_credibility text stats ms)
  = clamp (fst (text_penalties text stats ms)).
Proof.
  unfold _calculate_text_credibility.
  destruct (text_penalties text stats ms). reflexivity.
Qed.

(** More matched AI patterns never raise the text score, and from the
    third match on they do not lower it further: for one text with its
    statistics, the score with at least as many matches is at most the
    score with fewer, and any two lists of three or more matches give
    equal scores. *)
Theorem pattern_penalty_monotone_capped (text : string) (stats : TextStats)
    (ms ms' : list string) :
  (length ms <= length ms')%nat ->
  (fst (_calculate_text_credibility text stats ms')
   <= fst (_calculate_text_credibility text stats ms))%Q
  /\ ((3 <= length ms)%nat ->
      (fst (_calculate_text_credibility text stats ms')
       == fst (_calculate_text_credibility text stats ms))%Q).
Proof.
  intros Hlen. rewrite !text_score_clamp.
  pose proof (text_raw_score text stats ms) as Hms.
  pose proof (text_raw_score text stats ms') as Hms'.
  pose proof (ai_pattern_penalty_mono ms ms' Hlen) as Hmono.
  split.
  - apply clamp_mono. lra.
  - intros H3.
    pose proof (ai_pattern_penalty_cap ms H3) as Hc.
    pose proof (ai_pattern_penalty_cap ms' ltac:(lia)) as Hc'.
    apply Qle_antisym; apply clamp_mono; lra.
Qed.

(** Three matches and five matches in the same text. *)
Lemma pattern_penalty_monotone_capped_witness :
  (fst (_calculate_text_credibility "x" Sample.empty_stats
          ["as an ai"; "as an ai"; "i cannot provide"; "as an ai"; "as an ai"])
   <= fst (_calculate_text_credibility "x" Sample.empty_stats
             ["as an ai"; "as an ai"; "i cannot provide"]))%Q
  /\ ((3 <= length ["as an ai"; "as an ai"; "i cannot provide"])%nat ->
      (fst (_calculate_text_credibility "x" Sample.empty_stats
              ["as an ai"; "as an ai"; "i cannot provide"; "as an ai"; "as an ai"])
       == fst (_calculate_text_credibility "x" Sample.empty_stats
                 ["as an ai"; "as an ai"; "i cannot provide"]))%Q).
Proof.
  apply (pattern_penalty_monotone_capped "x" Sample.empty_stats
           ["as an ai"; "as an ai"; "i cannot provide"]
           ["as an ai"; "as an ai"; "i cannot provide"; "as an ai"; "as an ai"]).
  cbn [length]. lia.
Defined.

(** The counts that the explanations report agree with what was scored:
    for an image, [face_count] is the number of faces and
    [artificial_labels] is positive exactly when the artificial content
    factor is listed, and then counts the labels that the factor names;
    for a text, [ai_patterns_count] is the number of matches and is
    positive exactly when the pattern factor is listed. *)
Theorem explanation_counts_agree :
  (forall vr info,
     let e := snd (_calculate_image_credibility vr info) in
     face_count e = Z.of_nat (length (faces vr))
     /\ ((0 < artificial_labels e)%Z
         <-> exists names, ArtificialContent names ∈ image_primary_factors e)
     /\ (forall names, ArtificialContent names ∈ image_primary_factors e ->
           artificial_labels e = Z.of_nat (length names)))
  /\ (forall text stats ms,
        let e := snd (_calculate_text_credibility text stats ms) in
        ai_patterns_count e = Z.of_nat (length ms)
        /\ text_length e = word_count stats
        /\ ((0 < ai_patterns_count e)%Z
            <-> exists found, AIPatternsFound found ∈ text_primary_factors e)).
Proof.
  split.
  - intros vr info. cbv zeta.
    assert (Hcount : artificial_labels (snd (_calculate_image_credibility vr info))
                     = Z.of_nat (length (artificial_labels_of (labels vr)))
                     /\ face_count (snd (_calculate_image_credibility vr info))
                        = Z.of_nat (length (faces vr))).
    { unfold _calculate_image_credibility.
      destruct (image_penalties vr). split; reflexivity. }
    destruct Hcount as [Hart Hfaces]. rewrite Hart.
    split; [exact Hfaces|]. split.
    + split.
      * intros Hpos. exists (map description (artificial_labels_of (labels vr))).
        apply image_factors. right. right. right. split; [reflexivity|].
        intros Hnil. rewrite Hnil in Hpos. cbn in Hpos. lia.
      * intros [names Hin]. apply image_factors in Hin.
        destruct Hin as [[H _]|[[H _]|[[H _]|[_ Hne]]]]; try discriminate.
        destruct (artificial_labels_of (labels vr)); [congruence|].
        cbn [length]. lia.
    + intros names Hin. apply image_factors in Hin.
      destruct Hin as [[H _]|[[H _]|[[H _]|[H _]]]]; try discriminate.
      injection H as ->. rewrite length_map. reflexivity.
  - intros text stats ms. cbv zeta.
    assert (Hcount : ai_patterns_count (snd (_calculate_text_credibility text stats ms))
                     = Z.of_nat (length ms)
                     /\ text_length (snd (_calculate_text_credibility text stats ms))
                        = word_count stats).
    { unfold _calculate_text_credibility.
      destruct (text_penalties text stats ms). split; reflexivity. }
    destruct Hcount as [Hn Hlen]. rewrite Hn.
    split; [reflexivity|]. split; [exact Hlen|]. split.
    + intros Hpos. exists ms. apply text_factors. left. split; [reflexivity|].
      intros ->. cbn in Hpos. lia.
    + intros [found Hin]. apply text_factors in Hin.
      destruct Hin as [[_ Hne]|[[H _]|[[H _]|[H _]]]]; try discriminate.
      destruct ms; [congruence|]. cbn [length]. lia.
Qed.
